(** * tsunami_benchmarks: debris post-processing, run set-up and plot helpers

    A shallow embedding of the Python scripts

      - [nthmp_debris_2023/BM1/test1/debris_squares_fgout_animate.py]
      - [nthmp_currents_2015/MonaiValley/setrun.py]
      - [nthmp_currents_2015/problem2/from_japan1/setrun.py]
      - [nthmp_currents_2015/problem1_take2/setplot.py]

    Python [int] is [Z], Python/NumPy [float] is IEEE binary64 given by
    the Standard Library's [spec_float] operations at precision 53,
    dictionaries are [gmap], exceptions are an explicit result type. *)

From Stdlib Require Import ZArith List Bool Ascii String.
From Stdlib Require Import Floats.SpecFloat.
From Stdlib Require Import Sorting.Sorted.
From stdpp Require Import gmap strings list fin_maps.

Local Open Scope Z_scope.

(** ** IEEE binary64 *)

Module F64.

Definition float : Type := spec_float.

Definition prec : Z := 53.
Definition emax : Z := 1024.

Definition add : float -> float -> float := SFadd prec emax.
Definition sub : float -> float -> float := SFsub prec emax.
Definition mul : float -> float -> float := SFmul prec emax.
Definition div : float -> float -> float := SFdiv prec emax.
Definition sqrt : float -> float := SFsqrt prec emax.
Definition abs : float -> float := SFabs.
Definition ltb : float -> float -> bool := SFltb.
Definition leb : float -> float -> bool := SFleb.
(** Python's [a > b] on floats. *)
Definition gtb (a b : float) : bool := SFltb b a.

Definition nan : float := S754_nan.
Definition zero : float := S754_zero false.

(** An integer converted to binary64 (round to nearest even). *)
Definition of_Z (n : Z) : float := binary_normalize prec emax n 0 false.

(** The decimal literal [n / 10^k]: a Python float literal denotes the
    binary64 nearest to its decimal value, which is the correctly
    rounded quotient of the two integers (both exact below 2^53). *)
Definition dec (n : Z) (k : nat) : float :=
  div (of_Z n) (of_Z (10 ^ Z.of_nat k)).

Definition is_nan (x : float) : bool :=
  match x with S754_nan => true | _ => false end.

Definition is_infinite (x : float) : bool :=
  match x with S754_infinity _ => true | _ => false end.

#[global] Instance float_eq_dec : EqDecision float.
Proof. solve_decision. Defined.

End F64.

Import F64.

(** ** Python results: a value or a raised exception *)

Inductive pykey : Type :=
  | KInt (n : Z)
  | KStr (s : string).

Inductive exn : Type :=
  | KeyError (key : pykey)
  | IndexError
  | NameError (name : string)
  | ValueError
  | AssertionError (msg : string)
  | AttributeError (msg : string)
  | UnboundLocalError (name : string)
  | OSError (msg : string)
  | Exception (msg : string).

Inductive result (A : Type) : Type :=
  | Ok (a : A)
  | Raise (e : exn).
Arguments Ok {A} a.
Arguments Raise {A} e.

#[global] Instance result_ret : MRet result := fun A a => Ok a.

#[global] Instance result_bind : MBind result := fun A B k r =>
  match r with
  | Ok a => k a
  | Raise e => Raise e
  end.

#[global] Instance result_fmap : FMap result := fun A B f r =>
  match r with
  | Ok a => Ok (f a)
  | Raise e => Raise e
  end.

Definition is_ok {A} (r : result A) : bool :=
  match r with Ok _ => true | Raise _ => false end.

(** [l[k]] for a list and an in-range, non-negative index. *)
Definition list_getitem {A} (l : list A) (k : nat) : result A :=
  match l !! k with
  | Some a => Ok a
  | None => Raise IndexError
  end.

(** [d[key]] for a dictionary keyed by integers. *)
Definition dict_getitem {A} (d : gmap Z A) (key : Z) : result A :=
  match d !! key with
  | Some a => Ok a
  | None => Raise (KeyError (KInt key))
  end.

(** A [for] loop whose body may raise: the state is threaded through. *)
Fixpoint for_each {S A} (body : S -> A -> result S) (l : list A) (s : S)
  : result S :=
  match l with
  | [] => Ok s
  | a :: l' => s' ← body s a; for_each body l' s'
  end.

(** ** debris_squares_fgout_animate.py *)

Module Debris.

(** [length = 0.6] (module global, line 110). *)
Definition length : float := dec 6 1.

(** Python's [x in [a, b, ...]] on integers. *)
Definition py_in (x : Z) (l : list Z) : bool := existsb (Z.eqb x) l.

(** [tether(dbno1, dbno2)] returns [(Dtether, Ktether)]. The ids are
    Python integers, so their difference is exact; [abs], [sqrt] and
    [nan] are NumPy's through [from pylab import *], and [sqrt(2)] is
    the binary64 square root of 2.0. *)
Definition tether (dbno1 dbno2 : Z) : float * float :=
  if py_in (Z.abs (dbno1 - dbno2)) [1000; 3000] then
    (* adjacent sides of square *)
    (length, dec 50 0)
  else if Z.abs (dbno1 - dbno2) =? 2000 then
    (* diagonal of square *)
    (mul length (sqrt (of_Z 2)), dec 50 0)
  else
    (nan, zero).

(** One row [[t, x, y, u, v]] of a debris path array. *)
Record sample : Type := Sample {
  s_t : float; s_x : float; s_y : float; s_u : float; s_v : float }.

(** The module-level dictionaries and id lists (lines 95-106). *)
Record particles : Type := Particles {
  debris_paths : gmap Z (list sample);
  grounding_depth : gmap Z float;
  drag_factor : gmap Z float;
  mass : gmap Z float;
  dradius : gmap Z float;
  dbnos : list Z;
  dbnosA : list Z }.

Definition no_particles : particles :=
  Particles ∅ ∅ ∅ ∅ ∅ [] [].

Definition Kspring : float := dec 50 0.
Definition nsubsteps : nat := 20.
Definition u0 : float := dec 0 0.
Definition v0 : float := dec 0 0.

Definition xg1 : list float := [dec 3434 2].
Definition yg1 : list float := [dec 82 2].

(** Lines 114-119: the nested loops appending to [xgg] and [ygg]. *)
Definition grid_points (xg1 yg1 xgg ygg : list float)
  : list float * list float :=
  foldl (fun acc xg =>
           foldl (fun '(xs, ys) yg => (xs ++ [xg], ys ++ [yg])) acc yg1)
        (xgg, ygg) xg1.

Definition xgg : list float := fst (grid_points xg1 yg1 [dec 3554 2] [dec 122 2]).
Definition ygg : list float := snd (grid_points xg1 yg1 [dec 3554 2] [dec 122 2]).

Definition grounding_depth_common : float := dec 0 0.
Definition drag_factor_common : float := dec 1 0.
Definition mass_common : float := dec 1 0.
Definition dradius_common : float := dec 2 1.

(** The block repeated four times in the loop body: one particle
    [dbno] starting at [(x, y)] is entered in every dictionary and
    appended to [dbnos] (and to [dbnosA] for the lower left corner). *)
Definition add_particle (t0 x y : float) (dbno : Z) (corner : bool)
    (st : particles) : particles :=
  {| debris_paths := <[dbno := [Sample t0 x y u0 v0]]> (debris_paths st);
     grounding_depth := <[dbno := grounding_depth_common]> (grounding_depth st);
     drag_factor := <[dbno := drag_factor_common]> (drag_factor st);
     mass := <[dbno := mass_common]> (mass st);
     dradius := <[dbno := dradius_common]> (dradius st);
     dbnos := dbnos st ++ [dbno];
     dbnosA := if corner then dbnosA st ++ [dbno] else dbnosA st |}.

(** Body of [for k in range(len(xgg))] (lines 143-192). *)
Definition init_body (t0 : float) (xgg ygg : list float)
    (st : particles) (k : nat) : result particles :=
  x ← list_getitem xgg k;
  y ← list_getitem ygg k;
  let dbno := Z.of_nat k in
  let st := add_particle t0 x y dbno true st in
  let st := add_particle t0 x (add y length) (dbno + 1000) false st in
  let st := add_particle t0 (add x length) (add y length) (dbno + 2000) false st in
  let st := add_particle t0 (add x length) y (dbno + 3000) false st in
  Ok st.

(** Lines 194-196: [for dbno in dbnos: if mod(dbno,1000) == 0: ...]. *)
Definition mass_loop (dbnos : list Z) (mass : gmap Z float) : gmap Z float :=
  foldl (fun m dbno =>
           if dbno mod 1000 =? 0 then <[dbno := dec 1000000 0]> m else m)
        mass dbnos.

(** Lines 143-196 as a whole. *)
Definition initialize (t0 : float) (xgg ygg : list float) : result particles :=
  st ← for_each (init_body t0 xgg ygg) (seq 0 (List.length xgg)) no_particles;
  Ok {| debris_paths := debris_paths st;
        grounding_depth := grounding_depth st;
        drag_factor := drag_factor st;
        mass := mass_loop (dbnos st) (mass st);
        dradius := dradius st;
        dbnos := dbnos st;
        dbnosA := dbnosA st |}.

(** The value of the module global [dbno] once both loops have run:
    the last id the loop of line 194 visited. *)
Definition dbno_after_init (st : particles) : option Z := last (dbnos st).

(** What the script writes to standard output:
    ['Did not find path for dbno=%i at t = %.3f' % (dbno,t)]. *)
Inductive event : Type :=
  | DidNotFind (dbno : Z) (t : float).

(** [abs(dbA[i,0] - t) < 1e-6] for one row. *)
Definition near (t : float) (s : sample) : bool :=
  ltb (abs (sub (s_t s) t)) (dec 1 6).

(** [where(abs(dbA[:,0]-t) < 1e-6)[0]]: the indices of the rows whose
    time is near [t], in increasing order, counted from [i]. *)
Fixpoint where_near (i : Z) (t : float) (dbA : list sample) : list Z :=
  match dbA with
  | [] => []
  | s :: rest =>
      if near t s then i :: where_near (i + 1) t rest
      else where_near (i + 1) t rest
  end.

(** [ndarray.max()]: a [ValueError] on an empty array. *)
Definition array_max (l : list Z) : result Z :=
  match l with
  | [] => Raise ValueError
  | x :: l' => Ok (foldl Z.max x l')
  end.

(** Reading a module global that may not have been bound. *)
Definition load_global (name : string) (v : option Z) : result Z :=
  match v with
  | Some d => Ok d
  | None => Raise (NameError name)
  end.

(** Lines 222-226. The bare [except:] catches whatever the indexing
    expression raised; the handler formats the module global [dbno]
    (not the loop's [dbnoA]) into the message. *)
Definition find_row (dbno : option Z) (t : float) (dbA : list sample)
    (out : list event) : result (Z * list event) :=
  match array_max (where_near 0 t dbA) with
  | Ok j => Ok (j, out)
  | Raise _ =>
      d ← load_global "dbno" dbno;
      Ok (-1, out ++ [DidNotFind d t])
  end.

(** [db[j, ...]] for [j > -1]. *)
Definition row (db : list sample) (j : Z) : result sample :=
  list_getitem db (Z.to_nat j).

(** The loop of [make_dbABCD] (lines 213-238), with the two lists
    being built and the standard output as accumulators. *)
Fixpoint make_dbABCD_loop (dbno : option Z) (t : float)
    (debris_paths : gmap Z (list sample)) (dbnosA : list Z)
    (xdAB ydAB : list float) (out : list event)
  : result (list float * list float * list event) :=
  match dbnosA with
  | [] => Ok (xdAB, ydAB, out)
  | dbnoA :: rest =>
      let dbnoB := dbnoA + 1000 in
      let dbnoC := dbnoA + 2000 in
      let dbnoD := dbnoA + 3000 in
      dbA ← dict_getitem debris_paths dbnoA;
      dbB ← dict_getitem debris_paths dbnoB;
      dbC ← dict_getitem debris_paths dbnoC;
      dbD ← dict_getitem debris_paths dbnoD;
      '(j, out) ← find_row dbno t dbA out;
      if -1 <? j then
        A ← row dbA j;
        B ← row dbB j;
        C ← row dbC j;
        D ← row dbD j;
        make_dbABCD_loop dbno t debris_paths rest
          (xdAB ++ [s_x A; s_x B; s_x C; s_x D; s_x A; nan])
          (ydAB ++ [s_y A; s_y B; s_y C; s_y D; s_y A; nan]) out
      else
        make_dbABCD_loop dbno t debris_paths rest xdAB ydAB out
  end.

(** [make_dbABCD(t, debris_paths, dbnosA)]; [dbno] is the module
    global the handler reads. The result is [(xdAB, ydAB)] together
    with what was printed. *)
Definition make_dbABCD (dbno : option Z) (t : float)
    (debris_paths : gmap Z (list sample)) (dbnosA : list Z)
  : result (list float * list float * list event) :=
  make_dbABCD_loop dbno t debris_paths dbnosA [] [] [].

(** The two returned arrays, without the printed output. *)
Definition coords (r : result (list float * list float * list event))
  : result (list float * list float) :=
  (fun '(x, y, _) => (x, y)) <$> r.

End Debris.

(** ** The debris path integrator

    [fgout_particles.make_debris_paths_substeps] is called at line 205
    but its module is not among the sources; this section follows the
    specification of the integrator (data model and per-frame-interval
    algorithm). *)

Module Integrator.
Import Debris.

(** Modelled from the spec: the flow-field snapshot read from solver
    output (the reader [fgout_tools] is missing): a time, the grids of
    depth, velocity, surface elevation and bathymetry, and the grid
    geometry. *)
Record FlowFrame : Type := {
  frame_t : float;
  frame_h : list (list float);
  frame_u : list (list float);
  frame_v : list (list float);
  frame_eta : list (list float);
  frame_B : list (list float);
  frame_extent : float * float * float * float;
  frame_dx : float;
  frame_dy : float }.

(** Modelled from the spec: a particle with its attributes, its
    mutable position and velocity, and the path history it owns
    ([fgout_particles] is missing). *)
Record Particle : Type := {
  p_id : Z;
  p_x : float; p_y : float; p_u : float; p_v : float;
  p_mass : float; p_radius : float; p_drag : float; p_ground : float;
  p_path : list sample }.

(** Modelled from the spec: a particle is grounded when the local depth
    is below its grounding-depth threshold, or undefined (off the
    grid) ([fgout_particles] is missing). *)
Definition grounded (h : option float) (ground : float) : bool :=
  match h with
  | None => true
  | Some h => ltb h ground
  end.

(** Modelled from the spec: step 2b, the drag force is the relative
    velocity (flow - particle) scaled by the drag factor, and zero for
    a grounded particle ([fgout_particles] is missing). *)
Definition drag_force (h : option float) (ground drag uf vf pu pv : float)
  : float * float :=
  if grounded h ground then (zero, zero)
  else (mul drag (sub uf pu), mul drag (sub vf pv)).

Section Stepping.
(** Spatial (and temporal) interpolation of the two bracketing
    frames at a time and a position: depth ([None] off the grid) and
    flow velocity. The specification leaves its policy open. *)
Variable interp :
  FlowFrame -> FlowFrame -> float -> float -> float
  -> option float * float * float.
(** The tether lookup handed over by the caller. *)
Variable tether : Z -> Z -> float * float.

(** Modelled from the spec: step 2c, the force one tethered
    neighbour exerts, stiffness * (distance - rest length) along the
    connecting line; a pair with stiffness 0 has no tether
    ([fgout_particles] is missing). *)
Definition tether_force (p q : Particle) : float * float :=
  let '(rest, K) := tether (p_id p) (p_id q) in
  if (p_id p =? p_id q) || SFeqb K zero then (zero, zero)
  else
    let dx := sub (p_x q) (p_x p) in
    let dy := sub (p_y q) (p_y p) in
    let dist := sqrt (add (mul dx dx) (mul dy dy)) in
    let f := mul K (sub dist rest) in
    (mul f (div dx dist), mul f (div dy dist)).

(** Modelled from the spec: step 2c, the forces of all tethered
    neighbours summed ([fgout_particles] is missing). *)
Definition sum_forces (fs : list (float * float)) : float * float :=
  foldl (fun '(ax, ay) '(fx, fy) => (add ax fx, add ay fy)) (zero, zero) fs.

(** Modelled from the spec: steps 2a-2d for one particle, with the
    other particles as they were when the sub-step began
    ([fgout_particles] is missing). *)
Definition advance (f0 f1 : FlowFrame) (ts dt : float)
    (ps : list Particle) (p : Particle) : Particle :=
  let '(h, uf, vf) := interp f0 f1 ts (p_x p) (p_y p) in
  let '(dx, dy) := drag_force h (p_ground p) (p_drag p) uf vf (p_u p) (p_v p) in
  let '(tx, ty) := sum_forces (map (tether_force p) ps) in
  let ax := div (add dx tx) (p_mass p) in
  let ay := div (add dy ty) (p_mass p) in
  let u := add (p_u p) (mul ax dt) in
  let v := add (p_v p) (mul ay dt) in
  {| p_id := p_id p;
     p_x := add (p_x p) (mul u dt); p_y := add (p_y p) (mul v dt);
     p_u := u; p_v := v;
     p_mass := p_mass p; p_radius := p_radius p;
     p_drag := p_drag p; p_ground := p_ground p;
     p_path := p_path p |}.

(** Modelled from the spec: step 2, one sub-step for each particle
    ([fgout_particles] is missing). *)
Definition substep (f0 f1 : FlowFrame) (ts dt : float)
    (ps : list Particle) : list Particle :=
  map (advance f0 f1 ts dt ps) ps.

(** Modelled from the spec: step 3, the sample appended at the end
    of a frame interval ([fgout_particles] is missing). *)
Definition record_sample (t : float) (p : Particle) : Particle :=
  {| p_id := p_id p;
     p_x := p_x p; p_y := p_y p; p_u := p_u p; p_v := p_v p;
     p_mass := p_mass p; p_radius := p_radius p;
     p_drag := p_drag p; p_ground := p_ground p;
     p_path := p_path p ++ [Sample t (p_x p) (p_y p) (p_u p) (p_v p)] |}.

(** Modelled from the spec: steps 1-3 for the interval between two
    consecutive frames, [n] equal sub-steps ([fgout_particles] is
    missing). *)
Definition frame_interval (n : nat) (f0 f1 : FlowFrame)
    (ps : list Particle) : list Particle :=
  let dt := div (sub (frame_t f1) (frame_t f0)) (of_Z (Z.of_nat n)) in
  let ps' :=
    foldl (fun ps i =>
             substep f0 f1 (add (frame_t f0) (mul (of_Z (Z.of_nat i)) dt)) dt ps)
          ps (seq 0 n) in
  map (record_sample (frame_t f1)) ps'.

(** Modelled from the spec: the intervals between consecutive frames,
    in order ([fgout_particles] is missing). *)
Fixpoint run (n : nat) (f0 : FlowFrame) (frames : list FlowFrame)
    (ps : list Particle) : list Particle :=
  match frames with
  | [] => ps
  | f1 :: rest => run n f1 rest (frame_interval n f0 f1 ps)
  end.

(** Modelled from the spec: one particle assembled from the caller's
    parallel dictionaries, its state being the last row of its path
    ([fgout_particles] is missing). *)
Definition gather (debris_paths : gmap Z (list sample))
    (drag_factor grounding_depth mass dradius : gmap Z float) (id : Z)
  : result Particle :=
  path ← dict_getitem debris_paths id;
  s ← match last path with Some s => Ok s | None => Raise IndexError end;
  df ← dict_getitem drag_factor id;
  gd ← dict_getitem grounding_depth id;
  m ← dict_getitem mass id;
  r ← dict_getitem dradius id;
  Ok {| p_id := id;
        p_x := s_x s; p_y := s_y s; p_u := s_u s; p_v := s_v s;
        p_mass := m; p_radius := r; p_drag := df; p_ground := gd;
        p_path := path |}.

(** Modelled from the spec: the particle set, in the order of [dbnos]
    ([fgout_particles] is missing). *)
Fixpoint gather_all (g : Z -> result Particle) (ids : list Z)
  : result (list Particle) :=
  match ids with
  | [] => Ok []
  | id :: rest => p ← g id; ps ← gather_all g rest; Ok (p :: ps)
  end.

(** Modelled from the spec: the resulting mapping from particle id to
    path history ([fgout_particles] is missing). *)
Definition store_paths (debris_paths : gmap Z (list sample))
    (ps : list Particle) : gmap Z (list sample) :=
  foldl (fun m p => <[p_id p := p_path p]> m) debris_paths ps.

(** Modelled from the spec: the integrator as it is called at line
    205, returning the completed mapping from particle id to path
    history ([fgout_particles] is missing). The spring constant for
    grounding and contact forces is an input the algorithm of the
    specification does not use. *)
Definition make_debris_paths_substeps (frames : list FlowFrame)
    (debris_paths : gmap Z (list sample)) (dbnos : list Z)
    (drag_factor grounding_depth mass dradius : gmap Z float)
    (Kspring : float) (nsubsteps : nat)
  : result (gmap Z (list sample)) :=
  ps ← gather_all
         (gather debris_paths drag_factor grounding_depth mass dradius) dbnos;
  match frames with
  | [] => Ok debris_paths
  | f0 :: rest => Ok (store_paths debris_paths (run nsubsteps f0 rest ps))
  end.

End Stepping.

(** Strictly increasing times, compared as floats. *)
Fixpoint strictly_increasing (ts : list float) : bool :=
  match ts with
  | a :: (b :: _) as rest => ltb a b && strictly_increasing rest
  | _ => true
  end.

End Integrator.

(** ** problem1_take2/setplot.py: the velocity helpers *)

Module Setplot.

(** One grid cell of [current_data]: its centre and the components
    [q[0..3]] (depth, the two momenta, surface elevation). The arrays
    [x], [y], [q[m,:]] of a patch all have the same shape, so a patch is
    the list of its cells in [ravel] order. *)
Record cell : Type := Cell {
  c_x : float; c_y : float;
  q0 : float; q1 : float; q2 : float; q3 : float }.

Record current_data : Type := CurrentData {
  cells : list cell;
  dy : float;
  level : Z }.

(** [numpy.where(cond, a, b)] at one element; both [a] and [b] have
    been evaluated. *)
Definition where_ (cond : bool) (a b : float) : float :=
  if cond then a else b.

(** The cells on the line [y = 0.76]:
    [find((y <= 0.76+dy/2.) & (y > 0.76-dy/2.))]. *)
Definition on_section (dy : float) (c : cell) : bool :=
  leb (c_y c) (add (dec 76 2) (div dy (dec 2 0)))
  && gtb (c_y c) (sub (dec 76 2) (div dy (dec 2 0))).

(** [find(condition)] (lines 14-15): the indices at which the
    ravelled condition holds, counted from [i]. *)
Fixpoint find_from (i : nat) (condition : list bool) : list nat :=
  match condition with
  | [] => []
  | b :: rest => if b then i :: find_from (S i) rest else find_from (S i) rest
  end.

Definition find (condition : list bool) : list nat := find_from 0 condition.

(** [ravel(a)[ij]] for an index array [ij]. *)
Fixpoint index_array (a : list float) (ij : list nat) : result (list float) :=
  match ij with
  | [] => Ok []
  | i :: rest => x ← list_getitem a i; xs ← index_array a rest; Ok (x :: xs)
  end.

(** [xsec_s] (lines 155-172) returns [(x_slice, u_slice)]. *)
Definition xsec_s (cd : current_data) : result (list float * list float) :=
  let dry_tol := dec 1 3 in
  let u := map (fun c => where_ (gtb (q0 c) dry_tol) (div (q1 c) (q0 c)) (dec 0 0))
               (cells cd) in
  let v := map (fun c => where_ (gtb (q0 c) dry_tol) (div (q2 c) (q0 c)) (dec 0 0))
               (cells cd) in
  let ij := find (map (on_section (dy cd)) (cells cd)) in
  x_slice ← index_array (map c_x (cells cd)) ij;
  u_slice ← index_array u ij;
  Ok (x_slice, u_slice).

(** [xsec] (lines 106-116) returns [(x_slice, eta_slice)]. *)
Definition xsec (cd : current_data) : result (list float * list float) :=
  let ij := find (map (on_section (dy cd)) (cells cd)) in
  x_slice ← index_array (map c_x (cells cd)) ij;
  eta_slice ← index_array (map q3 (cells cd)) ij;
  Ok (x_slice, eta_slice).

(** [xsec_B] (lines 127-140) returns [(x_slice, B_slice)]. *)
Definition xsec_B (cd : current_data) : result (list float * list float) :=
  let h := map q0 (cells cd) in
  let eta := map q3 (cells cd) in
  let B := map (fun eh => sub (fst eh) (snd eh)) (combine eta h) in
  let ij := find (map (on_section (dy cd)) (cells cd)) in
  x_slice ← index_array (map c_x (cells cd)) ij;
  B_slice ← index_array B ij;
  Ok (x_slice, B_slice).

(** [xsec_hu] (lines 188-198) returns [(x_slice, hu_slice)]. *)
Definition xsec_hu (cd : current_data) : result (list float * list float) :=
  let hu := map q1 (cells cd) in
  let ij := find (map (on_section (dy cd)) (cells cd)) in
  x_slice ← index_array (map c_x (cells cd)) ij;
  hu_slice ← index_array hu ij;
  Ok (x_slice, hu_slice).

(** [speed] (lines 218-225). *)
Definition speed (cd : current_data) : list float :=
  let dry_tol := dec 1 3 in
  let u := map (fun c => where_ (gtb (q0 c) dry_tol) (div (q1 c) (q0 c)) (dec 0 0))
               (cells cd) in
  let v := map (fun c => where_ (gtb (q0 c) dry_tol) (div (q2 c) (q0 c)) (dec 0 0))
               (cells cd) in
  map (fun uv => sqrt (add (mul (fst uv) (fst uv)) (mul (snd uv) (snd uv))))
      (combine u v).

(** [plot_quiver] (lines 227-243): the arrays [u] and [v] it hands to
    [quiver], before coarsening; nothing below level 2. *)
Definition plot_quiver (cd : current_data) : option (list float * list float) :=
  if level cd <? 2 then None
  else
    let dry_tol := dec 1 3 in
    let u := map (fun c => where_ (gtb (q0 c) dry_tol) (div (q1 c) (q0 c)) (dec 0 0))
                 (cells cd) in
    let v := map (fun c => where_ (gtb (q0 c) dry_tol) (div (q2 c) (q0 c)) (dec 0 0))
                 (cells cd) in
    Some (u, v).

(** [u] (lines 416-422). *)
Definition u (cd : current_data) : list float :=
  let dry_tol := dec 1 3 in
  let u := map (fun c => where_ (gtb (q0 c) dry_tol) (div (q1 c) (q0 c)) (dec 0 0))
               (cells cd) in
  let v := map (fun c => where_ (gtb (q0 c) dry_tol) (div (q2 c) (q0 c)) (dec 0 0))
               (cells cd) in
  u.

(** [v] (lines 435-441). *)
Definition v (cd : current_data) : list float :=
  let dry_tol := dec 1 3 in
  let u := map (fun c => where_ (gtb (q0 c) dry_tol) (div (q1 c) (q0 c)) (dec 0 0))
               (cells cd) in
  let v := map (fun c => where_ (gtb (q0 c) dry_tol) (div (q2 c) (q0 c)) (dec 0 0))
               (cells cd) in
  v.

End Setplot.

(** ** Python objects, local variables and function calls *)

Module Py.

Definition loc : Type := nat.

Inductive value : Type :=
  | VNone
  | VBool (b : bool)
  | VInt (n : Z)
  | VFloat (x : float)
  | VStr (s : string)
  | VRef (l : loc).

(** What a reference points to: an object with its attribute
    dictionary, or a list. Both are mutable and may be aliased. *)
Inductive cell : Type :=
  | Obj (attrs : gmap string value)
  | Lst (items : list value).

(** The local variables of the running function, the heap, and the
    names of the local variables read so far. *)
Record state : Type := State {
  locals : gmap string value;
  heap : gmap loc cell;
  loads : list string }.

(** A computation that reads and updates the state and may raise; what
    it did before raising stays done. *)
Definition M (A : Type) : Type := state -> result A * state.

#[global] Instance M_ret : MRet M := fun A a s => (Ok a, s).

#[global] Instance M_bind : MBind M := fun A B k c s =>
  match c s with
  | (Ok a, s') => k a s'
  | (Raise e, s') => (Raise e, s')
  end.

Definition raise {A} (e : exn) : M A := fun s => (Raise e, s).

(** Reading a local variable: [UnboundLocalError] when the function has
    not assigned it yet. *)
Definition load_local (name : string) : M value := fun s =>
  let s' := State (locals s) (heap s) (loads s ++ [name]) in
  match locals s !! name with
  | Some v => (Ok v, s')
  | None => (Raise (UnboundLocalError name), s')
  end.

Definition store_local (name : string) (v : value) : M unit := fun s =>
  (Ok tt, State (<[name := v]> (locals s)) (heap s) (loads s)).

Definition attrs_of (v : value) (h : gmap loc cell) : option (gmap string value) :=
  match v with
  | VRef l => match h !! l with Some (Obj attrs) => Some attrs | _ => None end
  | _ => None
  end.

(** [hasattr(v, name)] for the attribute names of the run data, none of
    which a built-in value or a list has. *)
Definition hasattr (v : value) (name : string) : M bool := fun s =>
  (Ok (match attrs_of v (heap s) with
       | Some attrs => bool_decide (is_Some (attrs !! name))
       | None => false
       end), s).

(** [v.name] *)
Definition getattr (v : value) (name : string) : M value := fun s =>
  match attrs_of v (heap s) with
  | Some attrs =>
      match attrs !! name with
      | Some x => (Ok x, s)
      | None => (Raise (AttributeError name), s)
      end
  | None => (Raise (AttributeError name), s)
  end.

(** [v.name = x] *)
Definition setattr (v : value) (name : string) (x : value) : M unit := fun s =>
  match v, attrs_of v (heap s) with
  | VRef l, Some attrs =>
      (Ok tt, State (locals s) (<[l := Obj (<[name := x]> attrs)]> (heap s)) (loads s))
  | _, _ => (Raise (AttributeError name), s)
  end.

(** A list display [[x1, ..., xn]] allocates a new list. *)
Definition new_list (items : list value) : M value := fun s =>
  let l := fresh (dom (heap s)) in
  (Ok (VRef l), State (locals s) (<[l := Lst items]> (heap s)) (loads s)).

(** [v.append(x)] *)
Definition list_append (v : value) (x : value) : M unit := fun s =>
  match v with
  | VRef l =>
      match heap s !! l with
      | Some (Lst items) =>
          (Ok tt, State (locals s) (<[l := Lst (items ++ [x])]> (heap s)) (loads s))
      | _ => (Raise (AttributeError "append"), s)
      end
  | _ => (Raise (AttributeError "append"), s)
  end.

(** A function call: the body runs with the parameters as its only
    local variables; the caller's local variables are back afterwards. *)
Definition call {A} (params : gmap string value) (body : M A) : M A := fun s =>
  let '(r, s') := body (State params (heap s) (loads s)) in
  (r, State (locals s) (heap s') (loads s')).

(** [var.name = x] for a local variable [var]. *)
Definition assign_attr (var name : string) (x : value) : M unit :=
  o ← load_local var; setattr o name x.

(** [s.lower()] on ASCII. *)
Definition lower_char (c : ascii) : ascii :=
  let n := nat_of_ascii c in
  if (65 <=? n)%nat && (n <=? 90)%nat then ascii_of_nat (n + 32) else c.

Fixpoint lower (s : string) : string :=
  match s with
  | EmptyString => EmptyString
  | String c rest => String (lower_char c) (lower rest)
  end.

End Py.

(** ** The operating system as the set-up modules see it *)

Module OS.

(** What a module asks of its environment while it is imported. *)
Inductive query : Type :=
  | GetEnv (name : string)
  | IsDir (path : string).

Record os : Type := {
  environ : gmap string string;
  isdir : string -> bool }.

(** [os.environ[name]]. *)
Definition environ_getitem (w : os) (name : string) : result string :=
  match environ w !! name with
  | Some v => Ok v
  | None => Raise (KeyError (KStr name))
  end.

Fixpoint ends_with_sep (s : string) : bool :=
  match s with
  | EmptyString => false
  | String c EmptyString => Ascii.eqb c "/"%char
  | String _ rest => ends_with_sep rest
  end.

(** [os.path.join(path, *ps)] on POSIX. *)
Fixpoint path_join (path : string) (ps : list string) : string :=
  match ps with
  | [] => path
  | b :: rest =>
      if String.prefix "/" b then path_join b rest
      else if String.eqb path "" || ends_with_sep path
           then path_join (path +:+ b) rest
           else path_join (path +:+ "/" +:+ b) rest
  end.

End OS.

(** ** MonaiValley/setrun.py: module level and the guard of [setgeo] *)

Module MonaiValley.
Import OS Py.

(** The module globals once the import has succeeded. *)
Record globals : Type := {
  CLAW : string;
  scratch_dir : string }.

(** Lines 13-19, with the queries made in order. *)
Definition import_module (w : os) : result globals * list query :=
  match environ_getitem w "CLAW" with
  | Ok CLAW =>
      (Ok {| CLAW := CLAW;
             scratch_dir := path_join CLAW ["geoclaw"; "scratch"; "cascais_all"] |},
       [GetEnv "CLAW"])
  | Raise _ =>
      (Raise (Exception "*** Must first set CLAW enviornment variable"),
       [GetEnv "CLAW"])
  end.

(** Lines 382-385, the guard that opens [setgeo] in this module (and in
    problem4): [hasattr] is asked of the parameter [rundata]. *)
Definition setgeo_guard (rundata : value) : M unit :=
  call {[ "rundata" := rundata ]} (
    rundata ← load_local "rundata";
    b ← hasattr rundata "geo_data";
    if b : bool then
      rundata ← load_local "rundata";
      geo_data ← getattr rundata "geo_data";
      store_local "geo_data" geo_data
    else
      raise (AttributeError "*** Error, this rundata has no geo_data attribute")).

(** [setgeo(rundata)] (lines 375-437). *)
Definition setgeo (rundata : value) : M value :=
  call {[ "rundata" := rundata ]} (
    rundata ← load_local "rundata";
    b ← hasattr rundata "geo_data";
    (if b : bool then
       rundata ← load_local "rundata";
       geo_data ← getattr rundata "geo_data";
       store_local "geo_data" geo_data
     else
       raise (AttributeError "*** Error, this rundata has no geo_data attribute")
     : M unit);;
    (* == Physics == *)
    assign_attr "geo_data" "gravity" (VFloat (dec 981 2));;
    assign_attr "geo_data" "coordinate_system" (VInt 1);;
    assign_attr "geo_data" "earth_radius" (VFloat (dec 6367500 0));;
    (* == Forcing Options *)
    assign_attr "geo_data" "coriolis_forcing" (VBool false);;
    (* == Algorithm and Initial Conditions == *)
    assign_attr "geo_data" "sea_level" (VFloat (dec 0 0));;
    assign_attr "geo_data" "dry_tolerance" (VFloat (dec 1 4));;
    assign_attr "geo_data" "friction_forcing" (VBool false);;
    assign_attr "geo_data" "manning_coefficient" (VFloat (dec 0 0));;
    assign_attr "geo_data" "friction_depth" (VFloat (dec 20 0));;
    (* Refinement settings *)
    rundata ← load_local "rundata";
    refinement_data ← getattr rundata "refinement_data";
    store_local "refinement_data" refinement_data;;
    assign_attr "refinement_data" "variable_dt_refinement_ratios" (VBool false);;
    assign_attr "refinement_data" "wave_tolerance" (VFloat (dec 1 2));;
    assign_attr "refinement_data" "deep_depth" (VFloat (dec 100 0));;
    assign_attr "refinement_data" "max_level_deep" (VInt 3);;
    (* == settopo.data values == *)
    rundata ← load_local "rundata";
    topo_data ← getattr rundata "topo_data";
    store_local "topo_data" topo_data;;
    topo_data ← load_local "topo_data";
    topofiles ← getattr topo_data "topofiles";
    entry ← new_list [VInt 2; VInt 1; VInt 1; VFloat (dec 0 0);
                      VFloat (dec 10000000000 0); VStr "MonaiValley.tt2"];
    list_append topofiles entry;;
    (* == setqinit.data values == *)
    rundata ← load_local "rundata";
    qinit_data ← getattr rundata "qinit_data";
    setattr qinit_data "qinit_type" (VInt 0);;
    qinitfiles ← new_list [];
    rundata ← load_local "rundata";
    qinit_data ← getattr rundata "qinit_data";
    setattr qinit_data "qinitfiles" qinitfiles;;
    rundata ← load_local "rundata";
    mret rundata).

Section Setrun.
(** [clawpack.clawutil.data.ClawRunData(claw_pkg, num_dim)], an
    external constructor. *)
Variable ClawRunData : string -> Z -> M value.
(** Lines 66-368 of [setrun]: the [clawdata], [amrdata], region and
    gauge settings made on the run data [setgeo] returned. *)
Variable settings : value -> M unit.

(** [setrun(claw_pkg)] (lines 23-370). *)
Definition setrun (claw_pkg : string) : M value :=
  call {[ "claw_pkg" := VStr claw_pkg ]} (
    (if String.eqb (lower claw_pkg) "geoclaw" then mret tt
     else raise (AssertionError "Expected claw_pkg = 'geoclaw'")
     : M unit);;
    store_local "num_dim" (VInt 2);;
    rundata ← ClawRunData claw_pkg 2;
    store_local "rundata" rundata;;
    rundata ← load_local "rundata";
    rundata ← setgeo rundata;
    store_local "rundata" rundata;;
    rundata ← load_local "rundata";
    settings rundata;;
    rundata ← load_local "rundata";
    mret rundata).

End Setrun.

End MonaiValley.

(** ** problem2/from_japan1/setrun.py *)

Module Problem2.
Import OS Py.

(** The module globals once the import has succeeded. *)
Record globals : Type := {
  HOME : string;
  topodir : string;
  dtopodir : string }.

(** Lines 21-28, with the queries made in order. *)
Definition import_module (w : os) : result globals * list query :=
  match environ_getitem w "HOME" with
  | Raise e => (Raise e, [GetEnv "HOME"])
  | Ok HOME =>
      let topodir := HOME +:+ "/git/tohoku2011/topo/" in
      if negb (isdir w topodir) then
        (Raise (OSError ("*** Missing topo directory: " +:+ topodir)),
         [GetEnv "HOME"; IsDir topodir])
      else
        let dtopodir := HOME +:+ "/git/tohoku2011-paper1/sources/" in
        if negb (isdir w dtopodir) then
          (Raise (Exception ("*** Missing dtopo directory: " +:+ dtopodir)),
           [GetEnv "HOME"; IsDir topodir; IsDir dtopodir])
        else
          (Ok {| HOME := HOME; topodir := topodir; dtopodir := dtopodir |},
           [GetEnv "HOME"; IsDir topodir; IsDir dtopodir])
  end.

(** [topofiles.append([a, b, c, t1, t2, fname])] *)
Definition append_topofile (a b c : Z) (t1 t2 : float) (fname : string) : M unit :=
  topofiles ← load_local "topofiles";
  entry ← new_list [VInt a; VInt b; VInt c; VFloat t1; VFloat t2; VStr fname];
  list_append topofiles entry.

(** [setgeo(rundata)] (lines 419-481). [geo_data] is assigned in the
    body, so it is a local variable of the function from its first
    statement on. *)
Definition setgeo (g : globals) (rundata : value) : M value :=
  call {[ "rundata" := rundata ]} (
    geo_data ← load_local "geo_data";
    b ← hasattr geo_data "geo_data";
    (if b : bool then
       rundata ← load_local "rundata";
       geo_data ← getattr rundata "geo_data";
       store_local "geo_data" geo_data
     else
       raise (AttributeError "*** Error, this rundata has no geo_data attribute")
     : M unit);;
    (* == Physics == *)
    assign_attr "geo_data" "gravity" (VFloat (dec 981 2));;
    assign_attr "geo_data" "coordinate_system" (VInt 2);;
    assign_attr "geo_data" "earth_radius" (VFloat (dec 6367500 0));;
    (* == Forcing Options *)
    assign_attr "geo_data" "coriolis_forcing" (VBool false);;
    (* == Algorithm and Initial Conditions == *)
    assign_attr "geo_data" "sea_level" (VFloat (dec 0 0));;
    assign_attr "geo_data" "dry_tolerance" (VFloat (dec 1 3));;
    assign_attr "geo_data" "friction_forcing" (VBool true);;
    assign_attr "geo_data" "manning_coefficient" (VFloat (dec 35 3));;
    assign_attr "geo_data" "friction_depth" (VFloat (dec 500 0));;
    (* Refinement settings *)
    rundata ← load_local "rundata";
    refinement_data ← getattr rundata "refinement_data";
    store_local "refinement_data" refinement_data;;
    assign_attr "refinement_data" "variable_dt_refinement_ratios" (VBool true);;
    assign_attr "refinement_data" "wave_tolerance" (VFloat (dec 2 2));;
    assign_attr "refinement_data" "deep_depth" (VFloat (dec 200 0));;
    assign_attr "refinement_data" "max_level_deep" (VInt 4);;
    (* == settopo.data values == *)
    rundata ← load_local "rundata";
    topo_data ← getattr rundata "topo_data";
    topofiles ← getattr topo_data "topofiles";
    store_local "topofiles" topofiles;;
    append_topofile 3 1 1 (dec 0 0) (dec 10000000000 0)
      (topodir g +:+ "etopo1min130E210E0N60N.asc");;
    append_topofile 3 1 1 (dec 0 0) (dec 10000000000 0)
      (topodir g +:+ "hawaii_6s.txt");;
    append_topofile 3 1 1 (dec 0 0) (dec 10000000000 0)
      (topodir g +:+ "hilo_3s.asc");;
    append_topofile 3 6 6 (mul (dec 75 1) (dec 3600 0)) (dec 10000000000 0)
      (topodir g +:+ "hilo_port_1_3s.asc");;
    (* == setdtopo.data values == *)
    entry ← new_list [VInt 1; VInt 3; VInt 3; VStr (dtopodir g +:+ "UCSB3.txydz")];
    dtopofiles ← new_list [entry];
    rundata ← load_local "rundata";
    dtopo_data ← getattr rundata "dtopo_data";
    setattr dtopo_data "dtopofiles" dtopofiles;;
    (* == setqinit.data values == *)
    rundata ← load_local "rundata";
    qinit_data ← getattr rundata "qinit_data";
    setattr qinit_data "qinit_type" (VInt 0);;
    qinitfiles ← new_list [];
    rundata ← load_local "rundata";
    qinit_data ← getattr rundata "qinit_data";
    setattr qinit_data "qinitfiles" qinitfiles;;
    (* == fixedgrids.data values == *)
    fixedgrids ← new_list [];
    rundata ← load_local "rundata";
    fixed_grid_data ← getattr rundata "fixed_grid_data";
    setattr fixed_grid_data "fixedgrids" fixedgrids;;
    rundata ← load_local "rundata";
    fixed_grid_data ← getattr rundata "fixed_grid_data";
    fixedgrids ← getattr fixed_grid_data "fixedgrids";
    store_local "fixedgrids" fixedgrids;;
    (* == fgmax.data values == *)
    rundata ← load_local "rundata";
    fgmax_data ← getattr rundata "fgmax_data";
    fgmax_files ← getattr fgmax_data "fgmax_files";
    store_local "fgmax_files" fgmax_files;;
    rundata ← load_local "rundata";
    mret rundata).

Section Setrun.
(** [clawpack.clawutil.data.ClawRunData(claw_pkg, num_dim)], an
    external constructor. *)
Variable ClawRunData : string -> Z -> M value.
(** Lines 68-413 of [setrun]: the [clawdata] and [amrdata] settings made
    on the run data [setgeo] returned. *)
Variable settings : value -> M unit.

(** [setrun(claw_pkg)] (lines 32-415). *)
Definition setrun (g : globals) (claw_pkg : string) : M value :=
  call {[ "claw_pkg" := VStr claw_pkg ]} (
    (if String.eqb (lower claw_pkg) "geoclaw" then mret tt
     else raise (AssertionError "Expected claw_pkg = 'geoclaw'")
     : M unit);;
    store_local "num_dim" (VInt 2);;
    rundata ← ClawRunData claw_pkg 2;
    store_local "rundata" rundata;;
    rundata ← load_local "rundata";
    rundata ← setgeo g rundata;
    store_local "rundata" rundata;;
    rundata ← load_local "rundata";
    settings rundata;;
    rundata ← load_local "rundata";
    mret rundata).

End Setrun.

End Problem2.

(** ** Invariants of the particle dictionaries *)

Module Invariants.
Import Debris Integrator.

(** A dictionary whose keys are exactly the ids of a list. *)
Definition keyed_by {A} (ids : list Z) (m : gmap Z A) : Prop :=
  forall id, id ∈ ids <-> is_Some (m !! id).

(** A dictionary holding one common value at exactly the ids of a list. *)
Definition const_on {A} (c : A) (ids : list Z) (m : gmap Z A) : Prop :=
  forall id, (id ∈ ids -> m !! id = Some c) /\ (id ∉ ids -> m !! id = None).

(** Every path array has the single row written at initialisation. *)
Definition single_rows (t0 : float) (m : gmap Z (list sample)) : Prop :=
  forall id h, m !! id = Some h -> exists s, h = [s] /\ s_t s = t0.

Record init_inv (t0 : float) (st : particles) : Prop := InitInv {
  inv_paths : keyed_by (dbnos st) (debris_paths st);
  inv_rows : single_rows t0 (debris_paths st);
  inv_grounding : const_on grounding_depth_common (dbnos st) (grounding_depth st);
  inv_drag : const_on drag_factor_common (dbnos st) (drag_factor st);
  inv_mass : const_on mass_common (dbnos st) (mass st);
  inv_dradius : const_on dradius_common (dbnos st) (dradius st) }.

(** The id of a particle with the time stamps of its path. *)
Definition times (p : Particle) : Z * list float :=
  (p_id p, map s_t (p_path p)).

Definition stamp (ts' : list float) (it : Z * list float) : Z * list float :=
  (fst it, snd it ++ ts').

End Invariants.

(** ** Shapes of the particle groups and of the returned polygons *)

Module Shapes.
Import Debris.

(** The four ids of the square whose lower left corner is [k]. *)
Definition group_ids (k : Z) : list Z := [k; k + 1000; k + 2000; k + 3000].

(** The ids the initialisation loop creates for [n] squares, in order. *)
Definition all_ids (n : nat) : list Z :=
  flat_map (fun k => group_ids (Z.of_nat k)) (seq 0 n).

(** A closed polygon through four samples, ended by the NaN that
    separates it from the next one. *)
Definition polygon (f : sample -> float) (q : sample * sample * sample * sample)
  : list float :=
  let '(A, B, C, D) := q in [f A; f B; f C; f D; f A; nan].

(** A float that is a number (zero or finite, not NaN, not infinite). *)
Definition finite (x : float) : bool :=
  match x with
  | S754_zero _ | S754_finite _ _ _ => true
  | _ => false
  end.

(** A group that [make_dbABCD] can process: its four ids are keys, and
    when a row near [t] is found in the corner's history the three
    other histories are long enough to have that row. *)
Definition group_ok (t : float) (paths : gmap Z (list sample)) (g : Z) : Prop :=
  exists dbA dbB dbC dbD,
    paths !! g = Some dbA /\ paths !! (g + 1000) = Some dbB /\
    paths !! (g + 2000) = Some dbC /\ paths !! (g + 3000) = Some dbD /\
    forall j, array_max (where_near 0 t dbA) = Ok j ->
      (Z.to_nat j < List.length dbB)%nat /\
      (Z.to_nat j < List.length dbC)%nat /\
      (Z.to_nat j < List.length dbD)%nat.

(** The four ids of a group are keys of the dictionary. *)
Definition has_group (paths : gmap Z (list sample)) (g : Z) : Prop :=
  is_Some (paths !! g) /\ is_Some (paths !! (g + 1000)) /\
  is_Some (paths !! (g + 2000)) /\ is_Some (paths !! (g + 3000)).

(** A group whose corner history has a row within 1e-6 of [t]. *)
Definition has_near (t : float) (paths : gmap Z (list sample)) (g : Z) : bool :=
  match paths !! g with
  | Some dbA => existsb (near t) dbA
  | None => false
  end.

(** The four rows a polygon of group [g] is drawn from: the rows at one
    index [j] of the histories of [g], [g + 1000], [g + 2000] and
    [g + 3000], where [j] is the last row of the corner's history whose
    time is near [t]. *)
Definition drawn_from (t : float) (paths : gmap Z (list sample)) (g : Z)
    (q : sample * sample * sample * sample) : Prop :=
  let '(A, B, C, D) := q in
  exists (j : nat) dbA dbB dbC dbD,
    paths !! g = Some dbA /\ paths !! (g + 1000) = Some dbB /\
    paths !! (g + 2000) = Some dbC /\ paths !! (g + 3000) = Some dbD /\
    dbA !! j = Some A /\ dbB !! j = Some B /\
    dbC !! j = Some C /\ dbD !! j = Some D /\
    near t A = true /\
    forall (i : nat) s, (j < i)%nat -> dbA !! i = Some s -> near t s = false.

(** One square of side [length] at the origin, each corner with a
    single row at time 0. *)
Definition one_square : gmap Z (list sample) :=
  {[ 0 := [Sample zero zero zero zero zero];
     1000 := [Sample zero zero length zero zero];
     2000 := [Sample zero length length zero zero];
     3000 := [Sample zero length zero zero zero] ]}.

(** The polygon of a square as it is initialised: lower left, upper
    left, upper right, lower right, lower left again, NaN. *)
Definition initial_square_x (x : float) : list float :=
  [x; x; add x length; add x length; x; nan].

Definition initial_square_y (y : float) : list float :=
  [y; add y length; add y length; y; y; nan].

End Shapes.

(** ** Signs of floats *)

Module Signs.

(** A float that is not negative: NaN, or a value whose sign bit is
    clear (so not [-0.0] either). *)
Definition nonneg_or_nan (x : float) : Prop :=
  match x with
  | S754_nan => True
  | S754_zero s | S754_infinity s | S754_finite s _ _ => s = false
  end.

End Signs.

(** ** What a program observes of the heap *)

Module HeapView.
Import Py.

(** The value of attribute [n] of the object at [l], if there is one. *)
Definition get (h : gmap loc cell) (l : loc) (n : string) : option value :=
  match h !! l with
  | Some (Obj attrs) => attrs !! n
  | _ => None
  end.

(** The items of the list at [l], if there is one. *)
Definition lst (h : gmap loc cell) (l : loc) : option (list value) :=
  match h !! l with
  | Some (Lst items) => Some items
  | _ => None
  end.

Definition isobj (h : gmap loc cell) (l : loc) : bool :=
  match h !! l with
  | Some (Obj _) => true
  | _ => false
  end.

(** The computation returns from [s], and its value and final state
    satisfy [Q]. *)
Definition returns {A} (c : M A) (s : state) (Q : A -> state -> Prop) : Prop :=
  exists a s', c s = (Ok a, s') /\ Q a s'.

(** The computation raises [e] from [s], and its final state satisfies
    [Q]. *)
Definition raises {A} (c : M A) (s : state) (e : exn) (Q : state -> Prop) : Prop :=
  exists s', c s = (Raise e, s') /\ Q s'.

(** The attributes [setgeo] of MonaiValley assigns, with their
    values, on the objects [lg] (geo data), [lf] (refinement data) and
    [lq] (qinit data). *)
Definition monai_values (lg lf lq : loc) (qinitfiles : value)
  : list (loc * string * value) :=
  [(lg, "gravity", VFloat (dec 981 2));
   (lg, "coordinate_system", VInt 1);
   (lg, "earth_radius", VFloat (dec 6367500 0));
   (lg, "coriolis_forcing", VBool false);
   (lg, "sea_level", VFloat (dec 0 0));
   (lg, "dry_tolerance", VFloat (dec 1 4));
   (lg, "friction_forcing", VBool false);
   (lg, "manning_coefficient", VFloat (dec 0 0));
   (lg, "friction_depth", VFloat (dec 20 0));
   (lf, "variable_dt_refinement_ratios", VBool false);
   (lf, "wave_tolerance", VFloat (dec 1 2));
   (lf, "deep_depth", VFloat (dec 100 0));
   (lf, "max_level_deep", VInt 3);
   (lq, "qinit_type", VInt 0);
   (lq, "qinitfiles", qinitfiles)].

(** The part of them assigned on the geo data, before the refinement
    data is looked up. *)
Definition monai_geo_values : list (string * value) :=
  [("gravity", VFloat (dec 981 2));
   ("coordinate_system", VInt 1);
   ("earth_radius", VFloat (dec 6367500 0));
   ("coriolis_forcing", VBool false);
   ("sea_level", VFloat (dec 0 0));
   ("dry_tolerance", VFloat (dec 1 4));
   ("friction_forcing", VBool false);
   ("manning_coefficient", VFloat (dec 0 0));
   ("friction_depth", VFloat (dec 20 0))].

(** The entry [setgeo] of MonaiValley appends to [topofiles]. *)
Definition monai_topofile : list value :=
  [VInt 2; VInt 1; VInt 1; VFloat (dec 0 0); VFloat (dec 10000000000 0);
   VStr "MonaiValley.tt2"].

(** A state with run data laid out as the constructor makes it:
    object 0 is the run data, 1 to 4 are its geo, refinement, topo and
    qinit data, 5 is the (empty) list of topo files. *)
Definition sample_run_data : state :=
  State ∅
    {[ 0%nat := Obj {[ "geo_data" := VRef 1%nat;
                       "refinement_data" := VRef 2%nat;
                       "topo_data" := VRef 3%nat;
                       "qinit_data" := VRef 4%nat ]};
       1%nat := Obj ∅; 2%nat := Obj ∅;
       3%nat := Obj {[ "topofiles" := VRef 5%nat ]};
       4%nat := Obj ∅; 5%nat := Lst [] ]} [].

End HeapView.
(** ** Properties of [tether] *)

Section TetherFacts.
Import Debris.

Example length_bits : length = S754_finite false 5404319552844595 (-53).
Proof. vm_compute. reflexivity. Qed.

Example diagonal_bits :
  mul length (sqrt (of_Z 2)) = S754_finite false 7642862007030927 (-53).
Proof. vm_compute. reflexivity. Qed.

Example stiffness_bits : dec 50 0 = S754_finite false 7036874417766400 (-47).
Proof. vm_compute. reflexivity. Qed.

Lemma py_in_sides d : py_in d [1000; 3000] = true <-> d = 1000 \/ d = 3000.
Proof.
  unfold py_in; cbn [existsb].
  rewrite !orb_true_iff, !Z.eqb_eq. intuition discriminate.
Qed.

Lemma tether_side i j :
  Z.abs (i - j) = 1000 \/ Z.abs (i - j) = 3000 ->
  tether i j = (length, dec 50 0).
Proof.
  intros H. unfold tether. apply py_in_sides in H. rewrite H. reflexivity.
Qed.

Lemma tether_diag i j :
  Z.abs (i - j) = 2000 -> tether i j = (mul length (sqrt (of_Z 2)), dec 50 0).
Proof. intros H. unfold tether. rewrite H. reflexivity. Qed.

Lemma tether_none i j :
  Z.abs (i - j) <> 1000 -> Z.abs (i - j) <> 2000 -> Z.abs (i - j) <> 3000 ->
  tether i j = (nan, zero).
Proof.
  intros H1 H2 H3. unfold tether.
  destruct (py_in (Z.abs (i - j)) [1000; 3000]) eqn:E.
  - apply py_in_sides in E. tauto.
  - apply Z.eqb_neq in H2. rewrite H2. reflexivity.
Qed.

(** C1: [tether i j] is [(0.6, 50)] exactly when [|i - j|] is 1000 or
    3000, [(0.6 * sqrt 2, 50)] exactly when [|i - j|] is 2000, and
    [(nan, 0)] (stiffness zero) for every other pair of ids. *)
Theorem tether_lookup (i j : Z) :
  (tether i j = (length, dec 50 0)
     <-> Z.abs (i - j) = 1000 \/ Z.abs (i - j) = 3000) /\
  (tether i j = (mul length (sqrt (of_Z 2)), dec 50 0)
     <-> Z.abs (i - j) = 2000) /\
  (tether i j = (nan, zero)
     <-> Z.abs (i - j) <> 1000 /\ Z.abs (i - j) <> 2000
         /\ Z.abs (i - j) <> 3000).
Proof.
  destruct (Z.eq_dec (Z.abs (i - j)) 1000) as [E1|N1];
    [|destruct (Z.eq_dec (Z.abs (i - j)) 3000) as [E3|N3];
      [|destruct (Z.eq_dec (Z.abs (i - j)) 2000) as [E2|N2]]].
  - rewrite (tether_side i j (or_introl E1)).
    repeat split; intros; try tauto; try lia; try (exfalso; vm_compute in *; congruence).
  - rewrite (tether_side i j (or_intror E3)).
    repeat split; intros; try tauto; try lia; try (exfalso; vm_compute in *; congruence).
  - rewrite (tether_diag i j E2).
    repeat split; intros; try tauto; try lia; try (exfalso; vm_compute in *; congruence).
  - rewrite (tether_none i j N1 N2 N3).
    repeat split; intros; try tauto; try lia; try (exfalso; vm_compute in *; congruence).
Qed.

(** C2: [tether] is symmetric in its two ids, and a pair with no tether
    defined (offset other than 1000, 2000, 3000) has stiffness exactly 0. *)
Theorem tether_symmetric (i j : Z) :
  tether i j = tether j i /\
  (Z.abs (i - j) <> 1000 /\ Z.abs (i - j) <> 2000 /\ Z.abs (i - j) <> 3000 ->
   snd (tether i j) = zero /\ snd (tether j i) = zero).
Proof.
  assert (Hsym : tether i j = tether j i).
  { unfold tether. replace (j - i) with (- (i - j)) by lia.
    rewrite Z.abs_opp. reflexivity. }
  split; [exact Hsym|].
  intros (H1 & H2 & H3). rewrite <- Hsym.
  rewrite (tether_none i j H1 H2 H3). split; reflexivity.
Qed.

Lemma tether_symmetric_witness :
  tether 7 1007 = tether 1007 7 /\ snd (tether 7 12) = zero.
Proof.
  split.
  - apply (proj1 (tether_symmetric 7 1007)).
  - apply (proj2 (tether_symmetric 7 12)). vm_compute. repeat split; discriminate.
Defined.

End TetherFacts.

(** ** The particle dictionaries after initialisation *)

Section InitFacts.
Import Debris Invariants.

Example xgg_value : xgg = [dec 3554 2; dec 3434 2].
Proof. reflexivity. Qed.

Example ygg_value : ygg = [dec 122 2; dec 82 2].
Proof. reflexivity. Qed.

Example script_dbno_global t0 :
  dbno_after_init <$> initialize t0 xgg ygg = Ok (Some 3001).
Proof. reflexivity. Qed.

Example script_dbnos t0 :
  dbnos <$> initialize t0 xgg ygg
  = Ok [0; 1000; 2000; 3000; 1; 1001; 2001; 3001].
Proof. reflexivity. Qed.

Lemma keyed_by_dom {A} ids (m : gmap Z A) :
  keyed_by ids m -> dom m = list_to_set ids.
Proof.
  intros H. apply set_eq. intros id.
  rewrite elem_of_dom, elem_of_list_to_set. symmetry. apply H.
Qed.

Lemma const_on_keyed {A} (c : A) ids m : const_on c ids m -> keyed_by ids m.
Proof.
  intros H id. destruct (H id) as [Hin Hout]. split.
  - intros Hid. rewrite (Hin Hid). eauto.
  - intros [v Hv]. destruct (decide (id ∈ ids)) as [|Hn]; [done|].
    rewrite (Hout Hn) in Hv. discriminate.
Qed.

Lemma const_on_empty {A} (c : A) : const_on c [] (∅ : gmap Z A).
Proof.
  intros id. split; [intros H; inversion H | intros _; apply lookup_empty].
Qed.

Lemma const_on_insert {A} (c : A) ids m k :
  const_on c ids m -> const_on c (ids ++ [k]) (<[k := c]> m).
Proof.
  intros H id. destruct (H id) as [Hin Hout].
  rewrite elem_of_app, list_elem_of_singleton.
  destruct (decide (k = id)) as [->|Hne].
  - rewrite lookup_insert_eq. split; [done | tauto].
  - rewrite lookup_insert_ne by done. split.
    + intros [Hid | ->]; [auto | done].
    + intros Hn. apply Hout. tauto.
Qed.

Lemma keyed_by_insert {A} ids (m : gmap Z A) k v :
  keyed_by ids m -> keyed_by (ids ++ [k]) (<[k := v]> m).
Proof.
  intros H id. rewrite elem_of_app, list_elem_of_singleton, (H id).
  destruct (decide (k = id)) as [->|Hne].
  - rewrite lookup_insert_eq. split; eauto.
  - rewrite lookup_insert_ne by done. split; [intros [?| ->]; done | auto].
Qed.

Lemma init_inv_empty t0 : init_inv t0 no_particles.
Proof.
  split; cbn; try apply const_on_empty.
  - intros id. rewrite lookup_empty. split; [intros H; inversion H|].
    intros [? ?]; discriminate.
  - intros id h. rewrite lookup_empty. discriminate.
Qed.

Lemma init_inv_add t0 x y dbno corner st :
  init_inv t0 st -> init_inv t0 (add_particle t0 x y dbno corner st).
Proof.
  intros [Hp Hr Hg Hd Hm Hrad].
  split; cbn; try (apply const_on_insert; assumption).
  - apply keyed_by_insert; assumption.
  - intros id h. destruct (decide (dbno = id)) as [->|Hne].
    + rewrite lookup_insert_eq. intros [= <-]. eexists; split; reflexivity.
    + rewrite lookup_insert_ne by done. apply Hr.
Qed.

Lemma init_body_inv t0 xs ys st k st' :
  init_inv t0 st -> init_body t0 xs ys st k = Ok st' -> init_inv t0 st'.
Proof.
  intros Hinv. unfold init_body, list_getitem.
  destruct (xs !! k); cbn; [|discriminate].
  destruct (ys !! k); cbn; [|discriminate].
  intros [= <-]. repeat apply init_inv_add. exact Hinv.
Qed.

Lemma for_each_inv {S A} (P : S -> Prop) (body : S -> A -> result S) l :
  (forall s a s', P s -> body s a = Ok s' -> P s') ->
  forall s s', P s -> for_each body l s = Ok s' -> P s'.
Proof.
  intros Hbody. induction l as [|a l IH]; intros s s' Hs; cbn.
  - intros [= <-]. exact Hs.
  - destruct (body s a) as [s1|e] eqn:E; cbn; [|discriminate].
    apply IH. eapply Hbody; eassumption.
Qed.

Lemma mass_loop_lookup ids (m : gmap Z float) id :
  mass_loop ids m !! id
  = if bool_decide (id ∈ ids /\ id mod 1000 = 0)
    then Some (dec 1000000 0) else m !! id.
Proof.
  unfold mass_loop. revert m. induction ids as [|k ids IH]; intros m; cbn [foldl].
  - rewrite bool_decide_eq_false_2; [done|]. intros [H _]. inversion H.
  - rewrite IH. destruct (Z.eqb_spec (k mod 1000) 0) as [Hk|Hk].
    + destruct (decide (id ∈ ids /\ id mod 1000 = 0)) as [Hin|Hn].
      * rewrite !bool_decide_eq_true_2; [done| |done].
        split; [apply elem_of_cons; tauto | tauto].
      * rewrite (bool_decide_eq_false_2 _ Hn).
        destruct (decide (k = id)) as [->|Hne].
        -- rewrite lookup_insert_eq, bool_decide_eq_true_2; [done|].
           split; [apply elem_of_cons; auto | done].
        -- rewrite lookup_insert_ne by done.
           rewrite bool_decide_eq_false_2; [done|].
           rewrite elem_of_cons. intros [[->|?] ?]; tauto.
    + rewrite (bool_decide_ext (id ∈ ids /\ id mod 1000 = 0)
                 (id ∈ k :: ids /\ id mod 1000 = 0)); [done|].
      rewrite elem_of_cons.
      split; [tauto|]. intros [[->|?] ?]; [done | tauto].
Qed.

Lemma initialize_inv t0 xs ys st :
  initialize t0 xs ys = Ok st ->
  exists st0, init_inv t0 st0 /\
    st = {| debris_paths := debris_paths st0;
            grounding_depth := grounding_depth st0;
            drag_factor := drag_factor st0;
            mass := mass_loop (dbnos st0) (mass st0);
            dradius := dradius st0;
            dbnos := dbnos st0;
            dbnosA := dbnosA st0 |}.
Proof.
  unfold initialize.
  destruct (for_each _ _ _) as [st0|e] eqn:E; cbn; [|discriminate].
  intros [= <-]. exists st0. split; [|reflexivity].
  eapply (for_each_inv (init_inv t0)); [|apply init_inv_empty|exact E].
  intros s a s' Hs Hb. eapply init_body_inv; eassumption.
Qed.

Lemma mass_loop_keyed ids (m : gmap Z float) :
  keyed_by ids m -> keyed_by ids (mass_loop ids m).
Proof.
  intros Hk id. rewrite mass_loop_lookup.
  case_bool_decide as Hc; [|apply Hk]. split; [eauto | tauto].
Qed.

Lemma initialize_keys t0 xs ys st :
  initialize t0 xs ys = Ok st ->
  keyed_by (dbnos st) (debris_paths st) /\
  single_rows t0 (debris_paths st) /\
  keyed_by (dbnos st) (drag_factor st) /\
  keyed_by (dbnos st) (grounding_depth st) /\
  keyed_by (dbnos st) (mass st) /\
  keyed_by (dbnos st) (dradius st).
Proof.
  intros Hinit. apply initialize_inv in Hinit as (st0 & Hinv & ->).
  destruct Hinv as [Hp Hr Hg Hd Hm Hrad]. cbn.
  repeat split; try assumption; try apply Hp;
    try (eapply const_on_keyed; eassumption).
  - apply (mass_loop_keyed _ _ (const_on_keyed _ _ _ Hm)).
  - apply (mass_loop_keyed _ _ (const_on_keyed _ _ _ Hm)).
Qed.

(** The initialisation loop cannot fail when [ygg] is as long as [xgg],
    which the construction of the two lists guarantees. *)
Lemma for_each_init_ok t0 xs ys :
  (List.length xs <= List.length ys)%nat ->
  forall ks st, Forall (fun k => (k < List.length xs)%nat) ks ->
    is_ok (for_each (init_body t0 xs ys) ks st) = true.
Proof.
  intros Hlen ks. induction ks as [|k ks IH]; intros st Hks; [done|].
  inversion Hks as [|? ? Hk Hks']; subst. cbn. unfold init_body, list_getitem.
  destruct (lookup_lt_is_Some_2 xs k Hk) as [x ->].
  destruct (lookup_lt_is_Some_2 ys k ltac:(lia)) as [y ->].
  cbn. apply IH. exact Hks'.
Qed.

Lemma initialize_ok t0 xs ys :
  (List.length xs <= List.length ys)%nat -> is_ok (initialize t0 xs ys) = true.
Proof.
  intros Hlen. unfold initialize.
  pose proof (for_each_init_ok t0 xs ys Hlen (seq 0 (List.length xs)) no_particles) as H.
  destruct (for_each _ _ _); cbn in *; [done|].
  apply H. apply Forall_forall. intros k Hk. apply elem_of_seq in Hk. lia.
Qed.

(** C10: after the initialisation loops, all five dictionaries have
    exactly the ids of [dbnos] as keys; [mass] is 1e6 at the ids
    divisible by 1000 and 1.0 elsewhere; the other three hold their
    common values 0.0, 1.0 and 0.2 at every id. *)
Theorem initialization_dictionaries (t0 : float) (xs ys : list float)
    (st : particles) :
  initialize t0 xs ys = Ok st ->
  (dom (debris_paths st) = list_to_set (dbnos st) /\
   dom (grounding_depth st) = list_to_set (dbnos st) /\
   dom (drag_factor st) = list_to_set (dbnos st) /\
   dom (mass st) = list_to_set (dbnos st) /\
   dom (dradius st) = list_to_set (dbnos st)) /\
  forall id, id ∈ dbnos st ->
    mass st !! id
      = Some (if id mod 1000 =? 0 then dec 1000000 0 else dec 1 0) /\
    grounding_depth st !! id = Some (dec 0 0) /\
    drag_factor st !! id = Some (dec 1 0) /\
    dradius st !! id = Some (dec 2 1).
Proof.
  intros Hinit. apply initialize_inv in Hinit as (st0 & Hinv & ->).
  destruct Hinv as [Hp Hr Hg Hd Hm Hrad]. cbn. split.
  - repeat split; try (apply keyed_by_dom; first [assumption | eapply const_on_keyed; eassumption]).
    apply keyed_by_dom. intros id. rewrite mass_loop_lookup.
    pose proof (const_on_keyed _ _ _ Hm id) as Hk.
    case_bool_decide as Hc; [|exact Hk]. split; [eauto | tauto].
  - intros id Hid. rewrite mass_loop_lookup.
    rewrite (proj1 (Hg id) Hid), (proj1 (Hd id) Hid), (proj1 (Hrad id) Hid),
      (proj1 (Hm id) Hid).
    repeat split. destruct (Z.eqb_spec (id mod 1000) 0) as [E|E].
    + rewrite bool_decide_eq_true_2; done.
    + rewrite bool_decide_eq_false_2; [done | tauto].
Qed.

Lemma initialization_dictionaries_witness :
  exists st, initialize zero xgg ygg = Ok st /\
    dom (mass st) = list_to_set (dbnos st) /\
    mass st !! 2000 = Some (dec 1000000 0) /\
    mass st !! 1001 = Some (dec 1 0).
Proof.
  destruct (initialize zero xgg ygg) as [st|e] eqn:E.
  - exists st. split; [reflexivity|].
    pose proof (initialization_dictionaries zero xgg ygg st E) as [Hdom Hval].
    assert (Hids : dbnos st = [0; 1000; 2000; 3000; 1; 1001; 2001; 3001]).
    { pose proof (script_dbnos zero) as Hs. rewrite E in Hs. cbn in Hs.
      congruence. }
    split; [apply Hdom|].
    split; [apply (Hval 2000) | apply (Hval 1001)];
      rewrite Hids; repeat (first [apply list_elem_of_here | apply list_elem_of_further]).
  - exfalso. pose proof (initialize_ok zero xgg ygg) as H.
    rewrite E in H. cbn in H. discriminate H. reflexivity.
Defined.

End InitFacts.

(** ** A query time missing from a path history *)

Section MissingSample.
Import Debris.

Lemma where_near_none t dbA i :
  Forall (fun s => near t s = false) dbA -> where_near i t dbA = [].
Proof.
  intros H. revert i. induction H as [|s dbA Hs _ IH]; intros i; cbn.
  - reflexivity.
  - rewrite Hs. apply IH.
Qed.

Lemma find_row_none d t dbA out :
  Forall (fun s => near t s = false) dbA ->
  find_row (Some d) t dbA out = Ok (-1, out ++ [DidNotFind d t]).
Proof.
  intros H. unfold find_row. rewrite (where_near_none t dbA 0 H). reflexivity.
Qed.

Lemma loop_skip d t paths g dbA dbB dbC dbD post xs ys out :
  paths !! g = Some dbA -> paths !! (g + 1000) = Some dbB ->
  paths !! (g + 2000) = Some dbC -> paths !! (g + 3000) = Some dbD ->
  Forall (fun s => near t s = false) dbA ->
  make_dbABCD_loop (Some d) t paths (g :: post) xs ys out
  = make_dbABCD_loop (Some d) t paths post xs ys (out ++ [DidNotFind d t]).
Proof.
  intros HA HB HC HD Hnone. cbn [make_dbABCD_loop]. unfold dict_getitem.
  rewrite HA, HB, HC, HD. cbn. rewrite (find_row_none d t dbA out Hnone).
  reflexivity.
Qed.

(** The four dictionary look-ups that open the loop body, and the four
    row look-ups of a group whose sample was found: a failing one
    raises on both sides of the equations below. *)
Ltac group_paths paths g dbA dbB dbC dbD :=
  destruct (dict_getitem paths g) as [dbA|]; [|reflexivity];
  destruct (dict_getitem paths (g + 1000)) as [dbB|]; [|reflexivity];
  destruct (dict_getitem paths (g + 2000)) as [dbC|]; [|reflexivity];
  destruct (dict_getitem paths (g + 3000)) as [dbD|]; [|reflexivity].

Ltac group_rows dbA dbB dbC dbD j :=
  destruct (row dbA j); [|reflexivity];
  destruct (row dbB j); [|reflexivity];
  destruct (row dbC j); [|reflexivity];
  destruct (row dbD j); [|reflexivity].

Lemma loop_app dbno t paths pre post xs ys out :
  make_dbABCD_loop dbno t paths (pre ++ post) xs ys out
  = '(xs', ys', out') ← make_dbABCD_loop dbno t paths pre xs ys out;
    make_dbABCD_loop dbno t paths post xs' ys' out'.
Proof.
  revert xs ys out. induction pre as [|g pre IH]; intros xs ys out.
  - reflexivity.
  - cbn [app make_dbABCD_loop].
    group_paths paths g dbA dbB dbC dbD.
    cbn. destruct (find_row dbno t dbA out) as [[j out1]|]; [|reflexivity].
    cbn. destruct (-1 <? j); [|apply IH].
    destruct (row dbA j); [|reflexivity].
    destruct (row dbB j); [|reflexivity].
    destruct (row dbC j); [|reflexivity].
    destruct (row dbD j); [|reflexivity].
    cbn. apply IH.
Qed.

(** What is printed never influences the arrays that are returned. *)
Lemma loop_coords_out dbno t paths l xs ys out out' :
  coords (make_dbABCD_loop dbno t paths l xs ys out)
  = coords (make_dbABCD_loop dbno t paths l xs ys out').
Proof.
  revert xs ys out out'. induction l as [|g l IH]; intros xs ys out out'.
  - reflexivity.
  - cbn [make_dbABCD_loop].
    group_paths paths g dbA dbB dbC dbD.
    cbn. unfold find_row.
    destruct (array_max (where_near 0 t dbA)) as [j|]; cbn.
    + destruct (-1 <? j); [|apply IH].
      group_rows dbA dbB dbC dbD j.
      cbn. apply IH.
    + destruct dbno as [d|]; [|reflexivity]. cbn. apply IH.
Qed.


(** C3: when the history of a group's corner particle has no sample
    within 1e-6 of [t], the handler prints the diagnostic and yields
    the sentinel -1; nothing is raised, the group adds no coordinates,
    and the remaining groups are processed as if the group were not
    in the list. *)
Theorem make_dbABCD_sample_not_found (d : Z) (t : float)
    (paths : gmap Z (list sample)) (g : Z) (dbA dbB dbC dbD : list sample) :
  paths !! g = Some dbA -> paths !! (g + 1000) = Some dbB ->
  paths !! (g + 2000) = Some dbC -> paths !! (g + 3000) = Some dbD ->
  Forall (fun s => near t s = false) dbA ->
  (forall out, find_row (Some d) t dbA out = Ok (-1, out ++ [DidNotFind d t])) /\
  make_dbABCD (Some d) t paths [g] = Ok ([], [], [DidNotFind d t]) /\
  (forall post xs ys out,
     make_dbABCD_loop (Some d) t paths (g :: post) xs ys out
     = make_dbABCD_loop (Some d) t paths post xs ys (out ++ [DidNotFind d t])) /\
  (forall pre post,
     coords (make_dbABCD (Some d) t paths (pre ++ g :: post))
     = coords (make_dbABCD (Some d) t paths (pre ++ post))).
Proof.
  intros HA HB HC HD Hnone.
  assert (Hskip := fun post xs ys out =>
    loop_skip d t paths g dbA dbB dbC dbD post xs ys out HA HB HC HD Hnone).
  split; [intros out; apply find_row_none; exact Hnone|].
  split; [unfold make_dbABCD; rewrite Hskip; reflexivity|].
  split; [exact Hskip|].
  intros pre post. unfold make_dbABCD. rewrite !loop_app.
  destruct (make_dbABCD_loop (Some d) t paths pre [] [] []) as [[[xs ys] out]|];
    [|reflexivity].
  cbn -[make_dbABCD_loop]. rewrite Hskip. apply loop_coords_out.
Qed.

Lemma make_dbABCD_sample_not_found_witness :
  make_dbABCD (Some 3001) (dec 5 0)
    {[ 0 := [Sample zero zero zero zero zero];
       1000 := [Sample zero zero length zero zero];
       2000 := [Sample zero length length zero zero];
       3000 := [Sample zero length zero zero zero] ]} [0]
  = Ok ([], [], [DidNotFind 3001 (dec 5 0)]).
Proof.
  refine (proj1 (proj2 (make_dbABCD_sample_not_found 3001 (dec 5 0) _ 0
            [Sample zero zero zero zero zero]
            [Sample zero zero length zero zero]
            [Sample zero length length zero zero]
            [Sample zero length zero zero zero] _ _ _ _ _))).
  - vm_compute; reflexivity.
  - vm_compute; reflexivity.
  - vm_compute; reflexivity.
  - vm_compute; reflexivity.
  - repeat constructor.
Defined.

(** A sample that is present is found: at the initial time the two
    squares of the script are returned and nothing is printed. *)
Example make_dbABCD_initial :
  (fun st => make_dbABCD (dbno_after_init st) zero (debris_paths st) (dbnosA st))
    <$> initialize zero xgg ygg
  = Ok (Ok ([dec 3554 2; dec 3554 2; add (dec 3554 2) length;
             add (dec 3554 2) length; dec 3554 2; nan;
             dec 3434 2; dec 3434 2; add (dec 3434 2) length;
             add (dec 3434 2) length; dec 3434 2; nan],
            [dec 122 2; add (dec 122 2) length; add (dec 122 2) length;
             dec 122 2; dec 122 2; nan;
             dec 82 2; add (dec 82 2) length; add (dec 82 2) length;
             dec 82 2; dec 82 2; nan],
            [])).
Proof. vm_compute. reflexivity. Qed.

End MissingSample.

(** ** Time stamps of the path histories and grounded drag *)

Section IntegratorFacts.
Import Debris Integrator Invariants.

Variable interp :
  FlowFrame -> FlowFrame -> float -> float -> float
  -> option float * float * float.
Variable tether : Z -> Z -> float * float.

Lemma advance_times f0 f1 ts dt ps p :
  times (advance interp tether f0 f1 ts dt ps p) = times p.
Proof.
  unfold advance, times.
  destruct (interp f0 f1 ts (p_x p) (p_y p)) as [[h uf] vf].
  destruct (drag_force _ _ _ _ _ _ _) as [dx dy].
  destruct (sum_forces _) as [tx ty]. reflexivity.
Qed.

Lemma substep_times f0 f1 ts dt ps :
  map times (substep interp tether f0 f1 ts dt ps) = map times ps.
Proof.
  unfold substep. rewrite map_map. apply map_ext.
  intros p. apply advance_times.
Qed.

Lemma substeps_times f0 f1 (tsub : nat -> float) dt ks ps :
  map times
    (foldl (fun ps i => substep interp tether f0 f1 (tsub i) dt ps) ps ks)
  = map times ps.
Proof.
  revert ps. induction ks as [|i ks IH]; intros ps; cbn; [reflexivity|].
  rewrite IH. apply substep_times.
Qed.

Lemma frame_interval_times n f0 f1 ps :
  map times (frame_interval interp tether n f0 f1 ps)
  = map (stamp [frame_t f1]) (map times ps).
Proof.
  unfold frame_interval.
  set (dt := div (sub (frame_t f1) (frame_t f0)) (of_Z (Z.of_nat n))).
  rewrite <- (substeps_times f0 f1
    (fun i => add (frame_t f0) (mul (of_Z (Z.of_nat i)) dt)) dt (seq 0 n) ps).
  rewrite !map_map. apply map_ext. intros p.
  unfold times, stamp, record_sample; cbn. rewrite map_app. reflexivity.
Qed.

Lemma run_times n f0 frames ps :
  map times (run interp tether n f0 frames ps)
  = map (stamp (map frame_t frames)) (map times ps).
Proof.
  revert f0 ps. induction frames as [|f1 rest IH]; intros f0 ps; cbn [run].
  - rewrite map_map. rewrite <- (map_id (map times ps)) at 1.
    rewrite map_map. apply map_ext. intros p. unfold stamp, times; cbn.
    rewrite app_nil_r. reflexivity.
  - rewrite IH, frame_interval_times, !map_map. apply map_ext. intros p.
    unfold stamp; cbn. rewrite <- app_assoc. reflexivity.
Qed.

Lemma gather_all_times t0 (st : particles) ids :
  keyed_by (dbnos st) (debris_paths st) ->
  single_rows t0 (debris_paths st) ->
  keyed_by (dbnos st) (drag_factor st) ->
  keyed_by (dbnos st) (grounding_depth st) ->
  keyed_by (dbnos st) (mass st) ->
  keyed_by (dbnos st) (dradius st) ->
  Forall (fun id => id ∈ dbnos st) ids ->
  exists ps,
    gather_all (gather (debris_paths st) (drag_factor st)
                  (grounding_depth st) (mass st) (dradius st)) ids = Ok ps
    /\ map times ps = map (fun id => (id, [t0])) ids.
Proof.
  intros Hp Hr Hd Hg Hm Hrad. induction 1 as [|id ids Hid _ IH].
  - exists []. split; reflexivity.
  - destruct IH as (ps & Hps & Hts).
    destruct (proj1 (Hp id) Hid) as [path Hpath].
    destruct (Hr id path Hpath) as (s & -> & Hs).
    destruct (proj1 (Hd id) Hid) as [df Hdf].
    destruct (proj1 (Hg id) Hid) as [gd Hgd].
    destruct (proj1 (Hm id) Hid) as [m Hmm].
    destruct (proj1 (Hrad id) Hid) as [r Hr'].
    assert (Hgp : exists p,
      gather (debris_paths st) (drag_factor st) (grounding_depth st)
        (mass st) (dradius st) id = Ok p /\ times p = (id, [t0])).
    { eexists. unfold gather, dict_getitem.
      rewrite Hpath, Hdf, Hgd, Hmm, Hr'. cbn. split; [reflexivity|].
      unfold times; cbn. rewrite Hs. reflexivity. }
    destruct Hgp as (p & Hgp & Htp).
    exists (p :: ps). cbn [gather_all]. rewrite Hgp.
    unfold mbind, result_bind. rewrite Hps. split; [reflexivity|].
    cbn [map]. rewrite Hts, Htp. reflexivity.
Qed.

Lemma store_paths_snoc (m : gmap Z (list sample)) ps p :
  store_paths m (ps ++ [p]) = <[p_id p := p_path p]> (store_paths m ps).
Proof. unfold store_paths. rewrite foldl_app. reflexivity. Qed.

Lemma store_paths_lookup (m : gmap Z (list sample)) ps id :
  In id (map p_id ps) ->
  exists p, In p ps /\ p_id p = id /\ store_paths m ps !! id = Some (p_path p).
Proof.
  induction ps as [|p ps IH] using rev_ind; [intros []|].
  rewrite map_app, in_app_iff, store_paths_snoc. cbn [map In].
  destruct (decide (p_id p = id)) as [E|Hne].
  - intros _. exists p. rewrite in_app_iff, E, lookup_insert_eq. cbn. auto.
  - intros [Hin|[E|[]]]; [|done].
    destruct (IH Hin) as (q & Hq & Hid & Hl). exists q.
    rewrite in_app_iff, lookup_insert_ne by done. auto.
Qed.

Lemma map_fst_times_stamp ts' (ids : list Z) (t0 : float) :
  map fst (map (stamp ts') (map (fun id => (id, [t0])) ids)) = ids.
Proof.
  rewrite !map_map. cbn. apply map_id.
Qed.

(** C5: every path history starts as the single sample taken at the
    time of the first frame; after all frames have been processed its
    time stamps are the frame times, in order, hence strictly
    increasing whenever the frame times are. *)
Theorem path_history_times (f0 : FlowFrame) (rest : list FlowFrame)
    (xs ys : list float) (st : particles) :
  initialize (frame_t f0) xs ys = Ok st ->
  (forall id, id ∈ dbnos st ->
     exists s, debris_paths st !! id = Some [s] /\ s_t s = frame_t f0) /\
  exists paths,
    make_debris_paths_substeps interp tether (f0 :: rest)
      (debris_paths st) (dbnos st) (drag_factor st) (grounding_depth st)
      (mass st) (dradius st) Kspring nsubsteps = Ok paths /\
    forall id, id ∈ dbnos st ->
      exists h, paths !! id = Some h /\
        map s_t h = map frame_t (f0 :: rest) /\
        (strictly_increasing (map frame_t (f0 :: rest)) = true ->
         strictly_increasing (map s_t h) = true).
Proof.
  intros Hinit.
  destruct (initialize_keys _ _ _ _ Hinit) as (Hp & Hr & Hd & Hg & Hm & Hrad).
  split.
  - intros id Hid. destruct (proj1 (Hp id) Hid) as [h Hh].
    destruct (Hr id h Hh) as (s & -> & Hs). eauto.
  - destruct (gather_all_times (frame_t f0) st (dbnos st) Hp Hr Hd Hg Hm Hrad)
      as (ps & Hps & Hts).
    { apply Forall_forall. auto. }
    eexists. unfold make_debris_paths_substeps. rewrite Hps. cbn.
    split; [reflexivity|]. intros id Hid.
    pose proof (run_times nsubsteps f0 rest ps) as Hrun. rewrite Hts in Hrun.
    destruct (store_paths_lookup (debris_paths st)
                (run interp tether nsubsteps f0 rest ps) id)
      as (p & Hin & Hpid & Hlook).
    { replace (map p_id (run interp tether nsubsteps f0 rest ps))
        with (map fst (map times (run interp tether nsubsteps f0 rest ps)))
        by (rewrite map_map; reflexivity).
      rewrite Hrun, map_fst_times_stamp. apply list_elem_of_In. exact Hid. }
    exists (p_path p). split; [exact Hlook|].
    assert (Ht : map s_t (p_path p) = map frame_t (f0 :: rest)).
    { apply (in_map times) in Hin. rewrite Hrun in Hin.
      apply in_map_iff in Hin as (it & Hit & Hin).
      apply in_map_iff in Hin as (id' & <- & _).
      unfold stamp, times in Hit; cbn in Hit.
      injection Hit as _ Hpath. rewrite <- Hpath. reflexivity. }
    split; [exact Ht|]. rewrite Ht. trivial.
Qed.

(** C6: a particle whose interpolated depth is below its grounding
    depth gets a drag force of exactly zero whatever the flow velocity
    is, so the velocity update of its sub-step has the tether term only. *)
Theorem grounded_drag_is_zero (h ground drag uf vf pu pv : float) :
  ltb h ground = true ->
  drag_force (Some h) ground drag uf vf pu pv = (zero, zero) /\
  forall f0 f1 ts dt ps p,
    p_ground p = ground -> p_drag p = drag ->
    interp f0 f1 ts (p_x p) (p_y p) = (Some h, uf, vf) ->
    let T := sum_forces (map (tether_force tether p) ps) in
    let p' := advance interp tether f0 f1 ts dt ps p in
    p_u p' = add (p_u p) (mul (div (add zero (fst T)) (p_mass p)) dt) /\
    p_v p' = add (p_v p) (mul (div (add zero (snd T)) (p_mass p)) dt).
Proof.
  intros Hh.
  assert (Hd : forall a b c d,
            drag_force (Some h) ground drag a b c d = (zero, zero)).
  { intros. unfold drag_force, grounded. rewrite Hh. reflexivity. }
  split; [apply Hd|].
  intros f0 f1 ts dt ps p Hg Hdr Hi T p'. subst T p'. unfold advance.
  rewrite Hi, Hg, Hdr, Hd.
  destruct (sum_forces _) as [tx ty]. split; reflexivity.
Qed.

End IntegratorFacts.

(** ** The integrator at a concrete input *)

Section IntegratorInstances.
Import Debris Integrator.

Lemma path_history_times_witness :
  let f t := {| frame_t := t; frame_h := []; frame_u := []; frame_v := [];
                frame_eta := []; frame_B := [];
                frame_extent := (zero, zero, zero, zero);
                frame_dx := zero; frame_dy := zero |} in
  let interp := fun (_ _ : FlowFrame) (_ _ _ : float) =>
                  (Some (dec 1 0), dec 1 1, zero) in
  exists st, initialize zero xgg ygg = Ok st /\
    exists paths h,
      make_debris_paths_substeps interp tether
        [f zero; f (dec 1 0); f (dec 2 0)]
        (debris_paths st) (dbnos st) (drag_factor st)
        (grounding_depth st) (mass st) (dradius st)
        Kspring nsubsteps = Ok paths /\
      paths !! 1001 = Some h /\
      map s_t h = [zero; dec 1 0; dec 2 0] /\
      strictly_increasing (map s_t h) = true.
Proof.
  intros f interp.
  destruct (initialize zero xgg ygg) as [st|e] eqn:E.
  - exists st. split; [reflexivity|].
    destruct (path_history_times interp tether (f zero)
                [f (dec 1 0); f (dec 2 0)] xgg ygg st E)
      as (_ & paths & Hrun & Hall).
    assert (Hids : dbnos st = [0; 1000; 2000; 3000; 1; 1001; 2001; 3001]).
    { pose proof (script_dbnos zero) as Hs. rewrite E in Hs. cbn in Hs.
      congruence. }
    destruct (Hall 1001) as (h & Hh & Ht & Hinc).
    { rewrite Hids.
      repeat (first [apply list_elem_of_here | apply list_elem_of_further]). }
    exists paths, h. repeat split; try assumption.
    apply Hinc. vm_compute. reflexivity.
  - exfalso. pose proof (initialize_ok zero xgg ygg) as H.
    rewrite E in H. cbn in H. discriminate H. reflexivity.
Defined.

Lemma grounded_drag_is_zero_witness :
  drag_force (Some (dec 1 2)) (dec 4 2) (dec 1 0)
    (dec 3 0) (dec 2 0) zero zero = (zero, zero).
Proof.
  apply (proj1 (grounded_drag_is_zero
                  (fun _ _ _ _ _ => (None, zero, zero)) tether
                  (dec 1 2) (dec 4 2) (dec 1 0) (dec 3 0) (dec 2 0) zero zero
                  eq_refl)).
Defined.

End IntegratorInstances.

(** ** Velocities of dry cells in the plot helpers *)

Section SetplotFacts.
Import Setplot.

Lemma SFcompare_antisym (x y : float) :
  SFcompare y x = option_map CompOpp (SFcompare x y).
Proof.
  destruct x as [sx|sx| |sx mx ex], y as [sy|sy| |sy my ey]; cbn;
    try reflexivity;
    try (destruct sx; reflexivity); try (destruct sy; reflexivity);
    try (destruct sx, sy; reflexivity).
  f_equal. rewrite (Z.compare_antisym ex ey).
  change (Pos.compare_cont Eq my mx)
    with (Pos.compare_cont (CompOpp Eq) my mx).
  rewrite <- (Pos.compare_cont_antisym mx my Eq).
  destruct sx, sy; cbn; try reflexivity;
    destruct (ex ?= ey); cbn; try reflexivity;
    destruct (Pos.compare_cont Eq mx my); reflexivity.
Qed.

(** A depth that is at most the tolerance is not above it. *)
Lemma leb_not_gtb (h tol : float) : leb h tol = true -> gtb h tol = false.
Proof.
  unfold leb, gtb, SFleb, SFltb. rewrite (SFcompare_antisym h tol).
  destruct (SFcompare h tol) as [[| |]|]; cbn; congruence.
Qed.

Lemma index_find_from {A} (f : A -> float) (p : A -> bool) (pre l : list A) :
  index_array (map f (pre ++ l)) (find_from (List.length pre) (map p l))
  = Ok (map f (List.filter p l)).
Proof.
  revert pre. induction l as [|a l IH]; intros pre; cbn; [reflexivity|].
  assert (Hshift : index_array (map f (pre ++ a :: l))
                     (find_from (S (List.length pre)) (map p l))
                   = Ok (map f (List.filter p l))).
  { specialize (IH (pre ++ [a])). rewrite <- app_assoc in IH. cbn in IH.
    rewrite length_app in IH. cbn in IH.
    replace (List.length pre + 1)%nat with (S (List.length pre)) in IH by lia.
    exact IH. }
  destruct (p a); [|exact Hshift].
  cbn [index_array]. unfold list_getitem.
  rewrite map_app. rewrite lookup_app_r by (rewrite length_map; lia).
  rewrite length_map, Nat.sub_diag. cbn.
  rewrite map_app in Hshift. cbn in Hshift. rewrite Hshift. reflexivity.
Qed.

Lemma index_find {A} (f : A -> float) (p : A -> bool) (l : list A) :
  index_array (map f l) (find (map p l)) = Ok (map f (List.filter p l)).
Proof. apply (index_find_from f p [] l). Qed.

Lemma xsec_s_value (cd : current_data) :
  xsec_s cd
  = Ok (map c_x (List.filter (on_section (dy cd)) (cells cd)),
        map (fun c => where_ (gtb (q0 c) (dec 1 3)) (div (q1 c) (q0 c)) (dec 0 0))
            (List.filter (on_section (dy cd)) (cells cd))).
Proof.
  unfold xsec_s. rewrite !index_find. reflexivity.
Qed.

Lemma lookup_map {A B} (f : A -> B) (l : list A) (i : nat) (a : A) :
  l !! i = Some a -> map f l !! i = Some (f a).
Proof.
  revert i. induction l as [|x l IH]; intros [|i]; cbn; try discriminate.
  - intros [= ->]. reflexivity.
  - apply IH.
Qed.

Lemma lookup_combine_map {A B C} (f : A -> B) (g : A -> C) (l : list A) i a :
  l !! i = Some a -> combine (map f l) (map g l) !! i = Some (f a, g a).
Proof.
  revert i. induction l as [|x l IH]; intros [|i]; cbn; try discriminate.
  - intros [= ->]. reflexivity.
  - apply IH.
Qed.

(** C9: in every helper that computes velocities ([u], [v], [speed],
    [plot_quiver], [xsec_s]) a cell whose depth is at most the dry
    tolerance 0.001 has velocity exactly 0 (and speed 0), and a cell
    whose depth is above it has momentum divided by depth. *)
Theorem velocity_helpers_guard_depth (cd : current_data) (i : nat) (c : cell) :
  cells cd !! i = Some c ->
  (leb (q0 c) (dec 1 3) = true ->
     u cd !! i = Some zero /\ v cd !! i = Some zero /\
     speed cd !! i = Some zero /\
     (forall us vs, plot_quiver cd = Some (us, vs) ->
        us !! i = Some zero /\ vs !! i = Some zero)) /\
  (gtb (q0 c) (dec 1 3) = true ->
     u cd !! i = Some (div (q1 c) (q0 c)) /\
     v cd !! i = Some (div (q2 c) (q0 c)) /\
     speed cd !! i
       = Some (sqrt (add (mul (div (q1 c) (q0 c)) (div (q1 c) (q0 c)))
                         (mul (div (q2 c) (q0 c)) (div (q2 c) (q0 c))))) /\
     (forall us vs, plot_quiver cd = Some (us, vs) ->
        us !! i = Some (div (q1 c) (q0 c)) /\
        vs !! i = Some (div (q2 c) (q0 c)))) /\
  exists xs us,
    xsec_s cd = Ok (xs, us) /\
    forall j c',
      List.filter (on_section (dy cd)) (cells cd) !! j = Some c' ->
      xs !! j = Some (c_x c') /\
      (leb (q0 c') (dec 1 3) = true -> us !! j = Some zero) /\
      (gtb (q0 c') (dec 1 3) = true -> us !! j = Some (div (q1 c') (q0 c'))).
Proof.
  intros Hc.
  set (cu := fun c : cell =>
               where_ (gtb (q0 c) (dec 1 3)) (div (q1 c) (q0 c)) (dec 0 0)).
  set (cv := fun c : cell =>
               where_ (gtb (q0 c) (dec 1 3)) (div (q2 c) (q0 c)) (dec 0 0)).
  assert (Hu : u cd !! i = Some (cu c)) by exact (lookup_map cu _ _ _ Hc).
  assert (Hv : v cd !! i = Some (cv c)) by exact (lookup_map cv _ _ _ Hc).
  assert (Hs : speed cd !! i
               = Some (sqrt (add (mul (cu c) (cu c)) (mul (cv c) (cv c))))).
  { exact (lookup_map
      (fun uv : float * float =>
         sqrt (add (mul (fst uv) (fst uv)) (mul (snd uv) (snd uv))))
      _ _ _ (lookup_combine_map cu cv _ _ _ Hc)). }
  subst cu cv. cbn beta in Hu, Hv, Hs.
  assert (Hq : forall us vs, plot_quiver cd = Some (us, vs) ->
                 us = u cd /\ vs = v cd).
  { unfold plot_quiver. destruct (level cd <? 2); [discriminate|].
    intros us vs [= <- <-]. split; reflexivity. }
  split; [|split].
  - intros Hdry. apply leb_not_gtb in Hdry.
    rewrite Hdry in Hu, Hv, Hs. cbn [where_] in Hu, Hv, Hs.
    repeat split; try assumption.
    + apply (Hq us vs) in H as [-> _]. exact Hu.
    + apply (Hq us vs) in H as [_ ->]. exact Hv.
  - intros Hwet. rewrite Hwet in Hu, Hv, Hs. cbn [where_] in Hu, Hv, Hs.
    repeat split; try assumption.
    + apply (Hq us vs) in H as [-> _]. exact Hu.
    + apply (Hq us vs) in H as [_ ->]. exact Hv.
  - eexists _, _. split; [apply xsec_s_value|].
    intros j c' Hj. split; [apply lookup_map; exact Hj|].
    pose proof (lookup_map
      (fun c => where_ (gtb (q0 c) (dec 1 3)) (div (q1 c) (q0 c)) (dec 0 0))
      _ _ _ Hj) as Hus.
    cbn beta in Hus. split.
    + intros Hdry. apply leb_not_gtb in Hdry. rewrite Hdry in Hus. exact Hus.
    + intros Hwet. rewrite Hwet in Hus. exact Hus.
Qed.

Lemma velocity_helpers_guard_depth_witness :
  let dry := Cell (dec 1 0) (dec 76 2) (dec 5 4) (dec 3 0) (dec 4 0) zero in
  let wet := Cell (dec 2 0) (dec 76 2) (dec 2 0) (dec 3 0) (dec 4 0) zero in
  let cd := CurrentData [dry; wet] (dec 1 1) 2 in
  u cd !! 0%nat = Some zero /\ v cd !! 0%nat = Some zero /\
  u cd !! 1%nat = Some (div (dec 3 0) (dec 2 0)).
Proof.
  intros dry wet cd.
  destruct (velocity_helpers_guard_depth cd 0 dry eq_refl) as (Hdry & _ & _).
  destruct (velocity_helpers_guard_depth cd 1 wet eq_refl) as (_ & Hwet & _).
  destruct (Hdry eq_refl) as (Hu & Hv & _).
  destruct (Hwet eq_refl) as (Hu' & _).
  repeat split; assumption.
Defined.

End SetplotFacts.

(** ** Missing configuration when a set-up module is imported *)

Section ImportFacts.
Import OS.

(** C7: importing the MonaiValley set-up module without [CLAW] in the
    environment raises an exception with a descriptive message after
    the single look-up; importing the problem2 module without the topo
    (or dtopo) directory raises an error whose message ends with the
    missing directory after checking it once. No run parameters exist
    afterwards and no query is repeated. *)
Theorem missing_configuration_is_fatal (w : os) :
  (environ w !! "CLAW" = None ->
   MonaiValley.import_module w
   = (Raise (Exception "*** Must first set CLAW enviornment variable"),
      [GetEnv "CLAW"])) /\
  (forall home, environ w !! "HOME" = Some home ->
     let topodir := home +:+ "/git/tohoku2011/topo/" in
     let dtopodir := home +:+ "/git/tohoku2011-paper1/sources/" in
     (isdir w topodir = false ->
      Problem2.import_module w
      = (Raise (OSError ("*** Missing topo directory: " +:+ topodir)),
         [GetEnv "HOME"; IsDir topodir])) /\
     (isdir w topodir = true -> isdir w dtopodir = false ->
      Problem2.import_module w
      = (Raise (Exception ("*** Missing dtopo directory: " +:+ dtopodir)),
         [GetEnv "HOME"; IsDir topodir; IsDir dtopodir]))).
Proof.
  split.
  - intros H. unfold MonaiValley.import_module, environ_getitem.
    rewrite H. reflexivity.
  - intros home H topodir dtopodir.
    unfold Problem2.import_module, environ_getitem. rewrite H.
    fold topodir. fold dtopodir. split.
    + intros Ht. rewrite Ht. reflexivity.
    + intros Ht Hd. rewrite Ht, Hd. reflexivity.
Qed.

Lemma missing_configuration_is_fatal_witness :
  let w := {| environ := {[ "HOME" := "/home/user" ]};
              isdir := fun _ => false |} in
  fst (MonaiValley.import_module w)
  = Raise (Exception "*** Must first set CLAW enviornment variable") /\
  fst (Problem2.import_module w)
  = Raise (OSError "*** Missing topo directory: /home/user/git/tohoku2011/topo/").
Proof.
  intros w. destruct (missing_configuration_is_fatal w) as [Hclaw Hhome].
  split.
  - rewrite (Hclaw eq_refl). reflexivity.
  - rewrite (proj1 (Hhome "/home/user" eq_refl) eq_refl). reflexivity.
Defined.

(** With the environment in place both imports succeed. *)
Example import_module_ok :
  let w := {| environ := {[ "HOME" := "/home/user"; "CLAW" := "/opt/clawpack/" ]};
              isdir := fun _ => true |} in
  (MonaiValley.scratch_dir <$> fst (MonaiValley.import_module w))
  = Ok "/opt/clawpack/geoclaw/scratch/cascais_all" /\
  (Problem2.dtopodir <$> fst (Problem2.import_module w))
  = Ok "/home/user/git/tohoku2011-paper1/sources/".
Proof. split; vm_compute; reflexivity. Qed.

End ImportFacts.

(** ** The guard of [setgeo] in problem2 *)

Section SetgeoFacts.
Import Py Problem2.

Lemma bind_unfold {A B} (c : M A) (k : A -> M B) (s : state) :
  (c ≫= k) s
  = match c s with
    | (Ok a, s') => k a s'
    | (Raise e, s') => (Raise e, s')
    end.
Proof. reflexivity. Qed.

Lemma load_local_unbound (name : string) (s : state) :
  locals s !! name = None ->
  load_local name s
  = (Raise (UnboundLocalError name),
     State (locals s) (heap s) (loads s ++ [name])).
Proof. intros H. unfold load_local. rewrite H. reflexivity. Qed.

Lemma setgeo_raises (g : globals) (rundata : value) (s : state) :
  setgeo g rundata s
  = (Raise (UnboundLocalError "geo_data"),
     State (locals s) (heap s) (loads s ++ ["geo_data"])).
Proof.
  unfold setgeo, call. rewrite bind_unfold.
  rewrite load_local_unbound by (cbn [locals]; apply lookup_singleton_ne; discriminate).
  reflexivity.
Qed.

(** C8: [setgeo] raises at its guard for every argument and state: the
    only variable read is the unassigned local [geo_data], nothing is
    changed, the error is never the documented [AttributeError], and
    [setrun], which calls [setgeo], never returns a value. *)
Theorem setgeo_guard_reads_unbound_local (g : globals) (rundata : value)
    (s : state) :
  setgeo g rundata s
  = (Raise (UnboundLocalError "geo_data"),
     State (locals s) (heap s) (loads s ++ ["geo_data"])) /\
  (forall msg, fst (setgeo g rundata s) <> Raise (AttributeError msg)) /\
  (forall (ClawRunData : string -> Z -> M value) (settings : value -> M unit)
          (claw_pkg : string),
     is_ok (fst (setrun ClawRunData settings g claw_pkg s)) = false).
Proof.
  split; [apply setgeo_raises|]. split.
  - intros msg. rewrite setgeo_raises. discriminate.
  - intros ClawRunData settings claw_pkg. unfold setrun, call.
    rewrite bind_unfold. destruct (String.eqb (lower claw_pkg) "geoclaw");
      [|reflexivity].
    cbn [mret M_ret]. rewrite bind_unfold. cbn [store_local].
    rewrite bind_unfold.
    destruct (ClawRunData claw_pkg 2 _) as [[r|e] s1]; [|reflexivity].
    rewrite bind_unfold. cbn [store_local]. rewrite bind_unfold.
    unfold load_local at 1. cbn [locals]. rewrite lookup_insert_eq.
    rewrite bind_unfold, setgeo_raises. reflexivity.
Qed.

(** The same guard asked of [rundata], as MonaiValley and problem4
    write it, passes on run data that has a [geo_data] attribute and
    raises the documented [AttributeError] on run data that has not. *)
Example sibling_guard_passes :
  let s := State ∅ {[ 0%nat := Obj {[ "geo_data" := VRef 1%nat ]};
                      1%nat := Obj ∅ ]} [] in
  fst (MonaiValley.setgeo_guard (VRef 0%nat) s) = Ok tt /\
  fst (MonaiValley.setgeo_guard (VRef 1%nat) s)
  = Raise (AttributeError "*** Error, this rundata has no geo_data attribute").
Proof. split; vm_compute; reflexivity. Qed.

End SetgeoFacts.

(** ** Further properties of the debris script *)

Section TetherTopology.
Import Debris.

(** X1: among the ids of the squares (corner [k] below 1000 plus
    [a * 1000] for corner number [a] from 0 to 3) two particles are
    tethered exactly when they are different corners of the same
    square; the rest length is the side for neighbouring corners
    (corner numbers differing by 1 or 3) and the diagonal for opposite
    corners. *)
Theorem tether_square_topology (k k' a b : Z) :
  0 <= k < 1000 -> 0 <= k' < 1000 -> 0 <= a <= 3 -> 0 <= b <= 3 ->
  (snd (tether (k + a * 1000) (k' + b * 1000)) = dec 50 0
     <-> k = k' /\ a <> b) /\
  (snd (tether (k + a * 1000) (k' + b * 1000)) = zero
     <-> ~ (k = k' /\ a <> b)) /\
  (k = k' -> Z.abs (a - b) = 1 \/ Z.abs (a - b) = 3 ->
     fst (tether (k + a * 1000) (k' + b * 1000)) = length) /\
  (k = k' -> Z.abs (a - b) = 2 ->
     fst (tether (k + a * 1000) (k' + b * 1000)) = mul length (sqrt (of_Z 2))).
Proof.
  intros Hk Hk' Ha Hb.
  set (d := Z.abs (k + a * 1000 - (k' + b * 1000))).
  assert (Hss : dec 50 0 <> zero) by (vm_compute; discriminate).
  destruct (Z.eq_dec d 1000) as [E1|N1];
    [|destruct (Z.eq_dec d 3000) as [E3|N3];
      [|destruct (Z.eq_dec d 2000) as [E2|N2]]]; subst d.
  - rewrite (tether_side _ _ (or_introl E1)). cbn [fst snd].
    repeat split; intros; try congruence; try lia.
  - rewrite (tether_side _ _ (or_intror E3)). cbn [fst snd].
    repeat split; intros; try congruence; try lia.
  - rewrite (tether_diag _ _ E2). cbn [fst snd].
    repeat split; intros; try congruence; try lia.
  - rewrite (tether_none _ _ N1 N2 N3). cbn [fst snd].
    repeat split; intros; try congruence; try lia.
Qed.

Lemma tether_square_topology_witness :
  snd (tether 1 3001) = dec 50 0 /\ snd (tether 1 1000) = zero.
Proof.
  split.
  - apply (proj1 (tether_square_topology 1 1 0 3
                    ltac:(lia) ltac:(lia) ltac:(lia) ltac:(lia))). lia.
  - apply (proj1 (proj2 (tether_square_topology 1 0 0 1
                    ltac:(lia) ltac:(lia) ltac:(lia) ltac:(lia)))). lia.
Defined.

(** X22: the two components [tether] returns always go together: the
    rest length is NaN exactly when the stiffness is 0, so a positive
    stiffness never comes with an undefined length. No particle is
    tethered to itself, and the answer depends only on the difference
    of the two ids. *)
Theorem tether_consistent (i j k : Z) :
  (is_nan (fst (tether i j)) = true <-> snd (tether i j) = zero) /\
  (snd (tether i j) = zero \/ snd (tether i j) = dec 50 0) /\
  tether i i = (nan, zero) /\
  tether (i + k) (j + k) = tether i j.
Proof.
  split; [|split; [|split]].
  - destruct (Z.eq_dec (Z.abs (i - j)) 1000) as [E1|N1];
      [|destruct (Z.eq_dec (Z.abs (i - j)) 3000) as [E3|N3];
        [|destruct (Z.eq_dec (Z.abs (i - j)) 2000) as [E2|N2]]].
    + rewrite (tether_side i j (or_introl E1)). vm_compute.
      split; discriminate.
    + rewrite (tether_side i j (or_intror E3)). vm_compute.
      split; discriminate.
    + rewrite (tether_diag i j E2). vm_compute. split; discriminate.
    + rewrite (tether_none i j N1 N2 N3). split; reflexivity.
  - unfold tether. destruct (py_in _ _); [right; reflexivity|].
    destruct (_ =? 2000); [right | left]; reflexivity.
  - apply tether_none; lia.
  - unfold tether. replace (i + k - (j + k)) with (i - j) by lia. reflexivity.
Qed.

End TetherTopology.

(** ** The ids and the initial squares *)

Section InitShape.
Import Debris Invariants Shapes.

Lemma init_body_ids t0 xs ys st k st' :
  init_body t0 xs ys st k = Ok st' ->
  dbnos st' = dbnos st ++ group_ids (Z.of_nat k) /\
  dbnosA st' = dbnosA st ++ [Z.of_nat k].
Proof.
  unfold init_body, list_getitem.
  destruct (xs !! k); cbn; [|discriminate].
  destruct (ys !! k); cbn; [|discriminate].
  intros [= <-]. cbn. rewrite <- !app_assoc. split; reflexivity.
Qed.

Lemma for_each_init_ids t0 xs ys ks st st' :
  for_each (init_body t0 xs ys) ks st = Ok st' ->
  dbnos st' = dbnos st ++ flat_map (fun k => group_ids (Z.of_nat k)) ks /\
  dbnosA st' = dbnosA st ++ map Z.of_nat ks.
Proof.
  revert st. induction ks as [|k ks IH]; intros st; cbn [for_each].
  - intros [= <-]. cbn. rewrite !app_nil_r. split; reflexivity.
  - destruct (init_body t0 xs ys st k) as [st1|e] eqn:E; cbn; [|discriminate].
    intros H. apply IH in H as [Hd HA].
    apply init_body_ids in E as [Hd1 HA1].
    rewrite Hd, HA, Hd1, HA1. cbn [flat_map map].
    rewrite <- !app_assoc. split; reflexivity.
Qed.

Lemma all_ids_S n : all_ids (S n) = all_ids n ++ group_ids (Z.of_nat n).
Proof.
  unfold all_ids. rewrite seq_S, flat_map_app. reflexivity.
Qed.

Lemma elem_of_all_ids n id :
  id ∈ all_ids n <->
  exists k a, (k < n)%nat /\ 0 <= a <= 3 /\ id = Z.of_nat k + a * 1000.
Proof.
  induction n as [|n IH].
  - split; [intros H; inversion H | intros (k & a & Hk & _); lia].
  - rewrite all_ids_S, elem_of_app, IH. unfold group_ids.
    rewrite !elem_of_cons, elem_of_nil. split.
    + intros [(k & a & Hk & Ha & ->)|H].
      * exists k, a. repeat split; lia.
      * exists n. destruct H as [->|[->|[->|[->|[]]]]];
          [exists 0|exists 1|exists 2|exists 3]; repeat split; lia.
    + intros (k & a & Hk & Ha & ->).
      destruct (decide (k = n)) as [->|Hne].
      * right. assert (a = 0 \/ a = 1 \/ a = 2 \/ a = 3) as [->|[->|[->| ->]]]
          by lia; auto 6 with lia.
      * left. exists k, a. repeat split; lia.
Qed.

Lemma all_ids_NoDup n : (n <= 1000)%nat -> NoDup (all_ids n).
Proof.
  induction n as [|n IH]; intros Hn; [constructor|].
  rewrite all_ids_S. apply NoDup_app. split; [apply IH; lia|]. split.
  - intros id Hid Hg. apply elem_of_all_ids in Hid as (k & a & Hk & Ha & ->).
    unfold group_ids in Hg. rewrite !elem_of_cons, elem_of_nil in Hg. lia.
  - unfold group_ids. repeat (apply NoDup_cons; split);
      rewrite ?elem_of_cons, ?elem_of_nil; try lia. constructor.
Qed.

(** X2: the initialisation loop numbers the particles square by
    square: [dbnos] is [k, k+1000, k+2000, k+3000] for [k = 0, 1, ...]
    in order, [dbnosA] is the list of corners [0, 1, ...], there are
    four particles per entry of [xgg], and no id occurs twice as long
    as there are at most 1000 squares. *)
Theorem initialize_ids (t0 : float) (xs ys : list float) (st : particles) :
  initialize t0 xs ys = Ok st ->
  dbnos st = all_ids (List.length xs) /\
  dbnosA st = map Z.of_nat (seq 0 (List.length xs)) /\
  List.length (dbnos st) = (4 * List.length xs)%nat /\
  ((List.length xs <= 1000)%nat -> NoDup (dbnos st)).
Proof.
  unfold initialize.
  destruct (for_each _ _ _) as [st0|e] eqn:E; cbn; [|discriminate].
  intros [= <-]. cbn. apply for_each_init_ids in E as [Hd HA].
  cbn in Hd, HA. fold (all_ids (List.length xs)) in Hd.
  rewrite Hd, HA. repeat split.
  - clear. induction (List.length xs) as [|n IH]; [reflexivity|].
    rewrite all_ids_S, length_app, IH. cbn. lia.
  - apply all_ids_NoDup.
Qed.

Lemma initialize_ids_witness :
  exists st, initialize zero xgg ygg = Ok st /\
    dbnosA st = [0; 1] /\ List.length (dbnos st) = 8%nat /\ NoDup (dbnos st).
Proof.
  destruct (initialize zero xgg ygg) as [st|e] eqn:E.
  - exists st. split; [reflexivity|].
    destruct (initialize_ids zero xgg ygg st E) as (_ & HA & Hlen & Hnd).
    split; [exact HA|]. split; [exact Hlen|]. apply Hnd. cbn. lia.
  - exfalso. pose proof (initialize_ok zero xgg ygg) as H.
    rewrite E in H. cbn in H. discriminate H. reflexivity.
Defined.

Lemma init_body_paths t0 xs ys st k st' :
  init_body t0 xs ys st k = Ok st' ->
  exists x y, xs !! k = Some x /\ ys !! k = Some y /\
    debris_paths st'
    = <[Z.of_nat k + 3000 := [Sample t0 (add x length) y u0 v0]]>
      (<[Z.of_nat k + 2000 := [Sample t0 (add x length) (add y length) u0 v0]]>
       (<[Z.of_nat k + 1000 := [Sample t0 x (add y length) u0 v0]]>
        (<[Z.of_nat k := [Sample t0 x y u0 v0]]> (debris_paths st)))).
Proof.
  unfold init_body, list_getitem.
  destruct (xs !! k) as [x|]; cbn; [|discriminate].
  destruct (ys !! k) as [y|]; cbn; [|discriminate].
  intros [= <-]. exists x, y. repeat split; reflexivity.
Qed.

Lemma for_each_init_paths_other t0 xs ys ks st st' id :
  for_each (init_body t0 xs ys) ks st = Ok st' ->
  (forall k, k ∈ ks -> id ∉ group_ids (Z.of_nat k)) ->
  debris_paths st' !! id = debris_paths st !! id.
Proof.
  revert st. induction ks as [|k ks IH]; intros st; cbn [for_each].
  - intros [= <-] _. reflexivity.
  - destruct (init_body t0 xs ys st k) as [st1|e] eqn:E; cbn; [|discriminate].
    intros H Hid. rewrite (IH st1 H) by (intros; apply Hid; right; done).
    apply init_body_paths in E as (x & y & _ & _ & ->).
    specialize (Hid k ltac:(left)). unfold group_ids in Hid.
    rewrite !elem_of_cons, elem_of_nil in Hid.
    rewrite !lookup_insert_ne by lia. reflexivity.
Qed.

Lemma for_each_init_squares t0 xs ys ks st st' k x y :
  for_each (init_body t0 xs ys) ks st = Ok st' ->
  NoDup ks -> Forall (fun j => (j < 1000)%nat) ks -> k ∈ ks ->
  xs !! k = Some x -> ys !! k = Some y ->
  debris_paths st' !! Z.of_nat k = Some [Sample t0 x y u0 v0] /\
  debris_paths st' !! (Z.of_nat k + 1000)
    = Some [Sample t0 x (add y length) u0 v0] /\
  debris_paths st' !! (Z.of_nat k + 2000)
    = Some [Sample t0 (add x length) (add y length) u0 v0] /\
  debris_paths st' !! (Z.of_nat k + 3000)
    = Some [Sample t0 (add x length) y u0 v0].
Proof.
  revert st. induction ks as [|j ks IH]; intros st Hrun Hnd Hlt Hk Hx Hy;
    [inversion Hk|].
  cbn [for_each] in Hrun.
  destruct (init_body t0 xs ys st j) as [st1|e] eqn:E; cbn in Hrun;
    [|discriminate].
  apply NoDup_cons in Hnd as [Hj Hnd].
  apply Forall_cons in Hlt as [Hj1000 Hlt].
  apply elem_of_cons in Hk as [->|Hk]; [|eapply IH; eassumption].
  assert (Hfar : forall a, 0 <= a <= 3 -> forall i, i ∈ ks ->
            Z.of_nat j + a * 1000 ∉ group_ids (Z.of_nat i)).
  { intros a Ha i Hi. pose proof (proj1 (Forall_forall _ _) Hlt i Hi) as Hi'.
    cbn in Hi'. assert (i <> j) by (intros ->; contradiction).
    unfold group_ids. rewrite !elem_of_cons, elem_of_nil. lia. }
  rewrite (for_each_init_paths_other _ _ _ _ _ _ (Z.of_nat j) Hrun)
    by (intros i Hi; apply (Hfar 0 ltac:(lia) i) in Hi;
        replace (Z.of_nat j + 0 * 1000) with (Z.of_nat j) in Hi by lia; done).
  rewrite (for_each_init_paths_other _ _ _ _ _ _ (Z.of_nat j + 1000) Hrun)
    by (intros i Hi; apply (Hfar 1 ltac:(lia) i) in Hi; done).
  rewrite (for_each_init_paths_other _ _ _ _ _ _ (Z.of_nat j + 2000) Hrun)
    by (intros i Hi; apply (Hfar 2 ltac:(lia) i) in Hi; done).
  rewrite (for_each_init_paths_other _ _ _ _ _ _ (Z.of_nat j + 3000) Hrun)
    by (intros i Hi; apply (Hfar 3 ltac:(lia) i) in Hi; done).
  apply init_body_paths in E as (x' & y' & Hx' & Hy' & ->).
  assert (x' = x) as -> by congruence. assert (y' = y) as -> by congruence.
  repeat split.
  - rewrite !lookup_insert_ne by lia. apply lookup_insert_eq.
  - rewrite !lookup_insert_ne by lia. apply lookup_insert_eq.
  - rewrite !lookup_insert_ne by lia. apply lookup_insert_eq.
  - apply lookup_insert_eq.
Qed.

(** X3: with at most 1000 squares no id is reused, and the four path
    histories of square [k] start at the corners of the square of side
    [length] whose lower left corner is [(xgg[k], ygg[k])]: lower left,
    upper left, upper right, lower right, all at rest at time [t0]. *)
Theorem initial_squares (t0 : float) (xs ys : list float) (st : particles)
    (k : nat) (x y : float) :
  initialize t0 xs ys = Ok st -> (List.length xs <= 1000)%nat ->
  xs !! k = Some x -> ys !! k = Some y ->
  debris_paths st !! Z.of_nat k = Some [Sample t0 x y (dec 0 0) (dec 0 0)] /\
  debris_paths st !! (Z.of_nat k + 1000)
    = Some [Sample t0 x (add y length) (dec 0 0) (dec 0 0)] /\
  debris_paths st !! (Z.of_nat k + 2000)
    = Some [Sample t0 (add x length) (add y length) (dec 0 0) (dec 0 0)] /\
  debris_paths st !! (Z.of_nat k + 3000)
    = Some [Sample t0 (add x length) y (dec 0 0) (dec 0 0)].
Proof.
  unfold initialize.
  destruct (for_each _ _ _) as [st0|e] eqn:E; cbn; [|discriminate].
  intros [= <-] Hn Hx Hy. cbn [debris_paths].
  pose proof (lookup_lt_Some _ _ _ Hx) as Hk.
  apply (for_each_init_squares _ _ _ _ _ _ k x y E); try assumption.
  - apply NoDup_seq.
  - apply Forall_forall. intros j Hj. apply elem_of_seq in Hj. lia.
  - apply elem_of_seq. lia.
Qed.

Lemma initial_squares_witness :
  exists st, initialize zero xgg ygg = Ok st /\
    debris_paths st !! 2001
    = Some [Sample zero (add (dec 3434 2) length) (add (dec 82 2) length)
              (dec 0 0) (dec 0 0)].
Proof.
  destruct (initialize zero xgg ygg) as [st|e] eqn:E.
  - exists st. split; [reflexivity|].
    apply (initial_squares zero xgg ygg st 1 (dec 3434 2) (dec 82 2) E).
    + cbn. lia.
    + reflexivity.
    + reflexivity.
  - exfalso. pose proof (initialize_ok zero xgg ygg) as H.
    rewrite E in H. cbn in H. discriminate H. reflexivity.
Defined.

Lemma for_each_init_index_error t0 xs ys ks st :
  Forall (fun k => (k < List.length xs)%nat) ks ->
  (exists k, k ∈ ks /\ ys !! k = None) ->
  for_each (init_body t0 xs ys) ks st = Raise IndexError.
Proof.
  revert st. induction ks as [|k ks IH]; intros st Hks (b & Hb & Hnone).
  - inversion Hb.
  - apply Forall_cons in Hks as [Hk Hks]. cbn [for_each].
    destruct (lookup_lt_is_Some_2 xs k Hk) as [x Hx].
    destruct (init_body t0 xs ys st k) as [st1|e] eqn:E;
      unfold init_body, list_getitem in E; rewrite Hx in E; cbn in E.
    + cbn. apply IH; [exact Hks|]. exists b. split; [|exact Hnone].
      apply elem_of_cons in Hb as [->|Hb]; [|exact Hb].
      rewrite Hnone in E. discriminate.
    + destruct (ys !! k); cbn in E; [discriminate|]. injection E as <-.
      reflexivity.
Qed.

Lemma grid_points_inner_length (xg : float) (yg1 xs ys : list float) :
  let r := foldl (fun '(xs, ys) yg => (xs ++ [xg], ys ++ [yg])) (xs, ys) yg1 in
  List.length (fst r) = (List.length xs + List.length yg1)%nat /\
  List.length (snd r) = (List.length ys + List.length yg1)%nat.
Proof.
  revert xs ys. induction yg1 as [|yg yg1 IH]; intros xs ys; cbn.
  - split; lia.
  - destruct (IH (xs ++ [xg]) (ys ++ [yg])) as [H1 H2]. cbn in H1, H2.
    rewrite H1, H2, !length_app. cbn. split; lia.
Qed.

Lemma grid_points_length (xg1 yg1 xs ys : list float) :
  List.length (fst (grid_points xg1 yg1 xs ys))
    = (List.length xs + List.length xg1 * List.length yg1)%nat /\
  List.length (snd (grid_points xg1 yg1 xs ys))
    = (List.length ys + List.length xg1 * List.length yg1)%nat.
Proof.
  unfold grid_points. revert xs ys.
  induction xg1 as [|xg xg1 IH]; intros xs ys; cbn [foldl].
  - cbn. split; lia.
  - destruct (grid_points_inner_length xg yg1 xs ys) as [H1 H2]. cbn in H1, H2.
    destruct (foldl _ (xs, ys) yg1) as [xs' ys'] eqn:E. cbn [fst snd] in H1, H2.
    destruct (IH xs' ys') as [H3 H4]. rewrite H3, H4, H1, H2. cbn. split; lia.
Qed.

(** X4: the initialisation loop indexes [ygg] with the indices of
    [xgg]: it completes exactly when [ygg] is at least as long as
    [xgg] and raises [IndexError] otherwise. The nested loops that
    build the two lists append one entry to each per pair of [xg1] and
    [yg1], so lists built from equally long ones never make it fail. *)
Theorem initialize_index_error (t0 : float) (xs ys : list float) :
  (is_ok (initialize t0 xs ys) = true
     <-> (List.length xs <= List.length ys)%nat) /\
  ((List.length ys < List.length xs)%nat ->
     initialize t0 xs ys = Raise IndexError) /\
  (forall xg1 yg1 : list float, List.length xs = List.length ys ->
     List.length (fst (grid_points xg1 yg1 xs ys))
       = (List.length xs + List.length xg1 * List.length yg1)%nat /\
     List.length (snd (grid_points xg1 yg1 xs ys))
       = List.length (fst (grid_points xg1 yg1 xs ys)) /\
     is_ok (initialize t0 (fst (grid_points xg1 yg1 xs ys))
                          (snd (grid_points xg1 yg1 xs ys))) = true).
Proof.
  assert (Hfail : (List.length ys < List.length xs)%nat ->
                  initialize t0 xs ys = Raise IndexError).
  { intros Hlt. unfold initialize.
    rewrite for_each_init_index_error; [reflexivity| |].
    - apply Forall_forall. intros k Hk. apply elem_of_seq in Hk. lia.
    - exists (List.length ys). split; [apply elem_of_seq; lia|].
      apply lookup_ge_None. lia. }
  split; [|split].
  - split; [|apply initialize_ok].
    intros Hok. destruct (le_lt_dec (List.length xs) (List.length ys)) as [|Hlt];
      [assumption|]. rewrite (Hfail Hlt) in Hok. discriminate.
  - exact Hfail.
  - intros xg1 yg1 Hlen.
    destruct (grid_points_length xg1 yg1 xs ys) as [H1 H2].
    split; [exact H1|]. split; [lia|]. apply initialize_ok. lia.
Qed.

Lemma initialize_index_error_witness :
  initialize zero [zero; zero] [zero] = Raise IndexError /\
  is_ok (initialize zero [zero] [zero; zero]) = true.
Proof.
  destruct (initialize_index_error zero [zero; zero] [zero]) as (_ & Hfail & _).
  destruct (initialize_index_error zero [zero] [zero; zero]) as (Hok & _).
  split; [apply Hfail; cbn; lia | apply Hok; cbn; lia].
Defined.

(** X23: with at most 1000 squares the heavy particles (mass 1e6) are
    exactly the four corners 0, 1000, 2000, 3000 of the first square;
    every particle of every other square has mass 1.0. *)
Theorem heavy_first_square (t0 : float) (xs ys : list float) (st : particles)
    (id : Z) :
  initialize t0 xs ys = Ok st -> (List.length xs <= 1000)%nat ->
  id ∈ dbnos st ->
  (mass st !! id = Some (dec 1000000 0) <-> id ∈ group_ids 0) /\
  (mass st !! id = Some (dec 1 0) <-> id ∉ group_ids 0).
Proof.
  intros Hinit Hn Hid.
  assert (Hids : dbnos st = all_ids (List.length xs)).
  { revert Hinit. unfold initialize.
    destruct (for_each _ _ _) as [st0|e] eqn:E; cbn; [|discriminate].
    intros [= <-]. cbn. apply for_each_init_ids in E as [Hd _]. exact Hd. }
  apply initialize_inv in Hinit as (st0 & Hinv & ->).
  destruct Hinv as [_ _ _ _ Hm _]. cbn [mass dbnos] in *.
  rewrite mass_loop_lookup, (proj1 (Hm id) Hid).
  rewrite Hids in Hid. apply elem_of_all_ids in Hid as (k & a & Hk & Ha & ->).
  assert (Hmod : (Z.of_nat k + a * 1000) mod 1000 = Z.of_nat k).
  { rewrite Z.mod_add by lia. apply Z.mod_small. lia. }
  assert (Hg : Z.of_nat k + a * 1000 ∈ group_ids 0 <-> k = 0%nat).
  { unfold group_ids. rewrite !elem_of_cons, elem_of_nil. lia. }
  assert (Hdiff : Some (dec 1 0) <> Some (dec 1000000 0))
    by (vm_compute; discriminate).
  change mass_common with (dec 1 0).
  rewrite Hg. destruct (decide (k = 0%nat)) as [->|Hk0].
  - rewrite bool_decide_eq_true_2
      by (split; [rewrite Hids; apply elem_of_all_ids; exists 0%nat, a;
                  repeat split; lia | rewrite Hmod; reflexivity]).
    split; split; try tauto; try reflexivity.
    intros H. exfalso. apply Hdiff. symmetry. exact H.
  - rewrite bool_decide_eq_false_2 by (rewrite Hmod; lia).
    split; split; try tauto; try reflexivity.
Qed.

Lemma heavy_first_square_witness :
  exists st, initialize zero xgg ygg = Ok st /\
    mass st !! 3000 = Some (dec 1000000 0) /\ mass st !! 3001 = Some (dec 1 0).
Proof.
  destruct (initialize zero xgg ygg) as [st|e] eqn:E.
  - exists st. split; [reflexivity|].
    assert (Hids : dbnos st = [0; 1000; 2000; 3000; 1; 1001; 2001; 3001]).
    { pose proof (script_dbnos zero) as Hs. rewrite E in Hs. cbn in Hs.
      congruence. }
    assert (Hn : (List.length xgg <= 1000)%nat) by (cbn; lia).
    split.
    + apply (heavy_first_square zero xgg ygg st 3000 E Hn).
      * rewrite Hids.
        repeat (first [apply list_elem_of_here | apply list_elem_of_further]).
      * unfold group_ids.
        repeat (first [apply list_elem_of_here | apply list_elem_of_further]).
    + apply (heavy_first_square zero xgg ygg st 3001 E Hn).
      * rewrite Hids.
        repeat (first [apply list_elem_of_here | apply list_elem_of_further]).
      * unfold group_ids. rewrite !elem_of_cons, elem_of_nil. lia.
  - exfalso. pose proof (initialize_ok zero xgg ygg) as H.
    rewrite E in H. cbn in H. discriminate H. reflexivity.
Defined.

End InitShape.

(** ** Which row [make_dbABCD] uses, and when it raises *)

Section FindRow.
Import Debris Shapes.

Lemma elem_of_where_near i t dbA z :
  z ∈ where_near i t dbA <->
  exists (n : nat) s, dbA !! n = Some s /\ near t s = true /\ z = i + Z.of_nat n.
Proof.
  revert i. induction dbA as [|s0 dbA IH]; intros i; cbn [where_near].
  - split; [intros H; inversion H | intros (n & s & H & _); discriminate].
  - assert (Htail : z ∈ where_near (i + 1) t dbA <->
              exists (n : nat) s, (s0 :: dbA) !! S n = Some s /\
                near t s = true /\ z = i + Z.of_nat (S n)).
    { rewrite IH. split; intros (n & s & H1 & H2 & ->); exists n, s;
        repeat split; try assumption; lia. }
    destruct (near t s0) eqn:E0.
    + rewrite elem_of_cons, Htail. split.
      * intros [->|(n & s & H)]; [exists 0%nat, s0 | exists (S n), s];
          [repeat split; [assumption | lia] | exact H].
      * intros ([|n] & s & H1 & H2 & ->); [left; lia|].
        right. exists n, s. auto.
    + rewrite Htail. split.
      * intros (n & s & H). exists (S n), s. exact H.
      * intros ([|n] & s & H1 & H2 & ->); [|exists n, s; auto].
        cbn in H1. congruence.
Qed.

Lemma foldl_max_spec (l : list Z) (x : Z) :
  foldl Z.max x l ∈ x :: l /\ forall z, z ∈ x :: l -> z <= foldl Z.max x l.
Proof.
  revert x. induction l as [|y l IH]; intros x; cbn [foldl].
  - split; [left|]. intros z Hz. apply list_elem_of_singleton in Hz. lia.
  - destruct (IH (Z.max x y)) as [Hin Hmax]. split.
    + apply elem_of_cons in Hin as [Hin|Hin];
        [|right; right; exact Hin].
      destruct (Z.max_spec x y) as [[_ E]|[_ E]]; rewrite Hin, E.
      * right; left.
      * left.
    + intros z Hz.
      assert (Hxy : x <= foldl Z.max (Z.max x y) l /\ y <= foldl Z.max (Z.max x y) l).
      { pose proof (Hmax (Z.max x y) ltac:(left)). lia. }
      apply elem_of_cons in Hz as [->|Hz]; [tauto|].
      apply elem_of_cons in Hz as [->|Hz]; [tauto|].
      apply Hmax. right. exact Hz.
Qed.

Lemma array_max_spec (l : list Z) :
  match array_max l with
  | Ok m => m ∈ l /\ forall z, z ∈ l -> z <= m
  | Raise e => l = [] /\ e = ValueError
  end.
Proof.
  destruct l as [|x l]; cbn; [split; reflexivity|]. apply foldl_max_spec.
Qed.

(** The row the indexing expression yields: the last one near [t]. *)
Lemma array_max_where_near t dbA j :
  array_max (where_near 0 t dbA) = Ok j ->
  0 <= j /\
  exists s, dbA !! Z.to_nat j = Some s /\ near t s = true /\
    forall (i : nat) s', (Z.to_nat j < i)%nat -> dbA !! i = Some s' ->
      near t s' = false.
Proof.
  intros Hj. pose proof (array_max_spec (where_near 0 t dbA)) as H.
  rewrite Hj in H. destruct H as [Hin Hmax].
  apply elem_of_where_near in Hin as (n & s & Hn & Hs & ->).
  split; [lia|]. exists s. replace (Z.to_nat (0 + Z.of_nat n)) with n by lia.
  repeat split; try assumption.
  intros i s' Hi Hs'. destruct (near t s') eqn:E; [|reflexivity].
  specialize (Hmax (0 + Z.of_nat i)).
  rewrite elem_of_where_near in Hmax.
  specialize (Hmax ltac:(exists i, s'; auto)). lia.
Qed.

Lemma array_max_where_near_none t dbA e :
  array_max (where_near 0 t dbA) = Raise e ->
  Forall (fun s => near t s = false) dbA.
Proof.
  intros He. pose proof (array_max_spec (where_near 0 t dbA)) as H.
  rewrite He in H. destruct H as [Hnil _].
  apply Forall_forall. intros s Hs. destruct (near t s) eqn:E; [|reflexivity].
  apply list_elem_of_lookup in Hs as [n Hn].
  assert (Hin : 0 + Z.of_nat n ∈ where_near 0 t dbA)
    by (apply elem_of_where_near; exists n, s; auto).
  rewrite Hnil in Hin. inversion Hin.
Qed.

(** X5: with the module global [dbno] bound the look-up of the row
    never raises. Either it yields the index of the last row whose time
    is within 1e-6 of [t] (an index inside the history, nothing
    printed), or no row is near [t] and it yields -1 and prints the
    diagnostic. *)
Theorem find_row_last_match (d : Z) (t : float) (dbA : list sample)
    (out : list event) :
  exists j out', find_row (Some d) t dbA out = Ok (j, out') /\
    ((j = -1 /\ out' = out ++ [DidNotFind d t] /\
      Forall (fun s => near t s = false) dbA)
     \/
     (0 <= j /\ out' = out /\
      exists s, dbA !! Z.to_nat j = Some s /\ near t s = true /\
        forall (i : nat) s', (Z.to_nat j < i)%nat -> dbA !! i = Some s' ->
          near t s' = false)).
Proof.
  unfold find_row.
  destruct (array_max (where_near 0 t dbA)) as [j|e] eqn:E.
  - exists j, out. split; [reflexivity|]. right.
    destruct (array_max_where_near t dbA j E) as [Hj Hs]. auto.
  - exists (-1), (out ++ [DidNotFind d t]). split; [reflexivity|]. left.
    repeat split. eapply array_max_where_near_none. exact E.
Qed.

Lemma find_row_last_match_witness :
  exists j out', find_row (Some 7) zero
                   [Sample zero zero zero zero zero;
                    Sample (dec 1 0) zero zero zero zero;
                    Sample zero (dec 1 0) zero zero zero] [] = Ok (j, out') /\
    (j = -1 \/ 0 <= j).
Proof.
  destruct (find_row_last_match 7 zero
              [Sample zero zero zero zero zero;
               Sample (dec 1 0) zero zero zero zero;
               Sample zero (dec 1 0) zero zero zero] [])
    as (j & out' & Hrun & [(Hj & _)|(Hj & _)]);
    exists j, out'; (split; [exact Hrun|]); [left | right]; assumption.
Defined.

(** With two rows at the query time the later one is used. *)
Example find_row_takes_last :
  find_row (Some 7) zero
    [Sample zero zero zero zero zero;
     Sample (dec 1 0) zero zero zero zero;
     Sample zero (dec 1 0) zero zero zero] [] = Ok (2, []).
Proof. vm_compute. reflexivity. Qed.

Lemma row_ok (db : list sample) (j : Z) :
  is_ok (row db j) = true <-> (Z.to_nat j < List.length db)%nat.
Proof.
  unfold row, list_getitem. destruct (db !! Z.to_nat j) as [s|] eqn:E; cbn.
  - apply lookup_lt_Some in E. tauto.
  - apply lookup_ge_None in E. split; [discriminate | lia].
Qed.

Lemma row_raises (db : list sample) (j : Z) e :
  row db j = Raise e -> e = IndexError.
Proof.
  unfold row, list_getitem. destruct (db !! Z.to_nat j); [discriminate|].
  congruence.
Qed.

Lemma loop_ok_iff d t paths ids xs ys out :
  is_ok (make_dbABCD_loop (Some d) t paths ids xs ys out) = true
  <-> Forall (group_ok t paths) ids.
Proof.
  revert xs ys out. induction ids as [|g ids IH]; intros xs ys out.
  - cbn. split; [constructor | reflexivity].
  - rewrite Forall_cons. cbn [make_dbABCD_loop]. unfold dict_getitem, group_ok.
    destruct (paths !! g) as [dbA|]; cbn;
      [|split; [discriminate | intros [(?&?&?&?&?&_) _]; discriminate]].
    destruct (paths !! (g + 1000)) as [dbB|]; cbn;
      [|split; [discriminate | intros [(?&?&?&?&_&?&_) _]; discriminate]].
    destruct (paths !! (g + 2000)) as [dbC|]; cbn;
      [|split; [discriminate | intros [(?&?&?&?&_&_&?&_) _]; discriminate]].
    destruct (paths !! (g + 3000)) as [dbD|]; cbn;
      [|split; [discriminate | intros [(?&?&?&?&_&_&_&?&_) _]; discriminate]].
    unfold find_row.
    destruct (array_max (where_near 0 t dbA)) as [j|e] eqn:E; cbn.
    + destruct (array_max_where_near t dbA j E) as (Hj & s & Hs & _).
      replace (-1 <? j) with true by (symmetry; apply Z.ltb_lt; lia).
      pose proof (row_ok dbA j) as HA. pose proof (row_ok dbB j) as HB.
      pose proof (row_ok dbC j) as HC. pose proof (row_ok dbD j) as HD.
      apply lookup_lt_Some in Hs.
      destruct (row dbA j) as [a|]; cbn in *; [|apply HA in Hs; discriminate].
      destruct (row dbB j) as [b|]; cbn in *.
      2:{ split; [discriminate|]. intros [(?&?&?&?&?&?&?&?&Hb) _].
          simplify_eq. destruct (Hb j E) as (Hb' & _).
          apply HB in Hb'. discriminate. }
      destruct (row dbC j) as [c|]; cbn in *.
      2:{ split; [discriminate|]. intros [(?&?&?&?&?&?&?&?&Hb) _].
          simplify_eq. destruct (Hb j E) as (_ & Hb' & _).
          apply HC in Hb'. discriminate. }
      destruct (row dbD j) as [dd|]; cbn in *.
      2:{ split; [discriminate|]. intros [(?&?&?&?&?&?&?&?&Hb) _].
          simplify_eq. destruct (Hb j E) as (_ & _ & Hb').
          apply HD in Hb'. discriminate. }
      rewrite IH. split; [|tauto]. intros Hrest. split; [|exact Hrest].
      exists dbA, dbB, dbC, dbD. split; [reflexivity|].
      split; [reflexivity|]. split; [reflexivity|]. split; [reflexivity|].
      intros j' Hj'. rewrite Hj' in E. injection E as ->.
      split; [apply HB|split; [apply HC|apply HD]]; reflexivity.
    + rewrite IH. split; [|tauto]. intros Hrest. split; [|exact Hrest].
      exists dbA, dbB, dbC, dbD. split; [reflexivity|].
      split; [reflexivity|]. split; [reflexivity|]. split; [reflexivity|].
      intros j' Hj'. rewrite E in Hj'. discriminate.
Qed.

Lemma loop_raises d t paths ids xs ys out e :
  make_dbABCD_loop (Some d) t paths ids xs ys out = Raise e ->
  exists k, k ∈ ids /\
    ((e = KeyError (KInt k) /\ paths !! k = None) \/
     (e = KeyError (KInt (k + 1000)) /\ paths !! (k + 1000) = None) \/
     (e = KeyError (KInt (k + 2000)) /\ paths !! (k + 2000) = None) \/
     (e = KeyError (KInt (k + 3000)) /\ paths !! (k + 3000) = None) \/
     e = IndexError).
Proof.
  revert xs ys out. induction ids as [|g ids IH]; intros xs ys out;
    [discriminate|].
  cbn [make_dbABCD_loop]. unfold dict_getitem.
  assert (Hhere : forall P : Z -> Prop, P g -> exists k, k ∈ g :: ids /\ P k)
    by (intros P HP; exists g; split; [left | exact HP]).
  assert (Hrest : forall xs ys out,
            make_dbABCD_loop (Some d) t paths ids xs ys out = Raise e ->
            exists k, k ∈ g :: ids /\
              ((e = KeyError (KInt k) /\ paths !! k = None) \/
               (e = KeyError (KInt (k + 1000)) /\ paths !! (k + 1000) = None) \/
               (e = KeyError (KInt (k + 2000)) /\ paths !! (k + 2000) = None) \/
               (e = KeyError (KInt (k + 3000)) /\ paths !! (k + 3000) = None) \/
               e = IndexError)).
  { intros xs' ys' out' H. destruct (IH _ _ _ H) as (k & Hk & He).
    exists k. split; [right; exact Hk | exact He]. }
  destruct (paths !! g) as [dbA|] eqn:EA; cbn;
    [|intros [= <-]; apply Hhere; auto].
  destruct (paths !! (g + 1000)) as [dbB|] eqn:EB; cbn;
    [|intros [= <-]; apply Hhere; auto].
  destruct (paths !! (g + 2000)) as [dbC|] eqn:EC; cbn;
    [|intros [= <-]; apply Hhere; auto 6].
  destruct (paths !! (g + 3000)) as [dbD|] eqn:ED; cbn;
    [|intros [= <-]; apply Hhere; auto 8].
  unfold find_row.
  destruct (array_max (where_near 0 t dbA)) as [j|e'] eqn:E; cbn;
    [|apply Hrest].
  destruct (-1 <? j); [|apply Hrest].
  destruct (row dbA j) as [a|ea] eqn:Ea; cbn;
    [|intros [= <-]; apply row_raises in Ea as ->; apply Hhere; auto 8].
  destruct (row dbB j) as [b|eb] eqn:Eb; cbn;
    [|intros [= <-]; apply row_raises in Eb as ->; apply Hhere; auto 8].
  destruct (row dbC j) as [c|ec] eqn:Ec; cbn;
    [|intros [= <-]; apply row_raises in Ec as ->; apply Hhere; auto 8].
  destruct (row dbD j) as [dd|ed] eqn:Ed; cbn;
    [|intros [= <-]; apply row_raises in Ed as ->; apply Hhere; auto 8].
  apply Hrest.
Qed.

(** X6: with the module global [dbno] bound, [make_dbABCD] returns
    exactly when every group of [dbnosA] has its four ids among the
    keys of [debris_paths] and, where the corner's history has a row
    near [t], the three other histories have a row at that index too.
    Otherwise it raises [KeyError] with a missing id of some group, or
    [IndexError]; the [ValueError] of the empty [max()] never escapes. *)
Theorem make_dbABCD_returns_iff (d : Z) (t : float)
    (paths : gmap Z (list sample)) (ids : list Z) :
  (is_ok (make_dbABCD (Some d) t paths ids) = true
     <-> Forall (group_ok t paths) ids) /\
  (forall e, make_dbABCD (Some d) t paths ids = Raise e ->
     exists k, k ∈ ids /\
       ((e = KeyError (KInt k) /\ paths !! k = None) \/
        (e = KeyError (KInt (k + 1000)) /\ paths !! (k + 1000) = None) \/
        (e = KeyError (KInt (k + 2000)) /\ paths !! (k + 2000) = None) \/
        (e = KeyError (KInt (k + 3000)) /\ paths !! (k + 3000) = None) \/
        e = IndexError)).
Proof.
  split; [apply loop_ok_iff|].
  intros e. apply loop_raises.
Qed.

Lemma make_dbABCD_returns_iff_witness :
  exists k, make_dbABCD (Some 7) zero
              {[ 0 := [Sample zero zero zero zero zero]; 1000 := [] ]} [0]
            = Raise (KeyError (KInt k)).
Proof.
  assert (H : make_dbABCD (Some 7) zero
                {[ 0 := [Sample zero zero zero zero zero]; 1000 := [] ]} [0]
              = Raise (KeyError (KInt 2000)))
    by (vm_compute; reflexivity).
  destruct (proj2 (make_dbABCD_returns_iff 7 zero
                     {[ 0 := [Sample zero zero zero zero zero]; 1000 := [] ]} [0])
              _ H) as (k & _ & _).
  exists 2000. exact H.
Defined.

(** [has_near] decides which branch the look-up of the row takes. *)
Lemma existsb_near_found t (dbA : list sample) j :
  array_max (where_near 0 t dbA) = Ok j -> existsb (near t) dbA = true.
Proof.
  intros Hj. destruct (array_max_where_near t dbA j Hj) as (_ & s & Hs & Hnear & _).
  apply existsb_exists. exists s. split; [|exact Hnear].
  apply list_elem_of_In. eapply list_elem_of_lookup_2. exact Hs.
Qed.

Lemma existsb_near_missing t (dbA : list sample) e :
  array_max (where_near 0 t dbA) = Raise e -> existsb (near t) dbA = false.
Proof.
  intros He. apply array_max_where_near_none in He.
  induction He as [|s l Hs _ IH]; [reflexivity|].
  cbn. rewrite Hs, IH. reflexivity.
Qed.

(** What the loop adds to its accumulators: one polygon per group with
    a row near [t], drawn from the rows of the four histories at the
    index found, and one diagnostic per other group. *)
Lemma loop_polygons d t paths ids xs0 ys0 out0 xs ys out :
  make_dbABCD_loop (Some d) t paths ids xs0 ys0 out0 = Ok (xs, ys, out) ->
  exists quads,
    xs = xs0 ++ concat (map (polygon s_x) quads) /\
    ys = ys0 ++ concat (map (polygon s_y) quads) /\
    Forall2 (drawn_from t paths) (List.filter (has_near t paths) ids) quads /\
    out = out0 ++ replicate
            (List.length (List.filter (fun g => negb (has_near t paths g)) ids))
            (DidNotFind d t).
Proof.
  revert xs0 ys0 out0. induction ids as [|g ids IH]; intros xs0 ys0 out0.
  - cbn. intros [= <- <- <-]. exists []. cbn.
    rewrite !app_nil_r. repeat split. constructor.
  - cbn [make_dbABCD_loop List.filter]. unfold dict_getitem.
    destruct (paths !! g) as [dbA|] eqn:EA; cbn; [|discriminate].
    assert (Hg : has_near t paths g = existsb (near t) dbA)
      by (unfold has_near; rewrite EA; reflexivity).
    rewrite !Hg.
    destruct (paths !! (g + 1000)) as [dbB|] eqn:EB; cbn; [|discriminate].
    destruct (paths !! (g + 2000)) as [dbC|] eqn:EC; cbn; [|discriminate].
    destruct (paths !! (g + 3000)) as [dbD|] eqn:ED; cbn; [|discriminate].
    unfold find_row.
    destruct (array_max (where_near 0 t dbA)) as [j|e] eqn:E; cbn.
    + rewrite (existsb_near_found t dbA j E). cbn [negb].
      destruct (array_max_where_near t dbA j E) as (Hj & s & Hs & Hnear & Hlast).
      replace (-1 <? j) with true by (symmetry; apply Z.ltb_lt; lia).
      unfold row, list_getitem. rewrite Hs. cbn.
      destruct (dbB !! Z.to_nat j) as [b|] eqn:Eb; cbn; [|discriminate].
      destruct (dbC !! Z.to_nat j) as [c|] eqn:Ec; cbn; [|discriminate].
      destruct (dbD !! Z.to_nat j) as [dd|] eqn:Ed; cbn; [|discriminate].
      intros H. apply IH in H as (quads & -> & -> & Hall & ->).
      exists ((s, b, c, dd) :: quads). cbn [map concat polygon].
      rewrite <- !app_assoc. repeat split; try reflexivity.
      constructor; [|exact Hall].
      exists (Z.to_nat j), dbA, dbB, dbC, dbD. repeat split; assumption.
    + rewrite (existsb_near_missing t dbA e E). cbn [negb List.length replicate].
      intros H. apply IH in H as (quads & -> & -> & Hall & ->).
      exists quads. rewrite <- app_assoc. repeat split; try reflexivity. exact Hall.
Qed.

(** The rows a group is drawn from are determined by [t] and the
    dictionary. *)
Lemma drawn_from_unique t paths g q q' :
  drawn_from t paths g q -> drawn_from t paths g q' -> q = q'.
Proof.
  destruct q as [[[A B] C] D], q' as [[[A' B'] C'] D'].
  intros (j & dbA & dbB & dbC & dbD & HA & HB & HC & HD & Ha & Hb & Hc & Hd
          & Hn & Hlast)
         (j' & dbA' & dbB' & dbC' & dbD' & HA' & HB' & HC' & HD' & Ha' & Hb'
          & Hc' & Hd' & Hn' & Hlast').
  assert (dbA' = dbA) as -> by congruence.
  assert (dbB' = dbB) as -> by congruence.
  assert (dbC' = dbC) as -> by congruence.
  assert (dbD' = dbD) as -> by congruence.
  assert (j' = j) as ->.
  { destruct (Nat.lt_trichotomy j j') as [Hlt|[Heq|Hlt]]; [|congruence|].
    - rewrite (Hlast j' A' Hlt Ha') in Hn'. discriminate.
    - rewrite (Hlast' j A Hlt Ha) in Hn. discriminate. }
  congruence.
Qed.

Lemma Forall2_drawn_from_unique t paths gs quads quads' :
  Forall2 (drawn_from t paths) gs quads ->
  Forall2 (drawn_from t paths) gs quads' -> quads' = quads.
Proof.
  intros H. revert quads'. induction H as [|g q gs quads Hq _ IH]; intros quads' H'.
  - inversion H'. reflexivity.
  - inversion H' as [|g' q' gs' quads'' Hq' Hrest]; subst.
    rewrite (drawn_from_unique _ _ _ _ _ Hq Hq'). f_equal. apply IH, Hrest.
Qed.

Lemma filter_split_length {A} (f : A -> bool) (l : list A) :
  (List.length (List.filter f l)
   + List.length (List.filter (fun x => negb (f x)) l))%nat = List.length l.
Proof.
  induction l as [|x l IH]; [reflexivity|].
  cbn [List.filter]. destruct (f x); cbn; lia.
Qed.

Lemma concat_polygons_length (f : sample -> float) quads :
  List.length (concat (map (polygon f) quads)) = (6 * List.length quads)%nat.
Proof.
  induction quads as [|[[[A B] C] D] quads IH]; [reflexivity|].
  cbn [map concat]. rewrite length_app, IH. cbn. lia.
Qed.

(** X7: whenever [make_dbABCD] returns, the two arrays are one closed
    polygon (six entries, the fifth repeating the first, the sixth NaN)
    for each group of [dbnosA] whose corner history has a row near
    [t], in the order of [dbnosA]. The polygon of group [g] is drawn
    from the rows of the histories of [g], [g + 1000], [g + 2000] and
    [g + 3000] at one index, that of the last row of the corner's
    history near [t], and this determines the arrays. Every other
    group is reported by one diagnostic, and the two arrays have the
    same length. *)
Theorem make_dbABCD_polygons (d : Z) (t : float) (paths : gmap Z (list sample))
    (ids : list Z) (xs ys : list float) (out : list event) :
  make_dbABCD (Some d) t paths ids = Ok (xs, ys, out) ->
  exists quads,
    xs = concat (map (polygon s_x) quads) /\
    ys = concat (map (polygon s_y) quads) /\
    Forall2 (drawn_from t paths) (List.filter (has_near t paths) ids) quads /\
    (forall quads',
       Forall2 (drawn_from t paths) (List.filter (has_near t paths) ids) quads' ->
       quads' = quads) /\
    out = replicate
            (List.length (List.filter (fun g => negb (has_near t paths g)) ids))
            (DidNotFind d t) /\
    (List.length quads + List.length out)%nat = List.length ids /\
    List.length xs = (6 * List.length quads)%nat /\
    List.length ys = List.length xs.
Proof.
  intros H. apply loop_polygons in H as (quads & -> & -> & Hall & ->).
  exists quads. cbn [app]. rewrite !concat_polygons_length, length_replicate.
  rewrite <- (Forall2_length _ _ _ Hall), filter_split_length.
  repeat split; try assumption.
  intros quads' H'. exact (Forall2_drawn_from_unique _ _ _ _ _ Hall H').
Qed.

Lemma make_dbABCD_polygons_witness :
  exists quads,
    [zero; zero; length; length; zero; nan] = concat (map (polygon s_x) quads) /\
    Forall2 (drawn_from zero one_square) [0] quads.
Proof.
  assert (H : make_dbABCD (Some 3001) zero one_square [0]
    = Ok ([zero; zero; length; length; zero; nan],
          [zero; length; length; zero; zero; nan], []))
    by (vm_compute; reflexivity).
  destruct (make_dbABCD_polygons _ _ _ _ _ _ _ H)
    as (quads & Hx & _ & Hall & _).
  exists quads. split; [exact Hx|].
  assert (Hf : List.filter (has_near zero one_square) [0] = [0])
    by (vm_compute; reflexivity).
  rewrite Hf in Hall. exact Hall.
Defined.

(** On histories of two rows queried at the time of the second one,
    all four corners are taken from the second row. *)
Example make_dbABCD_second_row :
  make_dbABCD (Some 3001) (dec 1 0)
    {[ 0 := [Sample zero zero zero zero zero;
             Sample (dec 1 0) (dec 2 0) (dec 3 0) zero zero];
       1000 := [Sample zero zero length zero zero;
                Sample (dec 1 0) (dec 4 0) (dec 5 0) zero zero];
       2000 := [Sample zero length length zero zero;
                Sample (dec 1 0) (dec 6 0) (dec 7 0) zero zero];
       3000 := [Sample zero length zero zero zero;
                Sample (dec 1 0) (dec 8 0) (dec 9 0) zero zero] ]} [0]
  = Ok ([dec 2 0; dec 4 0; dec 6 0; dec 8 0; dec 2 0; nan],
        [dec 3 0; dec 5 0; dec 7 0; dec 9 0; dec 3 0; nan], []).
Proof. vm_compute. reflexivity. Qed.





End FindRow.

(** ** Query times that are found, or can never be found *)

Section QueryTimes.
Import Debris Shapes.

Lemma near_nonfinite (t : float) (s : sample) :
  finite t = false -> near t s = false.
Proof.
  unfold near. destruct t as [b|b| |b m e]; cbn; try discriminate; intros _.
  - destruct (s_t s) as [b'|b'| |b' m' e']; try reflexivity;
      destruct b, b'; reflexivity.
  - destruct (s_t s); reflexivity.
Qed.

Lemma near_self (t x y u v : float) :
  finite t = true -> near t (Sample t x y u v) = true.
Proof.
  unfold near. cbn [s_t].
  destruct t as [b|b| |b m e]; cbn; try discriminate; intros _.
  - destruct b; reflexivity.
  - unfold sub, SFsub. rewrite Z.sub_diag. reflexivity.
Qed.

Lemma loop_all_missing d t paths ids xs ys out :
  finite t = false -> Forall (has_group paths) ids ->
  make_dbABCD_loop (Some d) t paths ids xs ys out
  = Ok (xs, ys, out ++ replicate (List.length ids) (DidNotFind d t)).
Proof.
  intros Ht Hall. revert out.
  induction Hall as [|g ids Hg _ IH]; intros out.
  - cbn. rewrite app_nil_r. reflexivity.
  - destruct Hg as ([dbA HA] & [dbB HB] & [dbC HC] & [dbD HD]).
    rewrite (loop_skip d t paths g dbA dbB dbC dbD ids xs ys out HA HB HC HD).
    + rewrite IH. cbn [List.length replicate]. rewrite <- app_assoc.
      reflexivity.
    + apply Forall_forall. intros s _. apply near_nonfinite. exact Ht.
Qed.

(** X8: for a query time that is NaN or infinite no row is ever near:
    when every group has its four ids among the keys, [make_dbABCD]
    returns two empty arrays and prints one diagnostic per group,
    whatever the histories contain. *)
Theorem make_dbABCD_nonfinite_time (d : Z) (t : float)
    (paths : gmap Z (list sample)) (ids : list Z) :
  finite t = false -> Forall (has_group paths) ids ->
  make_dbABCD (Some d) t paths ids
  = Ok ([], [], replicate (List.length ids) (DidNotFind d t)).
Proof.
  intros Ht Hall. unfold make_dbABCD.
  rewrite (loop_all_missing d t paths ids [] [] [] Ht Hall). reflexivity.
Qed.

Lemma make_dbABCD_nonfinite_time_witness :
  make_dbABCD (Some 3001) nan
    {[ 0 := [Sample nan zero zero zero zero];
       1000 := [Sample nan zero length zero zero];
       2000 := [Sample nan length length zero zero];
       3000 := [Sample nan length zero zero zero] ]} [0]
  = Ok ([], [], [DidNotFind 3001 nan]).
Proof.
  apply (make_dbABCD_nonfinite_time 3001 nan _ [0] eq_refl).
  repeat constructor; vm_compute; eauto.
Defined.

Lemma loop_found d t paths g rest X Y out a b c dd :
  paths !! g = Some [a] -> paths !! (g + 1000) = Some [b] ->
  paths !! (g + 2000) = Some [c] -> paths !! (g + 3000) = Some [dd] ->
  near t a = true ->
  make_dbABCD_loop (Some d) t paths (g :: rest) X Y out
  = make_dbABCD_loop (Some d) t paths rest
      (X ++ polygon s_x (a, b, c, dd)) (Y ++ polygon s_y (a, b, c, dd)) out.
Proof.
  intros HA HB HC HD Hnear. cbn [make_dbABCD_loop]. unfold dict_getitem.
  rewrite HA, HB, HC, HD. cbn -[near make_dbABCD_loop].
  unfold find_row. cbn [where_near]. rewrite Hnear. reflexivity.
Qed.

Lemma loop_initial d t0 xs ys st0 :
  finite t0 = true ->
  for_each (init_body t0 xs ys) (seq 0 (List.length xs)) no_particles = Ok st0 ->
  (List.length xs <= 1000)%nat ->
  forall m a X Y out, (a + m = List.length xs)%nat ->
    make_dbABCD_loop (Some d) t0 (debris_paths st0) (map Z.of_nat (seq a m)) X Y out
    = Ok (X ++ concat (map initial_square_x (take m (drop a xs))),
          Y ++ concat (map initial_square_y (take m (drop a ys))), out).
Proof.
  intros Ht Hrun Hn. induction m as [|m IH]; intros a X Y out Ham.
  - cbn. rewrite !app_nil_r. reflexivity.
  - assert (Ha : (a < List.length xs)%nat) by lia.
    destruct (lookup_lt_is_Some_2 xs a Ha) as [x Hx].
    assert (Hy : exists y, ys !! a = Some y).
    { destruct (ys !! a) as [y|] eqn:Ey; [eauto|]. exfalso.
      rewrite (for_each_init_index_error t0 xs ys) in Hrun; [discriminate| |].
      - apply Forall_forall. intros k Hk. apply elem_of_seq in Hk. lia.
      - exists a. split; [apply elem_of_seq; lia | exact Ey]. }
    destruct Hy as [y Hy].
    destruct (for_each_init_squares t0 xs ys _ _ _ a x y Hrun)
      as (HA & HB & HC & HD); try assumption.
    { apply NoDup_seq. }
    { apply Forall_forall. intros j Hj. apply elem_of_seq in Hj. lia. }
    { apply elem_of_seq. lia. }
    cbn [seq map].
    rewrite (loop_found d t0 _ _ _ X Y out _ _ _ _ HA HB HC HD
               (near_self t0 _ _ _ _ Ht)).
    rewrite (IH (S a)) by lia.
    rewrite (drop_S xs x a Hx), (drop_S ys y a Hy). cbn [take map concat].
    unfold initial_square_x, initial_square_y.
    rewrite <- !app_assoc. reflexivity.
Qed.

(** X9: right after the initialisation (at most 1000 squares, a start
    time that is a number) the query at the start time finds every
    square: [make_dbABCD] prints nothing and returns, square by square,
    the closed polygon lower left, upper left, upper right, lower
    right, lower left, followed by NaN. *)
Theorem make_dbABCD_after_initialize (d : Z) (t0 : float) (xs ys : list float)
    (st : particles) :
  initialize t0 xs ys = Ok st -> (List.length xs <= 1000)%nat ->
  finite t0 = true ->
  make_dbABCD (Some d) t0 (debris_paths st) (dbnosA st)
  = Ok (concat (map initial_square_x xs),
        concat (map initial_square_y (take (List.length xs) ys)), []).
Proof.
  unfold initialize.
  destruct (for_each _ _ _) as [st0|e] eqn:E; cbn; [|discriminate].
  intros [= <-] Hn Ht. cbn [debris_paths dbnosA].
  destruct (for_each_init_ids _ _ _ _ _ _ E) as [_ HA]. cbn in HA.
  rewrite HA. unfold make_dbABCD.
  rewrite (loop_initial d t0 xs ys st0 Ht E Hn (List.length xs) 0) by lia.
  cbn [drop app]. rewrite firstn_all. reflexivity.
Qed.

Lemma make_dbABCD_after_initialize_witness :
  exists st, initialize zero xgg ygg = Ok st /\
    make_dbABCD (Some 3001) zero (debris_paths st) (dbnosA st)
    = Ok (concat (map initial_square_x xgg),
          concat (map initial_square_y (take 2 ygg)), []).
Proof.
  destruct (initialize zero xgg ygg) as [st|e] eqn:E.
  - exists st. split; [reflexivity|].
    apply (make_dbABCD_after_initialize 3001 zero xgg ygg st E).
    + cbn. lia.
    + reflexivity.
  - exfalso. pose proof (initialize_ok zero xgg ygg) as H.
    rewrite E in H. cbn in H. discriminate H. reflexivity.
Defined.

End QueryTimes.

(** ** The cross sections and the speed of the plot helpers *)

Section SetplotExtras.
Import Setplot Signs.

Lemma elem_of_find_from (i : nat) (mask : list bool) (n : nat) :
  n ∈ find_from i mask <->
  exists k, mask !! k = Some true /\ n = (i + k)%nat.
Proof.
  revert i. induction mask as [|b mask IH]; intros i; cbn [find_from].
  - split; [intros H; inversion H | intros (k & H & _); discriminate].
  - assert (Htail : n ∈ find_from (S i) mask <->
              exists k, (b :: mask) !! S k = Some true /\ n = (i + S k)%nat).
    { rewrite IH. split; intros (k & H & ->); exists k; split; auto; lia. }
    destruct b.
    + rewrite elem_of_cons, Htail. split.
      * intros [->|(k & H)]; [exists 0%nat; split; [reflexivity | lia]|].
        exists (S k). exact H.
      * intros ([|k] & H & ->); [left; lia | right; exists k; auto].
    + rewrite Htail. split.
      * intros (k & H). exists (S k). exact H.
      * intros ([|k] & H & ->); [discriminate | exists k; auto].
Qed.

Lemma find_from_sorted (i : nat) (mask : list bool) :
  StronglySorted lt (find_from i mask).
Proof.
  revert i. induction mask as [|b mask IH]; intros i; cbn [find_from];
    [constructor|].
  destruct b; [|apply IH]. constructor; [apply IH|].
  apply Forall_forall. intros n Hn.
  apply elem_of_find_from in Hn as (k & _ & ->). lia.
Qed.

Lemma find_from_length (i : nat) (mask : list bool) :
  List.length (find_from i mask) = List.length (List.filter id mask).
Proof.
  revert i. induction mask as [|b mask IH]; intros i; cbn; [reflexivity|].
  destruct b; cbn; rewrite IH; reflexivity.
Qed.

(** X10: [find] returns exactly the positions at which the ravelled
    condition is true, each once and in increasing order. *)
Theorem find_positions (condition : list bool) :
  (forall n, n ∈ find condition <-> condition !! n = Some true) /\
  StronglySorted lt (find condition) /\
  List.length (find condition) = List.length (List.filter id condition).
Proof.
  split; [|split].
  - intros n. unfold find. rewrite elem_of_find_from. split.
    + intros (k & H & ->). exact H.
    + intros H. exists n. split; [exact H | reflexivity].
  - apply find_from_sorted.
  - apply find_from_length.
Qed.

Lemma map_combine_map {A B C D} (f : A -> B) (g : A -> C) (h : B * C -> D)
    (l : list A) :
  map h (combine (map f l) (map g l)) = map (fun a => h (f a, g a)) l.
Proof.
  induction l as [|a l IH]; cbn; [reflexivity|]. rewrite IH. reflexivity.
Qed.

(** X11: the four cross-section helpers never raise: the indices
    [find] returns are always inside the arrays they index. All four
    return the same abscissae, those of the cells on the section in
    grid order, and one value per abscissa: the surface, the surface
    minus the depth, the momentum, and the guarded velocity. *)
Theorem cross_sections (cd : current_data) :
  let sel := List.filter (on_section (dy cd)) (cells cd) in
  xsec cd = Ok (map c_x sel, map q3 sel) /\
  xsec_B cd = Ok (map c_x sel, map (fun c => sub (q3 c) (q0 c)) sel) /\
  xsec_hu cd = Ok (map c_x sel, map q1 sel) /\
  xsec_s cd
  = Ok (map c_x sel,
        map (fun c => if gtb (q0 c) (dec 1 3) then div (q1 c) (q0 c) else zero)
            sel).
Proof.
  intros sel. subst sel. repeat split.
  - unfold xsec. rewrite !index_find. reflexivity.
  - unfold xsec_B. rewrite map_combine_map, !index_find. reflexivity.
  - unfold xsec_hu. rewrite !index_find. reflexivity.
  - apply xsec_s_value.
Qed.

Lemma on_section_degenerate (dy : float) (c : cell) :
  dy = S754_nan \/ (exists s, dy = S754_zero s) -> on_section dy c = false.
Proof.
  intros [->|[s ->]]; unfold on_section.
  - replace (add (dec 76 2) (div S754_nan (dec 2 0))) with S754_nan
      by (vm_compute; reflexivity).
    unfold leb, SFleb. destruct (c_y c); reflexivity.
  - replace (add (dec 76 2) (div (S754_zero s) (dec 2 0))) with (dec 76 2)
      by (destruct s; vm_compute; reflexivity).
    replace (sub (dec 76 2) (div (S754_zero s) (dec 2 0))) with (dec 76 2)
      by (destruct s; vm_compute; reflexivity).
    destruct (leb (c_y c) (dec 76 2)) eqn:E; [|reflexivity].
    rewrite (leb_not_gtb _ _ E). reflexivity.
Qed.

(** X12: with a cell height [dy] that is zero or NaN the band around
    [y = 0.76] is empty: every cross-section helper returns two empty
    arrays, whatever the cells are. *)
Theorem cross_sections_degenerate (cd : current_data) :
  dy cd = S754_nan \/ (exists s, dy cd = S754_zero s) ->
  xsec cd = Ok ([], []) /\ xsec_B cd = Ok ([], []) /\
  xsec_hu cd = Ok ([], []) /\ xsec_s cd = Ok ([], []).
Proof.
  intros Hdy.
  assert (Hsel : List.filter (on_section (dy cd)) (cells cd) = []).
  { induction (cells cd) as [|c l IH]; [reflexivity|]. cbn.
    rewrite (on_section_degenerate _ c Hdy). exact IH. }
  repeat split.
  - unfold xsec. rewrite !index_find, Hsel. reflexivity.
  - unfold xsec_B. rewrite map_combine_map, !index_find, Hsel. reflexivity.
  - unfold xsec_hu. rewrite !index_find, Hsel. reflexivity.
  - rewrite xsec_s_value, Hsel. reflexivity.
Qed.

Lemma cross_sections_degenerate_witness :
  xsec_s (CurrentData [Cell (dec 1 0) (dec 76 2) (dec 2 0) (dec 3 0) zero zero]
            zero 1) = Ok ([], []).
Proof.
  apply (cross_sections_degenerate
    (CurrentData [Cell (dec 1 0) (dec 76 2) (dec 2 0) (dec 3 0) zero zero]
       zero 1)).
  right. exists false. reflexivity.
Defined.

Lemma binary_round_aux_sign (sx : bool) mx ex lx :
  match binary_round_aux prec emax sx mx ex lx with
  | S754_nan => True
  | S754_zero s | S754_infinity s | S754_finite s _ _ => s = sx
  end.
Proof.
  unfold binary_round_aux.
  destruct (shr_fexp prec emax mx ex lx) as [mrs' e'].
  destruct (shr_fexp prec emax _ e' loc_Exact) as [mrs'' e''].
  destruct (shr_m mrs''); [reflexivity| |exact I].
  destruct (Z.leb e'' _); reflexivity.
Qed.

Lemma mul_self_nonneg (x : float) : nonneg_or_nan (mul x x).
Proof.
  destruct x as [s|s| |s m e]; cbn; try (destruct s; reflexivity); [exact I|].
  pose proof (binary_round_aux_sign (xorb s s) (Zpos (m * m)) (e + e) loc_Exact) as H.
  unfold nonneg_or_nan, mul. cbn [SFmul].
  destruct (binary_round_aux _ _ _ _ _ _); try exact I;
    rewrite H; destruct s; reflexivity.
Qed.

Lemma add_nonneg (x y : float) :
  nonneg_or_nan x -> nonneg_or_nan y -> nonneg_or_nan (add x y).
Proof.
  destruct x as [sx|sx| |sx mx ex], y as [sy|sy| |sy my ey]; cbn;
    try (intros -> ->; reflexivity); try (intros; exact I);
    try (intros; assumption).
  intros -> ->. unfold add, SFadd. cbn [cond_Zopp].
  change (Zpos (fst (shl_align mx ex (Z.min ex ey)))
          + Zpos (fst (shl_align my ey (Z.min ex ey))))
    with (Zpos (fst (shl_align mx ex (Z.min ex ey))
                + fst (shl_align my ey (Z.min ex ey)))).
  cbn [binary_normalize]. unfold binary_round.
  destruct (shl_align (_ + _) _ _) as [mz ez].
  pose proof (binary_round_aux_sign false (Zpos mz) ez loc_Exact) as H.
  unfold nonneg_or_nan. destruct (binary_round_aux _ _ _ _ _ _); auto.
Qed.

Lemma sqrt_nonneg (x : float) : nonneg_or_nan x -> nonneg_or_nan (sqrt x).
Proof.
  destruct x as [s|s| |s m e]; cbn; try (intros ->; reflexivity);
    try (intros; exact I).
  intros ->. unfold sqrt, SFsqrt.
  destruct (SFsqrt_core_binary prec emax (Zpos m) e) as [[mz ez] lz].
  pose proof (binary_round_aux_sign false mz ez lz) as H.
  unfold nonneg_or_nan. destruct (binary_round_aux _ _ _ _ _ _); auto.
Qed.

(** X13: the speed plotted is never negative: every entry [speed]
    returns is NaN or has its sign bit clear, whatever depths and
    momenta the cells hold, and there is one entry per cell. *)
Theorem speed_nonnegative (cd : current_data) :
  Forall nonneg_or_nan (speed cd) /\
  List.length (speed cd) = List.length (cells cd).
Proof.
  unfold speed. split.
  - rewrite map_combine_map. apply Forall_forall. intros s Hs.
    apply list_elem_of_In, in_map_iff in Hs as (c & <- & _). cbn [fst snd].
    apply sqrt_nonneg, add_nonneg; apply mul_self_nonneg.
  - rewrite map_combine_map. apply length_map.
Qed.

End SetplotExtras.

(** ** A small program logic for the Python object model *)

Section ProgramLogic.
Import Py HeapView.

Lemma returns_bind {A B} (c : M A) (k : A -> M B) s (Q : B -> state -> Prop) :
  returns c s (fun a s' => returns (k a) s' Q) -> returns (c ≫= k) s Q.
Proof.
  intros (a & s' & Hc & b & s'' & Hk & HQ). exists b, s''.
  split; [|exact HQ]. unfold mbind, M_bind. rewrite Hc. exact Hk.
Qed.

Lemma returns_ret {A} (a : A) s (Q : A -> state -> Prop) :
  Q a s -> returns (mret a) s Q.
Proof. intros HQ. exists a, s. split; [reflexivity | exact HQ]. Qed.

Lemma returns_load_local name v s (Q : value -> state -> Prop) :
  locals s !! name = Some v ->
  Q v (State (locals s) (heap s) (loads s ++ [name])) ->
  returns (load_local name) s Q.
Proof.
  intros Hv HQ. eexists _, _. split; [|exact HQ].
  unfold load_local. rewrite Hv. reflexivity.
Qed.

Lemma returns_store_local name v s (Q : unit -> state -> Prop) :
  Q tt (State (<[name := v]> (locals s)) (heap s) (loads s)) ->
  returns (store_local name v) s Q.
Proof. intros HQ. eexists _, _. split; [reflexivity | exact HQ]. Qed.

Lemma attrs_of_get l h :
  attrs_of (VRef l) h
  = match h !! l with Some (Obj attrs) => Some attrs | _ => None end.
Proof. reflexivity. Qed.

Lemma getattr_view l n s :
  getattr (VRef l) n s
  = match get (heap s) l n with
    | Some x => (Ok x, s)
    | None => (Raise (AttributeError n), s)
    end.
Proof.
  unfold getattr, get. rewrite attrs_of_get.
  destruct (heap s !! l) as [[attrs|items]|]; reflexivity.
Qed.

Lemma hasattr_view l n s :
  hasattr (VRef l) n s = (Ok (bool_decide (is_Some (get (heap s) l n))), s).
Proof.
  unfold hasattr, get. rewrite attrs_of_get.
  destruct (heap s !! l) as [[attrs|items]|]; try reflexivity;
    rewrite bool_decide_eq_false_2; try reflexivity; intros [? ?]; discriminate.
Qed.

Lemma returns_getattr l n v s (Q : value -> state -> Prop) :
  get (heap s) l n = Some v -> Q v s -> returns (getattr (VRef l) n) s Q.
Proof.
  intros Hv HQ. exists v, s. split; [|exact HQ].
  rewrite getattr_view, Hv. reflexivity.
Qed.

(** Assigning an attribute changes that attribute of that object and
    nothing else that can be observed. *)
Lemma returns_setattr l n x s (Q : unit -> state -> Prop) :
  isobj (heap s) l = true ->
  (forall h',
     (forall l' n', get h' l' n'
        = if decide (l' = l /\ n' = n) then Some x else get (heap s) l' n') ->
     (forall l', lst h' l' = lst (heap s) l') ->
     (forall l', isobj h' l' = isobj (heap s) l') ->
     dom h' = dom (heap s) ->
     Q tt (State (locals s) h' (loads s))) ->
  returns (setattr (VRef l) n x) s Q.
Proof.
  intros Hobj HQ. unfold isobj in Hobj.
  destruct (heap s !! l) as [[attrs|items]|] eqn:E; try discriminate.
  eexists tt, _. split.
  - unfold setattr. rewrite attrs_of_get, E. reflexivity.
  - apply HQ.
    + intros l' n'. unfold get. destruct (decide (l' = l)) as [->|Hne].
      * rewrite lookup_insert_eq, E. destruct (decide (n' = n)) as [->|Hn].
        -- rewrite decide_True by done. apply lookup_insert_eq.
        -- rewrite decide_False by (intros [_ ?]; done).
           apply lookup_insert_ne. done.
      * rewrite lookup_insert_ne by done.
        rewrite decide_False by (intros [? _]; done). reflexivity.
    + intros l'. unfold lst. destruct (decide (l' = l)) as [->|Hne].
      * rewrite lookup_insert_eq, E. reflexivity.
      * rewrite lookup_insert_ne by done. reflexivity.
    + intros l'. unfold isobj. destruct (decide (l' = l)) as [->|Hne].
      * rewrite lookup_insert_eq, E. reflexivity.
      * rewrite lookup_insert_ne by done. reflexivity.
    + apply set_eq. intros l'. rewrite dom_insert, elem_of_union,
        elem_of_singleton, !elem_of_dom.
      split; [intros [->|H]; [rewrite E; eauto | exact H] | auto].
Qed.

(** A list display allocates a location that was not in use. *)
Lemma returns_new_list items s (Q : value -> state -> Prop) :
  (forall l h', l ∉ dom (heap s) ->
     (forall l' n', get h' l' n' = get (heap s) l' n') ->
     (forall l', lst h' l'
        = if decide (l' = l) then Some items else lst (heap s) l') ->
     (forall l', isobj h' l' = isobj (heap s) l') ->
     dom h' = {[l]} ∪ dom (heap s) ->
     Q (VRef l) (State (locals s) h' (loads s))) ->
  returns (new_list items) s Q.
Proof.
  intros HQ. eexists _, _. split; [reflexivity|].
  pose proof (is_fresh (dom (heap s))) as Hfresh.
  set (l := fresh (dom (heap s))) in *.
  assert (Hnone : heap s !! l = None) by (apply not_elem_of_dom; exact Hfresh).
  apply HQ; [exact Hfresh| | | |].
  - intros l' n'. unfold get. destruct (decide (l' = l)) as [->|Hne].
    + rewrite lookup_insert_eq, Hnone. reflexivity.
    + rewrite lookup_insert_ne by done. reflexivity.
  - intros l'. unfold lst. destruct (decide (l' = l)) as [->|Hne].
    + rewrite lookup_insert_eq. reflexivity.
    + rewrite lookup_insert_ne by done. reflexivity.
  - intros l'. unfold isobj. destruct (decide (l' = l)) as [->|Hne].
    + rewrite lookup_insert_eq, Hnone. reflexivity.
    + rewrite lookup_insert_ne by done. reflexivity.
  - apply dom_insert_L.
Qed.

Lemma returns_list_append l items x s (Q : unit -> state -> Prop) :
  lst (heap s) l = Some items ->
  (forall h',
     (forall l' n', get h' l' n' = get (heap s) l' n') ->
     (forall l', lst h' l'
        = if decide (l' = l) then Some (items ++ [x]) else lst (heap s) l') ->
     (forall l', isobj h' l' = isobj (heap s) l') ->
     dom h' = dom (heap s) ->
     Q tt (State (locals s) h' (loads s))) ->
  returns (list_append (VRef l) x) s Q.
Proof.
  intros Hl HQ. unfold lst in Hl.
  destruct (heap s !! l) as [[attrs|items']|] eqn:E; try discriminate.
  injection Hl as ->. eexists tt, _. split.
  - unfold list_append. rewrite E. reflexivity.
  - apply HQ.
    + intros l' n'. unfold get. destruct (decide (l' = l)) as [->|Hne].
      * rewrite lookup_insert_eq, E. reflexivity.
      * rewrite lookup_insert_ne by done. reflexivity.
    + intros l'. unfold lst. destruct (decide (l' = l)) as [->|Hne].
      * rewrite lookup_insert_eq. reflexivity.
      * rewrite lookup_insert_ne by done. reflexivity.
    + intros l'. unfold isobj. destruct (decide (l' = l)) as [->|Hne].
      * rewrite lookup_insert_eq, E. reflexivity.
      * rewrite lookup_insert_ne by done. reflexivity.
    + apply set_eq. intros l'. rewrite dom_insert, elem_of_union,
        elem_of_singleton, !elem_of_dom.
      split; [intros [->|H]; [rewrite E; eauto | exact H] | auto].
Qed.

Lemma returns_call {A} params (body : M A) s (Q : A -> state -> Prop) :
  returns body (State params (heap s) (loads s))
    (fun a s' => Q a (State (locals s) (heap s') (loads s'))) ->
  returns (call params body) s Q.
Proof.
  intros (a & s' & Hb & HQ). eexists _, _. split; [|exact HQ].
  unfold call. rewrite Hb. reflexivity.
Qed.

Lemma returns_assign_attr var l n x s (Q : unit -> state -> Prop) :
  locals s !! var = Some (VRef l) ->
  isobj (heap s) l = true ->
  (forall h',
     (forall l' n', get h' l' n'
        = if decide (l' = l /\ n' = n) then Some x else get (heap s) l' n') ->
     (forall l', lst h' l' = lst (heap s) l') ->
     (forall l', isobj h' l' = isobj (heap s) l') ->
     dom h' = dom (heap s) ->
     Q tt (State (locals s) h' (loads s ++ [var]))) ->
  returns (assign_attr var n x) s Q.
Proof.
  intros Hv Hobj HQ. unfold assign_attr. apply returns_bind.
  eapply returns_load_local; [exact Hv|].
  apply returns_setattr; [exact Hobj|]. exact HQ.
Qed.

End ProgramLogic.

(** ** [setgeo] of MonaiValley on run data *)

Section MonaiSetgeo.
Import Py HeapView MonaiValley.

Lemma raises_bind {A B} (c : M A) (k : A -> M B) s e (Q : state -> Prop) :
  returns c s (fun a s' => raises (k a) s' e Q) -> raises (c ≫= k) s e Q.
Proof.
  intros (a & s' & Hc & s'' & Hk & HQ). exists s''.
  split; [|exact HQ]. unfold mbind, M_bind. rewrite Hc. exact Hk.
Qed.

Lemma raises_first {A B} (c : M A) (k : A -> M B) s e (Q : state -> Prop) :
  raises c s e Q -> raises (c ≫= k) s e Q.
Proof.
  intros (s' & Hc & HQ). exists s'.
  split; [|exact HQ]. unfold mbind, M_bind. rewrite Hc. reflexivity.
Qed.

Lemma raises_getattr l n s (Q : state -> Prop) :
  get (heap s) l n = None -> Q s ->
  raises (getattr (VRef l) n) s (AttributeError n) Q.
Proof.
  intros Hv HQ. exists s. split; [|exact HQ].
  rewrite getattr_view, Hv. reflexivity.
Qed.

Lemma raises_call {A} params (body : M A) s e (Q : state -> Prop) :
  raises body (State params (heap s) (loads s)) e
    (fun s' => Q (State (locals s) (heap s') (loads s'))) ->
  raises (call params body) s e Q.
Proof.
  intros (s' & Hb & HQ). eexists. split; [|exact HQ].
  unfold call. rewrite Hb. reflexivity.
Qed.

Lemma lst_dom (h : gmap loc cell) l items : lst h l = Some items -> l ∈ dom h.
Proof.
  unfold lst. intros H. apply elem_of_dom.
  destruct (h !! l); [eauto | discriminate].
Qed.

(** Rewriting what is observed of a later heap into what was observed
    of the heaps before it. *)
Ltac view_back :=
  repeat first
    [ match goal with
      | H : forall l n, get ?h l n = _ |- context [get ?h _ _] => rewrite H
      | H : forall l, lst ?h l = _ |- context [lst ?h _] => rewrite H
      | H : forall l, isobj ?h l = _ |- context [isobj ?h _] => rewrite H
      end
    | rewrite decide_False
        by first [ intros [_ ?]; discriminate | assumption
                 | intros [-> ->]; intuition congruence ]
    | rewrite decide_True by first [ split; reflexivity | reflexivity ] ].

Ltac dom_back :=
  repeat match goal with
  | H : dom ?h = _ |- context [dom ?h] => rewrite H
  end.

Ltac local_lookup :=
  cbn [locals]; rewrite ?lookup_insert_ne by discriminate;
  first [ apply lookup_insert_eq | apply lookup_singleton_eq ].

Ltac intro_view :=
  let h := fresh "h" in let Hg := fresh "Hget" in let Hl := fresh "Hlst" in
  let Ho := fresh "Hobj" in let Hd := fresh "Hdom" in
  intros h Hg Hl Ho Hd; cbn [locals heap loads] in Hg, Hl, Ho, Hd |- *.

Ltac step_load :=
  apply returns_bind; eapply returns_load_local; [local_lookup|];
  cbn [locals heap loads].
Ltac step_store :=
  apply returns_bind; apply returns_store_local; cbn [locals heap loads].
Ltac step_getattr :=
  apply returns_bind; eapply returns_getattr;
  [cbn [heap]; view_back; eassumption|]; cbn [locals heap loads].
Ltac step_assign :=
  apply returns_bind; eapply returns_assign_attr;
  [local_lookup | cbn [heap]; view_back; assumption |]; intro_view.
Ltac step_setattr :=
  apply returns_bind; eapply returns_setattr;
  [cbn [heap]; view_back; assumption |]; intro_view.

(** The guard passes and [geo_data] is bound. *)
Ltac run_guard Hgeo :=
  unfold setgeo; first [apply returns_call | apply raises_call];
  first [apply returns_bind | apply raises_bind];
  (eapply returns_load_local; [local_lookup|]); cbn [locals heap loads];
  first [apply returns_bind | apply raises_bind];
  (eexists _, _; split; [apply hasattr_view|]);
  cbn [heap]; rewrite Hgeo, bool_decide_eq_true_2 by eauto;
  first [apply returns_bind | apply raises_bind];
  apply returns_bind;
  (eapply returns_load_local; [local_lookup|]); cbn [locals heap loads];
  step_getattr; apply returns_store_local; cbn [locals heap loads].

Lemma setgeo_returns (s : state) (lr lg lf lt lq ltf : loc)
    (topofiles : list value) :
  get (heap s) lr "geo_data" = Some (VRef lg) -> isobj (heap s) lg = true ->
  get (heap s) lr "refinement_data" = Some (VRef lf) ->
  isobj (heap s) lf = true ->
  get (heap s) lr "topo_data" = Some (VRef lt) ->
  get (heap s) lt "topofiles" = Some (VRef ltf) ->
  lst (heap s) ltf = Some topofiles ->
  get (heap s) lr "qinit_data" = Some (VRef lq) -> isobj (heap s) lq = true ->
  returns (setgeo (VRef lr)) s (fun v s' =>
    v = VRef lr /\ locals s' = locals s /\
    exists le lnew,
      (le ∉ dom (heap s)) /\ (lnew ∉ dom (heap s)) /\ le <> lnew /\
      lst (heap s') ltf = Some (topofiles ++ [VRef le]) /\
      lst (heap s') le = Some monai_topofile /\
      lst (heap s') lnew = Some [] /\
      (forall l, l <> ltf -> l <> le -> l <> lnew ->
         lst (heap s') l = lst (heap s) l) /\
      Forall (fun lnv =>
                get (heap s') (fst (fst lnv)) (snd (fst lnv)) = Some (snd lnv))
        (monai_values lg lf lq (VRef lnew)) /\
      (forall l n, (l, n) ∉ (monai_values lg lf lq (VRef lnew)).*1 ->
         get (heap s') l n = get (heap s) l n) /\
      (forall l, isobj (heap s') l = isobj (heap s) l) /\
      dom (heap s') = {[le; lnew]} ∪ dom (heap s)).
Proof.
  intros Hgeo Hog Href Hof Htopo Htf Hlist Hq Hoq.
  pose proof (lst_dom _ _ _ Hlist) as Hltf.
  run_guard Hgeo.
  do 9 step_assign.
  step_load. step_getattr. step_store.
  do 4 step_assign.
  step_load. step_getattr. step_store. step_load. step_getattr.
  apply returns_bind. apply returns_new_list.
  intros le h' Hfresh1. cbn [heap] in Hfresh1. revert h'. intro_view.
  assert (Hle : le ∉ dom (heap s)) by (revert Hfresh1; dom_back; tauto).
  assert (Hne1 : ltf <> le) by (intros ->; contradiction).
  apply returns_bind. eapply returns_list_append.
  { cbn [heap]. view_back. exact Hlist. }
  intro_view.
  step_load. step_getattr. step_setattr.
  apply returns_bind. apply returns_new_list.
  intros lnew h' Hfresh2. cbn [heap] in Hfresh2. revert h'. intro_view.
  assert (Hdomnew : lnew ∉ {[le]} ∪ dom (heap s))
    by (revert Hfresh2; dom_back; tauto).
  assert (Hlnew : lnew ∉ dom (heap s))
    by (intros Hin; apply Hdomnew, elem_of_union; right; exact Hin).
  assert (Hne2 : ltf <> lnew) by (intros ->; contradiction).
  assert (Hne3 : le <> lnew)
    by (intros ->; apply Hdomnew, elem_of_union; left;
        apply elem_of_singleton; reflexivity).
  step_load. step_getattr. step_setattr.
  step_load. apply returns_ret. cbn [locals heap loads].
  split; [reflexivity|]. split; [reflexivity|].
  exists le, lnew. split; [exact Hle|]. split; [exact Hlnew|].
  split; [exact Hne3|].
  assert (Hne1' : le <> ltf) by congruence.
  assert (Hne2' : lnew <> ltf) by congruence.
  assert (Hne3' : lnew <> le) by congruence.
  split; [view_back; reflexivity|].
  split; [view_back; reflexivity|].
  split; [view_back; reflexivity|].
  split; [intros l H1 H2 H3; view_back; reflexivity|].
  split.
  { unfold monai_values. repeat constructor; cbn [fst snd]; view_back;
      reflexivity. }
  split.
  { intros l n Hnot. unfold monai_values in Hnot. cbn in Hnot.
    rewrite !not_elem_of_cons in Hnot. view_back. reflexivity. }
  split; [intros l; view_back; reflexivity|].
  dom_back. apply set_eq. intros l.
  rewrite !elem_of_union, !elem_of_singleton. tauto.
Qed.

(** X14: on run data whose [geo_data], [refinement_data] and
    [qinit_data] are objects and whose [topo_data.topofiles] is a list,
    [setgeo] returns the very object it was given and leaves the
    caller's variables alone. It assigns the fifteen documented values,
    appends exactly one new entry to [topofiles] behind the entries
    already there, makes [qinitfiles] a new empty list, and changes no
    other attribute, list or object, however the objects alias. *)
Theorem setgeo_effect (s : state) (lr lg lf lt lq ltf : loc)
    (topofiles : list value) :
  get (heap s) lr "geo_data" = Some (VRef lg) -> isobj (heap s) lg = true ->
  get (heap s) lr "refinement_data" = Some (VRef lf) ->
  isobj (heap s) lf = true ->
  get (heap s) lr "topo_data" = Some (VRef lt) ->
  get (heap s) lt "topofiles" = Some (VRef ltf) ->
  lst (heap s) ltf = Some topofiles ->
  get (heap s) lr "qinit_data" = Some (VRef lq) -> isobj (heap s) lq = true ->
  exists s' le lnew,
    setgeo (VRef lr) s = (Ok (VRef lr), s') /\ locals s' = locals s /\
    (le ∉ dom (heap s)) /\ (lnew ∉ dom (heap s)) /\ le <> lnew /\
    lst (heap s') ltf = Some (topofiles ++ [VRef le]) /\
    lst (heap s') le = Some monai_topofile /\
    lst (heap s') lnew = Some [] /\
    (forall l, l <> ltf -> l <> le -> l <> lnew ->
       lst (heap s') l = lst (heap s) l) /\
    Forall (fun lnv =>
              get (heap s') (fst (fst lnv)) (snd (fst lnv)) = Some (snd lnv))
      (monai_values lg lf lq (VRef lnew)) /\
    (forall l n, (l, n) ∉ (monai_values lg lf lq (VRef lnew)).*1 ->
       get (heap s') l n = get (heap s) l n) /\
    (forall l, isobj (heap s') l = isobj (heap s) l).
Proof.
  intros Hgeo Hog Href Hof Htopo Htf Hlist Hq Hoq.
  destruct (setgeo_returns s lr lg lf lt lq ltf topofiles)
    as (v & s' & Hrun & -> & Hloc & le & lnew & H); try assumption.
  exists s', le, lnew. split; [exact Hrun|]. split; [exact Hloc|].
  destruct H as (H1 & H2 & H3 & H4 & H5 & H6 & H7 & H8 & H9 & H10 & _).
  repeat (split; [assumption|]). assumption.
Qed.

Example sample_run_data_view :
  let h := heap sample_run_data in
  get h 0%nat "geo_data" = Some (VRef 1%nat) /\ isobj h 1%nat = true /\
  get h 0%nat "refinement_data" = Some (VRef 2%nat) /\ isobj h 2%nat = true /\
  get h 0%nat "topo_data" = Some (VRef 3%nat) /\
  get h 3%nat "topofiles" = Some (VRef 5%nat) /\ lst h 5%nat = Some [] /\
  get h 0%nat "qinit_data" = Some (VRef 4%nat) /\ isobj h 4%nat = true.
Proof. repeat split; vm_compute; reflexivity. Qed.

Lemma setgeo_effect_witness :
  exists s' le, setgeo (VRef 0%nat) sample_run_data = (Ok (VRef 0%nat), s') /\
    lst (heap s') 5%nat = Some [VRef le] /\
    lst (heap s') le = Some monai_topofile.
Proof.
  destruct sample_run_data_view
    as (H1 & H2 & H3 & H4 & H5 & H6 & H7 & H8 & H9).
  destruct (setgeo_effect sample_run_data 0%nat 1%nat 2%nat 3%nat 4%nat 5%nat []
              H1 H2 H3 H4 H5 H6 H7 H8 H9)
    as (s' & le & lnew & Hrun & _ & _ & _ & _ & Htf & Hle & _).
  exists s', le. auto.
Defined.

(** X15: [setgeo] is not idempotent. A second call on the run data the
    first call returned succeeds as well and appends a second, separate
    copy of the same entry to [topofiles]. *)
Theorem setgeo_twice (s : state) (lr lg lf lt lq ltf : loc)
    (topofiles : list value) :
  get (heap s) lr "geo_data" = Some (VRef lg) -> isobj (heap s) lg = true ->
  get (heap s) lr "refinement_data" = Some (VRef lf) ->
  isobj (heap s) lf = true ->
  get (heap s) lr "topo_data" = Some (VRef lt) ->
  get (heap s) lt "topofiles" = Some (VRef ltf) ->
  lst (heap s) ltf = Some topofiles ->
  get (heap s) lr "qinit_data" = Some (VRef lq) -> isobj (heap s) lq = true ->
  exists s1 s2 le1 le2,
    setgeo (VRef lr) s = (Ok (VRef lr), s1) /\
    setgeo (VRef lr) s1 = (Ok (VRef lr), s2) /\
    le1 <> le2 /\
    lst (heap s2) ltf = Some (topofiles ++ [VRef le1; VRef le2]) /\
    lst (heap s2) le1 = Some monai_topofile /\
    lst (heap s2) le2 = Some monai_topofile.
Proof.
  intros Hgeo Hog Href Hof Htopo Htf Hlist Hq Hoq.
  destruct (setgeo_returns s lr lg lf lt lq ltf topofiles)
    as (v & s1 & Hrun1 & -> & _ & le1 & ln1 & Hle1 & Hln1 & Hne & Hl1 & He1
        & Hn1 & _ & _ & Hframe & Hobj & Hdom); try assumption.
  assert (Hkeep : forall l n,
            n = "geo_data" \/ n = "refinement_data" \/ n = "topo_data"
            \/ n = "topofiles" \/ n = "qinit_data" ->
            get (heap s1) l n = get (heap s) l n).
  { intros l n Hn. apply Hframe. unfold monai_values. cbn.
    rewrite !not_elem_of_cons.
    repeat split; try apply not_elem_of_nil;
      intros [= -> ->]; intuition discriminate. }
  destruct (setgeo_returns s1 lr lg lf lt lq ltf (topofiles ++ [VRef le1]))
    as (v & s2 & Hrun2 & -> & _ & le2 & ln2 & Hle2 & Hln2 & Hne2 & Hl2 & He2
        & Hn2 & Hlists & _); rewrite ?Hkeep, ?Hobj by tauto; try assumption.
  assert (Hin1 : le1 ∈ dom (heap s1)).
  { rewrite Hdom, !elem_of_union, elem_of_singleton. auto. }
  assert (Hltf : ltf ∈ dom (heap s)) by (eapply lst_dom; exact Hlist).
  exists s1, s2, le1, le2. repeat split; try assumption.
  - intros ->. contradiction.
  - rewrite Hl2, <- app_assoc. reflexivity.
  - rewrite Hlists; [exact He1| | |].
    + intros ->. contradiction.
    + intros ->. contradiction.
    + intros ->. contradiction.
Qed.

Lemma setgeo_twice_witness :
  exists s1 s2 le1 le2,
    setgeo (VRef 0%nat) sample_run_data = (Ok (VRef 0%nat), s1) /\
    setgeo (VRef 0%nat) s1 = (Ok (VRef 0%nat), s2) /\
    lst (heap s2) 5%nat = Some [VRef le1; VRef le2].
Proof.
  destruct sample_run_data_view
    as (H1 & H2 & H3 & H4 & H5 & H6 & H7 & H8 & H9).
  destruct (setgeo_twice sample_run_data 0%nat 1%nat 2%nat 3%nat 4%nat 5%nat []
              H1 H2 H3 H4 H5 H6 H7 H8 H9)
    as (s1 & s2 & le1 & le2 & Hr1 & Hr2 & _ & H & _).
  exists s1, s2, le1, le2. auto.
Defined.

Lemma setgeo_guard_fails (rundata : value) (s : state) :
  (forall l, rundata = VRef l -> get (heap s) l "geo_data" = None) ->
  setgeo rundata s
  = (Raise (AttributeError "*** Error, this rundata has no geo_data attribute"),
     State (locals s) (heap s) (loads s ++ ["rundata"])).
Proof.
  intros Hno. unfold setgeo, call. rewrite bind_unfold.
  unfold load_local at 1. cbn [locals heap loads].
  rewrite lookup_singleton_eq. rewrite bind_unfold.
  assert (Hhas : forall s0, heap s0 = heap s ->
            hasattr rundata "geo_data" s0 = (Ok false, s0)).
  { intros s0 Hs0. destruct rundata as [| | | | |l]; try reflexivity.
    rewrite hasattr_view, Hs0, (Hno l eq_refl).
    rewrite bool_decide_eq_false_2 by (intros [? ?]; discriminate).
    reflexivity. }
  rewrite Hhas by reflexivity. reflexivity.
Qed.

(** X16: given anything that has no [geo_data] attribute (an object
    without it, a list, a number, [None]) [setgeo] raises the
    documented [AttributeError] after reading only [rundata]; the heap
    is exactly as it was. *)
Theorem setgeo_without_geo_data (rundata : value) (s : state) :
  (forall l, rundata = VRef l -> get (heap s) l "geo_data" = None) ->
  setgeo rundata s
  = (Raise (AttributeError "*** Error, this rundata has no geo_data attribute"),
     State (locals s) (heap s) (loads s ++ ["rundata"])) /\
  heap (snd (setgeo rundata s)) = heap s.
Proof.
  intros Hno. rewrite (setgeo_guard_fails rundata s Hno).
  split; reflexivity.
Qed.

Lemma setgeo_without_geo_data_witness :
  fst (setgeo VNone sample_run_data)
  = Raise (AttributeError "*** Error, this rundata has no geo_data attribute")
  /\ fst (setgeo (VRef 1%nat) sample_run_data)
  = Raise (AttributeError "*** Error, this rundata has no geo_data attribute").
Proof.
  split.
  - rewrite (proj1 (setgeo_without_geo_data VNone sample_run_data
                      ltac:(discriminate))). reflexivity.
  - rewrite (proj1 (setgeo_without_geo_data (VRef 1%nat) sample_run_data
                      ltac:(intros l [= <-]; vm_compute; reflexivity))).
    reflexivity.
Defined.

(** X17: [setgeo] is not atomic. On run data with a [geo_data] object
    but no [refinement_data] attribute it raises the [AttributeError]
    of the missing attribute only after the nine assignments to the
    geo data, which stay in place; every other attribute, every list
    and the caller's variables are as before. *)
Theorem setgeo_fails_after_geo_data (s : state) (lr lg : loc) :
  get (heap s) lr "geo_data" = Some (VRef lg) -> isobj (heap s) lg = true ->
  get (heap s) lr "refinement_data" = None ->
  exists s',
    setgeo (VRef lr) s = (Raise (AttributeError "refinement_data"), s') /\
    locals s' = locals s /\
    Forall (fun nv => get (heap s') lg (fst nv) = Some (snd nv)) monai_geo_values /\
    (forall l n, (l = lg -> n ∉ monai_geo_values.*1) ->
       get (heap s') l n = get (heap s) l n) /\
    (forall l, lst (heap s') l = lst (heap s) l).
Proof.
  intros Hgeo Hog Href.
  assert (Hr : raises (setgeo (VRef lr)) s (AttributeError "refinement_data")
    (fun s' => locals s' = locals s /\
       Forall (fun nv => get (heap s') lg (fst nv) = Some (snd nv))
         monai_geo_values /\
       (forall l n, (l = lg -> n ∉ monai_geo_values.*1) ->
          get (heap s') l n = get (heap s) l n) /\
       (forall l, lst (heap s') l = lst (heap s) l))).
  { unfold setgeo. apply raises_call.
    apply raises_bind. eapply returns_load_local; [local_lookup|].
    cbn [locals heap loads].
    apply raises_bind. eexists _, _. split; [apply hasattr_view|].
    cbn [heap]. rewrite Hgeo, bool_decide_eq_true_2 by eauto.
    apply raises_bind. apply returns_bind.
    eapply returns_load_local; [local_lookup|]. cbn [locals heap loads].
    step_getattr. apply returns_store_local. cbn [locals heap loads].
    do 9 (apply raises_bind; eapply returns_assign_attr;
          [local_lookup | cbn [heap]; view_back; assumption |]; intro_view).
    apply raises_bind. eapply returns_load_local; [local_lookup|].
    cbn [locals heap loads]. apply raises_first. apply raises_getattr.
    { cbn [heap]. view_back. exact Href. }
    cbn [locals heap loads]. split; [reflexivity|]. split; [|split].
    - unfold monai_geo_values. repeat constructor; cbn [fst snd]; view_back;
        reflexivity.
    - intros l n Hnot.
      assert (Hn : l = lg -> n <> "gravity" /\ n <> "coordinate_system" /\
                n <> "earth_radius" /\ n <> "coriolis_forcing" /\
                n <> "sea_level" /\ n <> "dry_tolerance" /\
                n <> "friction_forcing" /\ n <> "manning_coefficient" /\
                n <> "friction_depth").
      { intros Hl. specialize (Hnot Hl). unfold monai_geo_values in Hnot.
        cbn in Hnot. rewrite !not_elem_of_cons in Hnot. tauto. }
      repeat (match goal with
              | H : forall l n, get ?h l n = _ |- context [get ?h _ _] =>
                  rewrite H
              end;
              rewrite decide_False by (intros [Hl ->]; apply Hn in Hl; tauto)).
      reflexivity.
    - intros l. view_back. reflexivity. }
  destruct Hr as (s' & Hrun & HQ). exists s'. split; [exact Hrun | exact HQ].
Qed.

Lemma setgeo_fails_after_geo_data_witness :
  exists s',
    setgeo (VRef 0%nat)
      (State ∅ {[ 0%nat := Obj {[ "geo_data" := VRef 1%nat ]};
                  1%nat := Obj ∅ ]} [])
    = (Raise (AttributeError "refinement_data"), s') /\
    get (heap s') 1%nat "gravity" = Some (VFloat (dec 981 2)).
Proof.
  set (s := State ∅ {[ 0%nat := Obj {[ "geo_data" := VRef 1%nat ]};
                       1%nat := Obj ∅ ]} []).
  assert (H1 : get (heap s) 0%nat "geo_data" = Some (VRef 1%nat))
    by (vm_compute; reflexivity).
  assert (H2 : isobj (heap s) 1%nat = true) by (vm_compute; reflexivity).
  assert (H3 : get (heap s) 0%nat "refinement_data" = None)
    by (vm_compute; reflexivity).
  destruct (setgeo_fails_after_geo_data s 0%nat 1%nat H1 H2 H3)
    as (s' & Hrun & _ & Hall & _).
  exists s'. split; [exact Hrun|].
  apply Forall_cons in Hall as [Hg _]. exact Hg.
Defined.

End MonaiSetgeo.

(** ** Outcomes of importing the set-up modules and of [setrun] *)

Section ImportOutcomes.
Import OS Py HeapView.

Lemma string_app_assoc (a b c : string) : (a +:+ b) +:+ c = a +:+ (b +:+ c).
Proof.
  induction a as [|x a IH]; [reflexivity|].
  change (String x ((a +:+ b) +:+ c) = String x (a +:+ (b +:+ c))).
  rewrite IH. reflexivity.
Qed.

Lemma ends_with_sep_app (a b : string) :
  b <> "" -> ends_with_sep (a +:+ b) = ends_with_sep b.
Proof.
  intros Hb. induction a as [|x a IH]; [reflexivity|].
  change (ends_with_sep (String x (a +:+ b)) = ends_with_sep b).
  destruct (a +:+ b) as [|y r] eqn:E; [|exact IH].
  destruct a; simpl in E; [contradiction | discriminate].
Qed.

Lemma app_nonempty (a b : string) : b <> "" -> String.eqb (a +:+ b) "" = false.
Proof.
  intros Hb. apply String.eqb_neq. destruct a; cbn; [exact Hb | discriminate].
Qed.

Lemma path_join_step (path b : string) (rest : list string) :
  String.prefix "/" b = false ->
  path_join path (b :: rest)
  = path_join (path +:+ (if String.eqb path "" || ends_with_sep path
                         then "" else "/") +:+ b) rest.
Proof.
  intros Hb. cbn [path_join]. rewrite Hb.
  destruct (String.eqb path "" || ends_with_sep path); reflexivity.
Qed.

Lemma scratch_dir_value (claw : string) :
  path_join claw ["geoclaw"; "scratch"; "cascais_all"]
  = claw +:+ (if String.eqb claw "" || ends_with_sep claw then "" else "/")
         +:+ "geoclaw/scratch/cascais_all".
Proof.
  rewrite !path_join_step by reflexivity. cbn [path_join].
  set (sep := if String.eqb claw "" || ends_with_sep claw then "" else "/").
  assert (Hsep : sep +:+ "geoclaw" <> "") by (subst sep; destruct (_ || _); discriminate).
  rewrite (app_nonempty claw (sep +:+ "geoclaw")) by exact Hsep.
  rewrite (ends_with_sep_app claw (sep +:+ "geoclaw")) by exact Hsep.
  replace (ends_with_sep (sep +:+ "geoclaw")) with false
    by (subst sep; destruct (_ || _); reflexivity).
  cbn [orb].
  rewrite (app_nonempty (claw +:+ sep +:+ "geoclaw") ("/" +:+ "scratch"))
    by discriminate.
  rewrite (ends_with_sep_app (claw +:+ sep +:+ "geoclaw") ("/" +:+ "scratch"))
    by discriminate.
  change (ends_with_sep ("/" +:+ "scratch")) with false. cbn [orb].
  rewrite !string_app_assoc.
  subst sep; destruct (_ || _); reflexivity.
Qed.

(** X18: importing the MonaiValley set-up module succeeds exactly when
    [CLAW] is in the environment, whatever its value, after one
    look-up. The scratch directory is [CLAW] joined with
    [geoclaw/scratch/cascais_all]: a separator is inserted unless
    [CLAW] ends with one or is empty, so an empty [CLAW] is accepted
    and gives a relative directory. *)
Theorem monai_import_outcomes (w : os) :
  (is_ok (fst (MonaiValley.import_module w)) = true
     <-> is_Some (environ w !! "CLAW")) /\
  (forall claw, environ w !! "CLAW" = Some claw ->
     exists g, MonaiValley.import_module w = (Ok g, [GetEnv "CLAW"]) /\
       MonaiValley.CLAW g = claw /\
       MonaiValley.scratch_dir g
       = claw +:+ (if String.eqb claw "" || ends_with_sep claw then "" else "/")
              +:+ "geoclaw/scratch/cascais_all").
Proof.
  unfold MonaiValley.import_module, environ_getitem. split.
  - destruct (environ w !! "CLAW"); cbn; split; eauto;
      [discriminate | intros [? ?]; discriminate].
  - intros claw ->. eexists. split; [reflexivity|]. cbn.
    split; [reflexivity | apply scratch_dir_value].
Qed.

Lemma monai_import_outcomes_witness :
  let w := {| environ := {[ "CLAW" := "" ]}; isdir := fun _ => false |} in
  exists g, MonaiValley.import_module w = (Ok g, [GetEnv "CLAW"]) /\
    MonaiValley.scratch_dir g = "geoclaw/scratch/cascais_all".
Proof.
  intros w.
  assert (H : environ w !! "CLAW" = Some "") by (vm_compute; reflexivity).
  destruct (proj2 (monai_import_outcomes w) "" H) as (g & Hg & _ & Hs).
  exists g. split; [exact Hg | exact Hs].
Defined.

(** X19: importing the problem2 set-up module succeeds exactly when
    [HOME] is set and both data directories below it exist; it then has
    made three queries and both directory names start with [HOME].
    Without [HOME] the error is the bare [KeyError] of the look-up,
    raised before any directory is checked. *)
Theorem problem2_import_outcomes (w : os) :
  (environ w !! "HOME" = None ->
   Problem2.import_module w = (Raise (KeyError (KStr "HOME")), [GetEnv "HOME"])) /\
  (is_ok (fst (Problem2.import_module w)) = true
     <-> exists home, environ w !! "HOME" = Some home /\
           isdir w (home +:+ "/git/tohoku2011/topo/") = true /\
           isdir w (home +:+ "/git/tohoku2011-paper1/sources/") = true) /\
  (forall g, fst (Problem2.import_module w) = Ok g ->
     environ w !! "HOME" = Some (Problem2.HOME g) /\
     Problem2.topodir g = Problem2.HOME g +:+ "/git/tohoku2011/topo/" /\
     Problem2.dtopodir g = Problem2.HOME g +:+ "/git/tohoku2011-paper1/sources/" /\
     snd (Problem2.import_module w)
     = [GetEnv "HOME"; IsDir (Problem2.topodir g); IsDir (Problem2.dtopodir g)]).
Proof.
  unfold Problem2.import_module, environ_getitem.
  destruct (environ w !! "HOME") as [home|] eqn:E; cbn.
  - split; [discriminate|].
    destruct (isdir w (home +:+ "/git/tohoku2011/topo/")) eqn:Et; cbn.
    + destruct (isdir w (home +:+ "/git/tohoku2011-paper1/sources/")) eqn:Ed; cbn.
      * split.
        -- split; [|reflexivity]. intros _. exists home. auto.
        -- intros g [= <-]. cbn. auto.
      * split; [|discriminate]. split; [discriminate|].
        intros (h' & [= <-] & _ & Hd). congruence.
    + split; [|discriminate]. split; [discriminate|].
      intros (h' & [= <-] & Ht & _). congruence.
  - split; [reflexivity|]. split; [|discriminate].
    split; [discriminate | intros (h' & Hh & _); discriminate].
Qed.

Lemma problem2_import_outcomes_witness :
  Problem2.import_module {| environ := ∅; isdir := fun _ => true |}
  = (Raise (KeyError (KStr "HOME")), [GetEnv "HOME"]).
Proof.
  apply (proj1 (problem2_import_outcomes
                  {| environ := ∅; isdir := fun _ => true |})).
  reflexivity.
Defined.

(** X20: both [setrun] functions check the package name first: a name
    whose lower-case form is not [geoclaw] raises [AssertionError]
    before the run data is constructed, and nothing has changed. *)
Theorem setrun_rejects_package (ClawRunData : string -> Z -> M value)
    (settings : value -> M unit) (g : Problem2.globals) (claw_pkg : string)
    (s : state) :
  lower claw_pkg <> "geoclaw" ->
  MonaiValley.setrun ClawRunData settings claw_pkg s
  = (Raise (AssertionError "Expected claw_pkg = 'geoclaw'"),
     State (locals s) (heap s) (loads s)) /\
  Problem2.setrun ClawRunData settings g claw_pkg s
  = (Raise (AssertionError "Expected claw_pkg = 'geoclaw'"),
     State (locals s) (heap s) (loads s)).
Proof.
  intros Hne. apply String.eqb_neq in Hne.
  unfold MonaiValley.setrun, Problem2.setrun, call.
  rewrite !bind_unfold, Hne. split; reflexivity.
Qed.

Lemma setrun_rejects_package_witness :
  fst (MonaiValley.setrun (fun _ _ => mret VNone) (fun _ => mret tt) "amrclaw"
         (State ∅ ∅ []))
  = Raise (AssertionError "Expected claw_pkg = 'geoclaw'").
Proof.
  rewrite (proj1 (setrun_rejects_package (fun _ _ => mret VNone)
                    (fun _ => mret tt)
                    {| Problem2.HOME := ""; Problem2.topodir := "";
                       Problem2.dtopodir := "" |}
                    "amrclaw" (State ∅ ∅ []) ltac:(discriminate))).
  reflexivity.
Defined.

(** X21: with an accepted package name (any capitalisation of
    [geoclaw]) [setrun] of MonaiValley constructs the run data next: an
    exception of the constructor is passed on, and run data without a
    [geo_data] attribute makes [setgeo] raise the documented
    [AttributeError] with the heap as the constructor left it, before
    any of the later settings is made. *)
Theorem monai_setrun_failures (ClawRunData : string -> Z -> M value)
    (settings : value -> M unit) (claw_pkg : string) (s : state) :
  lower claw_pkg = "geoclaw" ->
  let s0 := State (<["num_dim" := VInt 2]> {[ "claw_pkg" := VStr claw_pkg ]})
              (heap s) (loads s) in
  (forall e s1, ClawRunData claw_pkg 2 s0 = (Raise e, s1) ->
     MonaiValley.setrun ClawRunData settings claw_pkg s
     = (Raise e, State (locals s) (heap s1) (loads s1))) /\
  (forall r s1, ClawRunData claw_pkg 2 s0 = (Ok r, s1) ->
     (forall l, r = VRef l -> get (heap s1) l "geo_data" = None) ->
     MonaiValley.setrun ClawRunData settings claw_pkg s
     = (Raise (AttributeError "*** Error, this rundata has no geo_data attribute"),
        State (locals s) (heap s1) ((loads s1 ++ ["rundata"]) ++ ["rundata"]))).
Proof.
  intros Hok s0. apply String.eqb_eq in Hok.
  unfold MonaiValley.setrun, call. rewrite bind_unfold, Hok.
  cbn [mret M_ret]. rewrite bind_unfold. cbn [store_local locals heap loads].
  fold s0. split.
  - intros e s1 Hc. rewrite bind_unfold, Hc. reflexivity.
  - intros r s1 Hc Hno. rewrite bind_unfold, Hc.
    rewrite bind_unfold. cbn [store_local]. rewrite bind_unfold.
    unfold load_local at 1. cbn [locals heap loads]. rewrite lookup_insert_eq.
    rewrite bind_unfold, setgeo_guard_fails by exact Hno. reflexivity.
Qed.

Lemma monai_setrun_failures_witness :
  fst (MonaiValley.setrun (fun _ _ => mret VNone) (fun _ => mret tt) "GeoClaw"
         (State ∅ ∅ []))
  = Raise (AttributeError "*** Error, this rundata has no geo_data attribute").
Proof.
  rewrite (proj2 (monai_setrun_failures (fun _ _ => mret VNone)
                    (fun _ => mret tt) "GeoClaw" (State ∅ ∅ []) eq_refl)
             VNone _ eq_refl ltac:(discriminate)).
  reflexivity.
Defined.

End ImportOutcomes.
